(** * x402-sdk-for-sui: a shallow embedding of the payment protocol engine

    The development follows the TypeScript sources:
    - [src/types/index.ts]                      data model, [wrapFetchWithPayment],
                                                [decodeXPaymentRequired], [decodeXPaymentResponse]
    - [src/x402/facilitator/index.ts]           [verifyPayment], [settlePayment],
                                                [createAndSignPayment], [createPaymentHeader]
    - [src/x402/middleware/paymentMiddleware.ts] [paymentMiddleware]

    JavaScript strings are sequences of UTF-16 code units, byte buffers are
    sequences of octets; both are lists of [Z].  The platform functions the
    sources call ([JSON.stringify], [JSON.parse], [Buffer.from], [BigInt],
    [String.prototype.replace]) are written out on that representation.
    Network, ledger and clock are oracles over an abstract world state, and
    every computation leaves a trace of the effects it performed. *)

From Stdlib Require Import ZArith List String Ascii Bool Lia Decimal DecimalZ DecimalPos.
Import ListNotations.
Local Open Scope Z_scope.

(* ================================================================== *)
(** ** JavaScript strings *)

(** A string value: the list of its UTF-16 code units. *)
Definition jsstring := list Z.

(** Octets of a [Buffer] / [Uint8Array]. *)
Definition bytes := list Z.

Definition code_unit (c : Z) : Prop := 0 <= c < 65536.
Definition octet (b : Z) : Prop := 0 <= b < 256.

Definition wf_string (s : jsstring) : Prop := Forall code_unit s.
Definition wf_bytes (bs : bytes) : Prop := Forall octet bs.

(** A string literal of the source program (ASCII text). *)
Definition js (s : string) : jsstring :=
  map (fun a => Z.of_N (N_of_ascii a)) (list_ascii_of_string s).

Fixpoint str_eqb (a b : jsstring) : bool :=
  match a, b with
  | [], [] => true
  | x :: a', y :: b' => (x =? y) && str_eqb a' b'
  | _, _ => false
  end.

Fixpoint starts_with (pre s : jsstring) : bool :=
  match pre, s with
  | [], _ => true
  | x :: pre', y :: s' => (x =? y) && starts_with pre' s'
  | _ :: _, [] => false
  end.

(** [s.replace(pat, by)] with a string pattern: the first occurrence only. *)
Fixpoint replace_first (pat by_ s : jsstring) : jsstring :=
  if starts_with pat s then by_ ++ skipn (List.length pat) s
  else match s with
       | [] => []
       | c :: r => c :: replace_first pat by_ r
       end.

(** [parts.join(sep)] *)
Fixpoint join (sep : jsstring) (parts : list jsstring) : jsstring :=
  match parts with
  | [] => []
  | [p] => p
  | p :: rest => p ++ sep ++ join sep rest
  end.

Definition is_high_surrogate (c : Z) : bool := (55296 <=? c) && (c <=? 56319).
Definition is_low_surrogate (c : Z) : bool := (56320 <=? c) && (c <=? 57343).

(* ================================================================== *)
(** ** Base64, as [Buffer] and [@mysten/bcs] implement it *)

Module Base64.

(** The character of a six-bit group (alphabet [A-Za-z0-9+/]). *)
Definition char_of (n : Z) : Z :=
  if n <? 26 then 65 + n
  else if n <? 52 then 97 + (n - 26)
  else if n <? 62 then 48 + (n - 52)
  else if n =? 62 then 43
  else 47.

(** The six-bit group of a character; the URL-safe [-] and [_] are
    accepted as well, as Node's decoder does. *)
Definition unbase64 (c : Z) : option Z :=
  if (65 <=? c) && (c <=? 90) then Some (c - 65)
  else if (97 <=? c) && (c <=? 122) then Some (c - 97 + 26)
  else if (48 <=? c) && (c <=? 57) then Some (c - 48 + 52)
  else if (c =? 43) || (c =? 45) then Some 62
  else if (c =? 47) || (c =? 95) then Some 63
  else None.

(** [buf.toString("base64")], also [toB64(bytes)]: padded output. *)
Fixpoint encode (bs : bytes) : jsstring :=
  match bs with
  | [] => []
  | [a] =>
      [char_of (Z.shiftr a 2); char_of (Z.shiftl (Z.land a 3) 4); 61; 61]
  | [a; b] =>
      [char_of (Z.shiftr a 2);
       char_of (Z.lor (Z.shiftl (Z.land a 3) 4) (Z.shiftr b 4));
       char_of (Z.shiftl (Z.land b 15) 2); 61]
  | a :: b :: c :: rest =>
      char_of (Z.shiftr a 2)
      :: char_of (Z.lor (Z.shiftl (Z.land a 3) 4) (Z.shiftr b 4))
      :: char_of (Z.lor (Z.shiftl (Z.land b 15) 2) (Z.shiftr c 6))
      :: char_of (Z.land c 63)
      :: encode rest
  end.

(** Node's decoder is lenient: characters outside the alphabet are
    skipped and the first [=] ends the input. *)
Fixpoint sextets (s : jsstring) : list Z :=
  match s with
  | [] => []
  | c :: r =>
      match unbase64 c with
      | Some v => v :: sextets r
      | None => if c =? 61 then [] else sextets r
      end
  end.

Fixpoint unpack (l : list Z) : bytes :=
  match l with
  | a :: b :: c :: d :: r =>
      Z.lor (Z.shiftl a 2) (Z.shiftr b 4)
      :: Z.lor (Z.shiftl (Z.land b 15) 4) (Z.shiftr c 2)
      :: Z.lor (Z.shiftl (Z.land c 3) 6) d
      :: unpack r
  | [a; b; c] =>
      [Z.lor (Z.shiftl a 2) (Z.shiftr b 4);
       Z.lor (Z.shiftl (Z.land b 15) 4) (Z.shiftr c 2)]
  | [a; b] => [Z.lor (Z.shiftl a 2) (Z.shiftr b 4)]
  | _ => []
  end.

(** [Buffer.from(s, "base64")] *)
Definition decode (s : jsstring) : bytes := unpack (sextets s).

(** [atob]: the forgiving-base64 decode of the WHATWG Infra standard.
    ASCII white space is removed; when the length is a multiple of four,
    one or two trailing [=] are removed; a length of 1 modulo 4 or a
    character outside [A-Za-z0-9+/] is a failure. *)
Definition is_ascii_ws (c : Z) : bool :=
  (c =? 9) || (c =? 10) || (c =? 12) || (c =? 13) || (c =? 32).

Fixpoint strip_padding (s : jsstring) : jsstring :=
  match s with
  | [] => []
  | c :: r =>
      if (c =? 61) && (match r with
                       | [] => true
                       | [d] => d =? 61
                       | _ => false
                       end)
      then []
      else c :: strip_padding r
  end.

Definition alphabet_value (c : Z) : option Z :=
  if (c =? 45) || (c =? 95) then None else unbase64 c.

Fixpoint all_sextets (s : jsstring) : option (list Z) :=
  match s with
  | [] => Some []
  | c :: r =>
      match alphabet_value c, all_sextets r with
      | Some v, Some l => Some (v :: l)
      | _, _ => None
      end
  end.

Definition multiple_of_4 (s : jsstring) : bool :=
  Z.of_nat (List.length s) mod 4 =? 0.

Definition forgiving_decode (s : jsstring) : option bytes :=
  let d := filter (fun c => negb (is_ascii_ws c)) s in
  let d := if multiple_of_4 d then strip_padding d else d in
  if Z.of_nat (List.length d) mod 4 =? 1 then None
  else match all_sextets d with
       | Some l => Some (unpack l)
       | None => None
       end.

End Base64.

(* ================================================================== *)
(** ** UTF-8, as [Buffer.from(s)] and [buf.toString("utf-8")] implement it *)

Module Utf8.

Definition replacement : bytes := [239; 191; 189].

Definition encode_cp (cp : Z) : bytes :=
  if cp <? 128 then [cp]
  else if cp <? 2048 then [Z.lor 192 (Z.shiftr cp 6); Z.lor 128 (Z.land cp 63)]
  else if cp <? 65536 then
    [Z.lor 224 (Z.shiftr cp 12);
     Z.lor 128 (Z.land (Z.shiftr cp 6) 63);
     Z.lor 128 (Z.land cp 63)]
  else
    [Z.lor 240 (Z.shiftr cp 18);
     Z.lor 128 (Z.land (Z.shiftr cp 12) 63);
     Z.lor 128 (Z.land (Z.shiftr cp 6) 63);
     Z.lor 128 (Z.land cp 63)].

(** [Buffer.from(s)]: surrogate pairs are combined, a lone surrogate
    becomes U+FFFD. *)
Fixpoint encode (s : jsstring) : bytes :=
  match s with
  | [] => []
  | c :: r =>
      if is_high_surrogate c then
        match r with
        | d :: r' =>
            if is_low_surrogate d
            then encode_cp (65536 + Z.shiftl (c - 55296) 10 + (d - 56320)) ++ encode r'
            else replacement ++ encode r
        | [] => replacement
        end
      else if is_low_surrogate c then replacement ++ encode r
      else encode_cp c ++ encode r
  end.

Definition continuation (lo hi b : Z) : bool := (lo <=? b) && (b <=? hi).

(** The code units of a decoded code point. *)
Definition units_of (cp : Z) : jsstring :=
  if cp <? 65536 then [cp]
  else [55296 + Z.shiftr (cp - 65536) 10; 56320 + Z.land (cp - 65536) 1023].

(** [buf.toString("utf-8")]: the WHATWG decoder; an ill-formed
    sequence yields U+FFFD and decoding resumes at the offending byte. *)
Fixpoint decode (bs : bytes) : jsstring :=
  match bs with
  | [] => []
  | b0 :: r0 =>
      if b0 <? 128 then b0 :: decode r0
      else if (194 <=? b0) && (b0 <=? 223) then
        match r0 with
        | b1 :: r1 =>
            if continuation 128 191 b1
            then Z.lor (Z.shiftl (Z.land b0 31) 6) (Z.land b1 63) :: decode r1
            else 65533 :: decode r0
        | [] => [65533]
        end
      else if (224 <=? b0) && (b0 <=? 239) then
        match r0 with
        | b1 :: r1 =>
            if continuation (if b0 =? 224 then 160 else 128)
                            (if b0 =? 237 then 159 else 191) b1
            then match r1 with
                 | b2 :: r2 =>
                     if continuation 128 191 b2
                     then Z.lor (Z.shiftl (Z.lor (Z.shiftl (Z.land b0 15) 6)
                                                 (Z.land b1 63)) 6)
                                (Z.land b2 63) :: decode r2
                     else 65533 :: decode r1
                 | [] => [65533]
                 end
            else 65533 :: decode r0
        | [] => [65533]
        end
      else if (240 <=? b0) && (b0 <=? 244) then
        match r0 with
        | b1 :: r1 =>
            if continuation (if b0 =? 240 then 144 else 128)
                            (if b0 =? 244 then 143 else 191) b1
            then match r1 with
                 | b2 :: r2 =>
                     if continuation 128 191 b2
                     then match r2 with
                          | b3 :: r3 =>
                              if continuation 128 191 b3
                              then units_of
                                     (Z.lor (Z.shiftl
                                        (Z.lor (Z.shiftl
                                           (Z.lor (Z.shiftl (Z.land b0 7) 6)
                                                  (Z.land b1 63)) 6)
                                           (Z.land b2 63)) 6)
                                        (Z.land b3 63))
                                   ++ decode r3
                              else 65533 :: decode r2
                          | [] => [65533]
                          end
                     else 65533 :: decode r1
                 | [] => [65533]
                 end
            else 65533 :: decode r0
        | [] => [65533]
        end
      else 65533 :: decode r0
  end.

End Utf8.

(* ================================================================== *)
(** ** Errors and outcomes *)

(** What a JavaScript computation can throw. *)
Inductive Error : Type :=
| Err (msg : jsstring)          (* [new Error(msg)] raised by the sources *)
| SyntaxError                   (* [JSON.parse], [BigInt] on a bad literal *)
| TypeError                     (* property access on [null]/[undefined] *)
| RangeError
| DOMException                  (* [atob] on text that is not base64 *)
| External (what : jsstring).   (* raised by the network or the ledger *)

(** The outcome of running a computation.  [Stuck] marks a run the model
    does not describe: a number that is not a safe integer, a TypeScript
    cast of the transport applied to a value of another shape, or a
    signature handed to the ledger client that is no string. *)
Inductive Outcome (A : Type) : Type :=
| Ok (a : A)
| Throw (e : Error)
| Stuck.
Arguments Ok {A} a.
Arguments Throw {A} e.
Arguments Stuck {A}.

(** What an external party (network, ledger) answers. *)
Inductive Reply (A : Type) : Type :=
| Returns (a : A)
| Raises (e : Error).
Arguments Returns {A} a.
Arguments Raises {A} e.

(* ================================================================== *)
(** ** Decimal numerals *)

Fixpoint digits_of_uint (u : uint) : jsstring :=
  match u with
  | Nil => []
  | D0 r => 48 :: digits_of_uint r
  | D1 r => 49 :: digits_of_uint r
  | D2 r => 50 :: digits_of_uint r
  | D3 r => 51 :: digits_of_uint r
  | D4 r => 52 :: digits_of_uint r
  | D5 r => 53 :: digits_of_uint r
  | D6 r => 54 :: digits_of_uint r
  | D7 r => 55 :: digits_of_uint r
  | D8 r => 56 :: digits_of_uint r
  | D9 r => 57 :: digits_of_uint r
  end.

Definition is_digit (c : Z) : bool := (48 <=? c) && (c <=? 57).

Fixpoint uint_of_digits (l : jsstring) : uint :=
  match l with
  | [] => Nil
  | c :: r =>
      let u := uint_of_digits r in
      match c with
      | 48 => D0 u | 49 => D1 u | 50 => D2 u | 51 => D3 u | 52 => D4 u
      | 53 => D5 u | 54 => D6 u | 55 => D7 u | 56 => D8 u | _ => D9 u
      end
  end.

(** The longest prefix of decimal digits, and what follows it. *)
Fixpoint take_digits (s : jsstring) : jsstring * jsstring :=
  match s with
  | c :: r =>
      if is_digit c
      then let (d, rest) := take_digits r in (c :: d, rest)
      else ([], s)
  | [] => ([], [])
  end.

(** [z.toString()] for a BigInt, and for a Number holding an integer. *)
Definition decimal_of_Z (z : Z) : jsstring :=
  match Z.to_int z with
  | Decimal.Pos u => digits_of_uint u
  | Decimal.Neg u => 45 :: digits_of_uint u
  end.

Definition max_safe_integer : Z := 9007199254740991.

Definition safe_integer (z : Z) : Prop :=
  - max_safe_integer <= z <= max_safe_integer.

Definition safe_integerb (z : Z) : bool :=
  (- max_safe_integer <=? z) && (z <=? max_safe_integer).

(* ================================================================== *)
(** ** JavaScript values and JSON *)

(** A Number: an integer, or one of the three values JSON cannot write.
    Integers stand for themselves within the safe range. *)
Inductive number : Type :=
| Int (z : Z)
| NaN
| PosInfinity
| NegInfinity.

(** Values that travel through [JSON.stringify] and [JSON.parse].  An
    object lists its own properties in property order: array-index keys in
    ascending order first, then the other keys in order of creation. *)
#[local] Unset Elimination Schemes.
Inductive value : Type :=
| VUndefined
| VNull
| VBool (b : bool)
| VNum (n : number)
| VStr (s : jsstring)
| VArr (elems : list value)
| VObj (props : list (jsstring * value)).
#[local] Set Elimination Schemes.

Module JSON.

Definition hex_digit (d : Z) : Z := if d <? 10 then 48 + d else 87 + d.

(** [\uXXXX], lower-case digits. *)
Definition unicode_escape (c : Z) : jsstring :=
  [92; 117;
   hex_digit (Z.shiftr c 12);
   hex_digit (Z.land (Z.shiftr c 8) 15);
   hex_digit (Z.land (Z.shiftr c 4) 15);
   hex_digit (Z.land c 15)].

(** QuoteJSONString, between the quotes: the string is read by code
    point, so a surrogate pair is copied and a lone surrogate escaped. *)
Fixpoint quote_body (s : jsstring) : jsstring :=
  match s with
  | [] => []
  | c :: r =>
      if c =? 8 then 92 :: 98 :: quote_body r
      else if c =? 9 then 92 :: 116 :: quote_body r
      else if c =? 10 then 92 :: 110 :: quote_body r
      else if c =? 12 then 92 :: 102 :: quote_body r
      else if c =? 13 then 92 :: 114 :: quote_body r
      else if c =? 34 then 92 :: 34 :: quote_body r
      else if c =? 92 then 92 :: 92 :: quote_body r
      else if c <? 32 then unicode_escape c ++ quote_body r
      else if is_high_surrogate c then
        match r with
        | d :: r' =>
            if is_low_surrogate d then c :: d :: quote_body r'
            else unicode_escape c ++ quote_body r
        | [] => unicode_escape c
        end
      else if is_low_surrogate c then unicode_escape c ++ quote_body r
      else c :: quote_body r
  end.

Definition quote (s : jsstring) : jsstring := 34 :: quote_body s ++ [34].

Definition number_text (n : number) : jsstring :=
  match n with
  | Int z => decimal_of_Z z
  | _ => js "null"
  end.

Section Members.
Variable ser : value -> option jsstring.

(** Array elements: [undefined] is written [null]. *)
Fixpoint elements (l : list value) : list jsstring :=
  match l with
  | [] => []
  | x :: r =>
      match ser x with
      | Some t => t :: elements r
      | None => js "null" :: elements r
      end
  end.

(** Object members: a property holding [undefined] is left out. *)
Fixpoint members (ps : list (jsstring * value)) : list jsstring :=
  match ps with
  | [] => []
  | (k, x) :: r =>
      match ser x with
      | Some t => (quote k ++ 58 :: t) :: members r
      | None => members r
      end
  end.
End Members.

(** SerializeJSONProperty; [None] is the result [undefined]. *)
Fixpoint serialize (v : value) : option jsstring :=
  match v with
  | VUndefined => None
  | VNull => Some (js "null")
  | VBool true => Some (js "true")
  | VBool false => Some (js "false")
  | VNum n => Some (number_text n)
  | VStr s => Some (quote s)
  | VArr l => Some (91 :: join [44] (elements serialize l) ++ [93])
  | VObj ps => Some (123 :: join [44] (members serialize ps) ++ [125])
  end.

(** [JSON.stringify(v)] where the result is used as a string: the
    sources only ever apply it to objects. *)
Definition stringify (v : value) : jsstring :=
  match serialize v with
  | Some t => t
  | None => js "undefined"
  end.

(* ---------------------------------------------------------------- *)
(** *** Parsing *)

Inductive presult (A : Type) : Type :=
| POk (a : A) (rest : jsstring)
| PSyntaxError
| PUnsupported.
Arguments POk {A} a rest.
Arguments PSyntaxError {A}.
Arguments PUnsupported {A}.

Definition pmap {A B} (f : A -> B) (r : presult A) : presult B :=
  match r with
  | POk a rest => POk (f a) rest
  | PSyntaxError => PSyntaxError
  | PUnsupported => PUnsupported
  end.

Definition is_ws (c : Z) : bool :=
  (c =? 32) || (c =? 9) || (c =? 10) || (c =? 13).

Fixpoint skip_ws (s : jsstring) : jsstring :=
  match s with
  | c :: r => if is_ws c then skip_ws r else s
  | [] => []
  end.

Definition hex_value (c : Z) : option Z :=
  if (48 <=? c) && (c <=? 57) then Some (c - 48)
  else if (97 <=? c) && (c <=? 102) then Some (c - 87)
  else if (65 <=? c) && (c <=? 70) then Some (c - 55)
  else None.

Definition hex4 (a b c d : Z) : option Z :=
  match hex_value a, hex_value b, hex_value c, hex_value d with
  | Some x, Some y, Some z, Some w =>
      Some (Z.lor (Z.shiftl x 12) (Z.lor (Z.shiftl y 8) (Z.lor (Z.shiftl z 4) w)))
  | _, _, _, _ => None
  end.

Definition simple_escape (e : Z) : option Z :=
  if e =? 34 then Some 34
  else if e =? 92 then Some 92
  else if e =? 47 then Some 47
  else if e =? 98 then Some 8
  else if e =? 102 then Some 12
  else if e =? 110 then Some 10
  else if e =? 114 then Some 13
  else if e =? 116 then Some 9
  else None.

(** The characters of a string literal, after its opening quote. *)
Fixpoint parse_chars (s : jsstring) : presult jsstring :=
  match s with
  | [] => PSyntaxError
  | c :: r =>
      if c =? 34 then POk [] r
      else if c =? 92 then
        match r with
        | e :: r' =>
            if e =? 117 then
              match r' with
              | h1 :: h2 :: h3 :: h4 :: r'' =>
                  match hex4 h1 h2 h3 h4 with
                  | Some u => pmap (cons u) (parse_chars r'')
                  | None => PSyntaxError
                  end
              | _ => PSyntaxError
              end
            else
              match simple_escape e with
              | Some u => pmap (cons u) (parse_chars r')
              | None => PSyntaxError
              end
        | [] => PSyntaxError
        end
      else if c <? 32 then PSyntaxError
      else pmap (cons c) (parse_chars r)
  end.

(** A number literal whose first character (after an optional minus
    sign) is a digit.  Fractions, exponents, negative zero and integers
    beyond the safe range denote Numbers outside the model. *)
Definition parse_number (neg : bool) (s : jsstring) : presult value :=
  let (ds, rest) := take_digits s in
  match ds with
  | [] => PSyntaxError
  | d :: more =>
      if (d =? 48) && negb (match more with [] => true | _ => false end)
      then PSyntaxError
      else
        match rest with
        | c :: _ =>
            if (c =? 46) || (c =? 101) || (c =? 69) then PUnsupported
            else
              let n := Z.of_uint (uint_of_digits ds) in
              if neg && (n =? 0) then PUnsupported
              else if safe_integerb n
                   then POk (VNum (Int (if neg then - n else n))) rest
                   else PUnsupported
        | [] =>
            let n := Z.of_uint (uint_of_digits ds) in
            if neg && (n =? 0) then PUnsupported
            else if safe_integerb n
                 then POk (VNum (Int (if neg then - n else n))) rest
                 else PUnsupported
        end
  end.

Definition expect (lit : jsstring) (v : value) (s : jsstring) : presult value :=
  if starts_with lit s then POk v (skipn (List.length lit) s) else PSyntaxError.

(** Array-index keys: canonical numerals up to 2^32 - 2. *)
Definition array_index (k : jsstring) : option Z :=
  match k with
  | [] => None
  | c :: r =>
      if forallb is_digit k && ((c =? 48) && (match r with [] => true | _ => false end)
                                || negb (c =? 48))
         && (Z.of_nat (List.length k) <=? 10)
      then let n := Z.of_uint (uint_of_digits k) in
           if n <=? 4294967294 then Some n else None
      else None
  end.

Fixpoint obj_replace (k : jsstring) (v : value) (o : list (jsstring * value))
  : option (list (jsstring * value)) :=
  match o with
  | [] => None
  | (k', v') :: r =>
      if str_eqb k k' then Some ((k', v) :: r)
      else match obj_replace k v r with
           | Some r' => Some ((k', v') :: r')
           | None => None
           end
  end.

Fixpoint insert_index (i : Z) (k : jsstring) (v : value)
         (o : list (jsstring * value)) : list (jsstring * value) :=
  match o with
  | [] => [(k, v)]
  | (k', v') :: r =>
      match array_index k' with
      | Some j => if j <? i then (k', v') :: insert_index i k v r else (k, v) :: o
      | None => (k, v) :: o
      end
  end.

(** CreateDataProperty on an ordinary object. *)
Definition define (o : list (jsstring * value)) (kv : jsstring * value)
  : list (jsstring * value) :=
  let (k, v) := kv in
  match obj_replace k v o with
  | Some o' => o'
  | None =>
      match array_index k with
      | Some i => insert_index i k v o
      | None => o ++ [(k, v)]
      end
  end.

Definition object_of (kvs : list (jsstring * value)) : value :=
  VObj (fold_left define kvs []).

(** The text after white space, when it begins with the character [k]. *)
Definition next_is (k : Z) (s : jsstring) : option jsstring :=
  match skip_ws s with
  | c :: r => if c =? k then Some r else None
  | [] => None
  end.

(** Recursive descent; every call consumes a character, so fuel equal
    to the length of the text (plus one) is never exhausted. *)
Fixpoint parse_value (fuel : nat) (s : jsstring) : presult value :=
  match fuel with
  | O => PUnsupported
  | S f =>
      match skip_ws s with
      | [] => PSyntaxError
      | c :: r =>
          if c =? 34 then pmap VStr (parse_chars r)
          else if c =? 91 then
            match next_is 93 r with
            | Some r' => POk (VArr []) r'
            | None => pmap VArr (parse_elements f r)
            end
          else if c =? 123 then
            match next_is 125 r with
            | Some r' => POk (VObj []) r'
            | None => pmap object_of (parse_members f r)
            end
          else if c =? 110 then expect (js "ull") VNull r
          else if c =? 116 then expect (js "rue") (VBool true) r
          else if c =? 102 then expect (js "alse") (VBool false) r
          else if c =? 45 then parse_number true r
          else if is_digit c then parse_number false (c :: r)
          else PSyntaxError
      end
  end

with parse_elements (fuel : nat) (s : jsstring) : presult (list value) :=
  match fuel with
  | O => PUnsupported
  | S f =>
      match parse_value f s with
      | POk v rest =>
          match next_is 44 rest with
          | Some rest' => pmap (cons v) (parse_elements f rest')
          | None =>
              match next_is 93 rest with
              | Some rest' => POk [v] rest'
              | None => PSyntaxError
              end
          end
      | PSyntaxError => PSyntaxError
      | PUnsupported => PUnsupported
      end
  end

with parse_members (fuel : nat) (s : jsstring) : presult (list (jsstring * value)) :=
  match fuel with
  | O => PUnsupported
  | S f =>
      match next_is 34 s with
      | Some r =>
          match parse_chars r with
          | POk k rest =>
              match next_is 58 rest with
              | Some rest' =>
                  match parse_value f rest' with
                  | POk v rest'' =>
                      match next_is 44 rest'' with
                      | Some rest3 => pmap (cons (k, v)) (parse_members f rest3)
                      | None =>
                          match next_is 125 rest'' with
                          | Some rest3 => POk [(k, v)] rest3
                          | None => PSyntaxError
                          end
                      end
                  | PSyntaxError => PSyntaxError
                  | PUnsupported => PUnsupported
                  end
              | None => PSyntaxError
              end
          | PSyntaxError => PSyntaxError
          | PUnsupported => PUnsupported
          end
      | None => PSyntaxError
      end
  end.

(** [JSON.parse(text)] *)
Definition parse (text : jsstring) : Outcome value :=
  match parse_value (S (List.length text)) text with
  | POk v rest =>
      match skip_ws rest with
      | [] => Ok v
      | _ => Throw SyntaxError
      end
  | PSyntaxError => Throw SyntaxError
  | PUnsupported => Stuck
  end.

End JSON.

(* ================================================================== *)
(** ** [BigInt(string)] *)

(** StrWhiteSpaceChar: white space and line terminators. *)
Definition is_str_ws (c : Z) : bool :=
  existsb (Z.eqb c) [9; 10; 11; 12; 13; 32; 160; 5760; 8232; 8233; 8239; 8287; 12288; 65279]
  || ((8192 <=? c) && (c <=? 8202)).

Fixpoint drop_str_ws (s : jsstring) : jsstring :=
  match s with
  | c :: r => if is_str_ws c then drop_str_ws r else s
  | [] => []
  end.

Definition trim (s : jsstring) : jsstring :=
  List.rev (drop_str_ws (List.rev (drop_str_ws s))).

Definition digit_in (radix c : Z) : option Z :=
  let d := if (48 <=? c) && (c <=? 57) then c - 48
           else if (97 <=? c) && (c <=? 122) then c - 87
           else if (65 <=? c) && (c <=? 90) then c - 55
           else radix in
  if d <? radix then Some d else None.

Fixpoint digits_value (radix acc : Z) (l : jsstring) : option Z :=
  match l with
  | [] => Some acc
  | c :: r =>
      match digit_in radix c with
      | Some d => digits_value radix (acc * radix + d) r
      | None => None
      end
  end.

(** One or more digits of the radix. *)
Definition numeral (radix : Z) (l : jsstring) : Outcome Z :=
  match l with
  | [] => Throw SyntaxError
  | _ => match digits_value radix 0 l with
         | Some n => Ok n
         | None => Throw SyntaxError
         end
  end.

Definition negate (r : Outcome Z) : Outcome Z :=
  match r with
  | Ok n => Ok (- n)
  | other => other
  end.

(** StringToBigInt: surrounding white space is dropped, the empty text is
    zero, a decimal numeral may carry a sign, [0x], [0o] and [0b] numerals
    may not; anything else is a SyntaxError. *)
Definition BigInt (s : jsstring) : Outcome Z :=
  match trim s with
  | [] => Ok 0
  | 43 :: r => numeral 10 r
  | 45 :: r => negate (numeral 10 r)
  | 48 :: x :: r =>
      if (x =? 120) || (x =? 88) then numeral 16 r
      else if (x =? 111) || (x =? 79) then numeral 8 r
      else if (x =? 98) || (x =? 66) then numeral 2 r
      else numeral 10 (48 :: x :: r)
  | t => numeral 10 t
  end.

(* ================================================================== *)
(** ** Dynamic operations on values *)

Fixpoint lookup {A : Type} (k : jsstring) (l : list (jsstring * A)) : option A :=
  match l with
  | [] => None
  | (k', a) :: r => if str_eqb k k' then Some a else lookup k r
  end.

(** ToBoolean *)
Definition truthy (v : value) : bool :=
  match v with
  | VUndefined | VNull => false
  | VBool b => b
  | VNum (Int z) => negb (z =? 0)
  | VNum NaN => false
  | VNum _ => true
  | VStr s => match s with [] => false | _ => true end
  | VArr _ | VObj _ => true
  end.

(** [v[k]] for the property names the sources read.  None of them names a
    property of a built-in prototype, so an object answers from its own
    properties; arrays and strings answer [length] and their indices. *)
Definition get (v : value) (k : jsstring) : Outcome value :=
  match v with
  | VUndefined | VNull => Throw TypeError
  | VObj ps => match lookup k ps with Some x => Ok x | None => Ok VUndefined end
  | VArr l =>
      if str_eqb k (js "length") then Ok (VNum (Int (Z.of_nat (List.length l))))
      else match JSON.array_index k with
           | Some i => Ok (nth (Z.to_nat i) l VUndefined)
           | None => Ok VUndefined
           end
  | VStr s =>
      if str_eqb k (js "length") then Ok (VNum (Int (Z.of_nat (List.length s))))
      else match JSON.array_index k with
           | Some i => match nth_error s (Z.to_nat i) with
                       | Some c => Ok (VStr [c])
                       | None => Ok VUndefined
                       end
           | None => Ok VUndefined
           end
  | _ => Ok VUndefined
  end.

(** [v?.k] *)
Definition get_opt (v : value) (k : jsstring) : value :=
  match get v k with
  | Ok x => x
  | _ => VUndefined
  end.

Definition of_option (o : option jsstring) : value :=
  match o with
  | Some s => VStr s
  | None => VUndefined
  end.

(** An object literal: properties holding [None] are absent. *)
Fixpoint object (fields : list (jsstring * option value)) : list (jsstring * value) :=
  match fields with
  | [] => []
  | (k, Some v) :: r => (k, v) :: object r
  | (_, None) :: r => object r
  end.

(* ================================================================== *)
(** ** Data model ([src/types/index.ts]) *)

Module TokenConfig.
Record t : Type := mk {
  coinType : jsstring;
  decimals : Z;
  name : jsstring;
  symbol : option jsstring
}.
End TokenConfig.

Module SuiConfig.
Record t : Type := mk {
  network : jsstring;
  rpcUrl : option jsstring;
  fullnodeUrl : option jsstring
}.
End SuiConfig.

Module X402Config.
Record t : Type := mk {
  suiConfig : SuiConfig.t;
  tokenConfig : option TokenConfig.t
}.
End X402Config.

Module PaymentRequirement.
Record t : Type := mk {
  scheme : jsstring;
  network : jsstring;
  maxAmountRequired : jsstring;
  resource : jsstring;
  description : option jsstring;
  mimeType : option jsstring;
  payTo : jsstring;
  maxTimeoutSeconds : Z;
  asset : jsstring;
  outputSchema : option value;
  extra : option value
}.

(** The object a requirement is at run time. *)
Definition to_value (r : t) : value :=
  VObj (object
    [(js "scheme", Some (VStr (scheme r)));
     (js "network", Some (VStr (network r)));
     (js "maxAmountRequired", Some (VStr (maxAmountRequired r)));
     (js "resource", Some (VStr (resource r)));
     (js "description", option_map VStr (description r));
     (js "mimeType", option_map VStr (mimeType r));
     (js "payTo", Some (VStr (payTo r)));
     (js "maxTimeoutSeconds", Some (VNum (Int (maxTimeoutSeconds r))));
     (js "asset", Some (VStr (asset r)));
     (js "outputSchema", outputSchema r);
     (js "extra", extra r)]).

Definition string_field (v : value) (k : jsstring) : option jsstring :=
  match get_opt v k with
  | VStr s => Some s
  | _ => None
  end.

Definition optional_string (v : value) (k : jsstring) : option (option jsstring) :=
  match get_opt v k with
  | VStr s => Some (Some s)
  | VUndefined => Some None
  | _ => None
  end.

Definition optional_field (v : value) (k : jsstring) : option value :=
  match get_opt v k with
  | VUndefined => None
  | x => Some x
  end.

(** The cast [as PaymentRequirement] of a value received from the wire:
    defined on objects that carry the fields of the interface. *)
Definition of_value (v : value) : option t :=
  match v with
  | VObj _ =>
      match string_field v (js "scheme"), string_field v (js "network"),
            string_field v (js "maxAmountRequired"), string_field v (js "resource"),
            optional_string v (js "description"), optional_string v (js "mimeType"),
            string_field v (js "payTo"), get_opt v (js "maxTimeoutSeconds"),
            string_field v (js "asset") with
      | Some s, Some n, Some m, Some r, Some d, Some mt, Some p, VNum (Int tmo), Some a =>
          Some (mk s n m r d mt p tmo a
                   (optional_field v (js "outputSchema"))
                   (optional_field v (js "extra")))
      | _, _, _, _, _, _, _, _, _ => None
      end
  | _ => None
  end.
End PaymentRequirement.

Module PaymentPayload.
Record t : Type := mk {
  scheme : jsstring;
  network : jsstring;
  transaction : jsstring;   (* base64 of the transaction bytes *)
  signature : jsstring;     (* base64 of the signature *)
  amount : jsstring;
  payTo : jsstring;
  asset : jsstring
}.

Definition to_value (p : t) : value :=
  VObj [(js "scheme", VStr (scheme p));
        (js "network", VStr (network p));
        (js "transaction", VStr (transaction p));
        (js "signature", VStr (signature p));
        (js "amount", VStr (amount p));
        (js "payTo", VStr (payTo p));
        (js "asset", VStr (asset p))].

(** The cast [: PaymentPayload] of a decoded header. *)
Definition of_value (v : value) : option t :=
  match v with
  | VObj _ =>
      match PaymentRequirement.string_field v (js "scheme"),
            PaymentRequirement.string_field v (js "network"),
            PaymentRequirement.string_field v (js "transaction"),
            PaymentRequirement.string_field v (js "signature"),
            PaymentRequirement.string_field v (js "amount"),
            PaymentRequirement.string_field v (js "payTo"),
            PaymentRequirement.string_field v (js "asset") with
      | Some s, Some n, Some tx, Some sg, Some am, Some p, Some a =>
          Some (mk s n tx sg am p a)
      | _, _, _, _, _, _, _ => None
      end
  | _ => None
  end.

Definition wf (p : t) : Prop :=
  wf_string (scheme p) /\ wf_string (network p) /\ wf_string (transaction p)
  /\ wf_string (signature p) /\ wf_string (amount p) /\ wf_string (payTo p)
  /\ wf_string (asset p).
End PaymentPayload.

Module PaymentResponse.
Record t : Type := mk {
  transactionDigest : jsstring;
  amount : jsstring;
  timestamp : number;
  effects : option value
}.

(** The literal [settlePayment] returns always has the key [effects];
    it holds [undefined] when the ledger reported none. *)
Definition to_value (r : t) : value :=
  VObj [(js "transactionDigest", VStr (transactionDigest r));
        (js "amount", VStr (amount r));
        (js "timestamp", VNum (timestamp r));
        (js "effects", match effects r with Some e => e | None => VUndefined end)].

(** The cast [: PaymentResponse] of a decoded receipt. *)
Definition of_value (v : value) : option t :=
  match v with
  | VObj _ =>
      match PaymentRequirement.string_field v (js "transactionDigest"),
            PaymentRequirement.string_field v (js "amount"),
            get_opt v (js "timestamp") with
      | Some d, Some a, VNum n =>
          Some (mk d a n (PaymentRequirement.optional_field v (js "effects")))
      | _, _, _ => None
      end
  | _ => None
  end.
End PaymentResponse.

Module RouteConfig.
Record t : Type := mk {
  methods : option (list jsstring);
  price : jsstring;
  description : option jsstring
}.
End RouteConfig.

(** [RoutesConfig]: an object used as a map from path to policy. *)
Definition RoutesConfig := list (jsstring * RouteConfig.t).

Module FacilitatorConfig.
Record t : Type := mk {
  url : jsstring;
  timeout : option Z
}.
End FacilitatorConfig.

Module PaywallConfig.
Record t : Type := mk {
  title : option jsstring;
  description : option jsstring;
  logoUrl : option jsstring
}.
End PaywallConfig.

(* ================================================================== *)
(** ** HTTP messages *)

(** A list of headers, each a name and a value: what a [HeadersInit]
    gives, and the entries of a [Headers] object.  Names are header names
    and values header values as [fetch] accepts them. *)
Definition Headers := list (jsstring * jsstring).

(** ASCII lower case, as header names are compared. *)
Definition lower_case (s : jsstring) : jsstring :=
  map (fun c => if (65 <=? c) && (c <=? 90) then c + 32 else c) s.

(** [new Headers(init)]: the entries of [init] in their order, every
    name in lower case. *)
Definition new_Headers (init : Headers) : Headers :=
  map (fun entry => (lower_case (fst entry), snd entry)) init.

Fixpoint headers_delete (name : jsstring) (h : Headers) : Headers :=
  match h with
  | [] => []
  | (n, v) :: r =>
      if str_eqb name n then headers_delete name r else (n, v) :: headers_delete name r
  end.

(** The first entry of that name takes the value and the others of that
    name go; without one, the entry is added at the end. *)
Fixpoint set_entry (name val : jsstring) (h : Headers) : Headers :=
  match h with
  | [] => [(name, val)]
  | (n, v) :: r =>
      if str_eqb name n then (n, val) :: headers_delete name r
      else (n, v) :: set_entry name val r
  end.

(** [headers.set(name, value)] on the entries of a [Headers] object. *)
Definition headers_set (name val : jsstring) (h : Headers) : Headers :=
  set_entry (lower_case name) val h.

Module RequestInit.
Record t : Type := mk {
  method : option jsstring;
  headers : option Headers;
  body : option jsstring;
  timeout : option Z           (* [signal: AbortSignal.timeout(ms)] *)
}.
End RequestInit.

(** A [Response] of the fetch API. *)
Module Response.
Record t : Type := mk {
  status : Z;
  headers : Headers;
  body : jsstring
}.
Definition ok (r : t) : bool := (200 <=? status r) && (status r <=? 299).
End Response.

(** An Express request, as far as the middleware reads it. *)
Module Request.
Record t : Type := mk {
  path : jsstring;
  method : jsstring;
  headers : Headers;
  protocol : jsstring;
  host : option jsstring;       (* [req.get("host")] *)
  originalUrl : jsstring
}.
End Request.

(* ================================================================== *)
(** ** The ledger client's vocabulary *)

Inductive Argument : Type :=
| GasCoin
| ObjectRef (id : jsstring)
| NestedResult (command : nat).

Inductive Command : Type :=
| SplitCoins (coin : Argument) (amounts : list Z)
| MergeCoins (destination : Argument) (sources : list Argument)
| TransferObjects (objects : list Argument) (recipient : jsstring).

(** A [Transaction] under construction. *)
Record Transaction : Type := mkTransaction {
  commands : list Command;
  sender : option jsstring
}.

Record Coin : Type := mkCoin {
  coinObjectId : jsstring;
  balance : jsstring
}.

(** [dryRunResult.effects.status] *)
Record ExecutionStatus : Type := mkStatus {
  status : jsstring;
  error : option jsstring
}.

(** The answer of [executeTransactionBlock]. *)
Record ExecuteResult : Type := mkExecuteResult {
  digest : jsstring;
  effects : value               (* [undefined] when not reported *)
}.

Record SuiSigner : Type := mkSigner {
  address : jsstring;
  keypair : bytes               (* the secret key *)
}.

(* ================================================================== *)
(** ** Effects *)

Inductive Level : Type := LogInfo | LogWarn | LogError.

(** What a run does to the outside, in order. *)
Inductive Event : Type :=
| Console (level : Level) (text : jsstring)
| DryRun (url : jsstring) (tx : bytes)
| Execute (url : jsstring) (tx : bytes) (sig : jsstring)
| GetCoins (url owner coinType : jsstring)
| Build (url : jsstring) (tx : Transaction)
| Sign (signer : jsstring) (tx : bytes)
| HttpFetch (url : jsstring) (init : RequestInit.t)
| Invoke (input : jsstring) (init : option RequestInit.t)
| Handler
| SetHeader (name value : jsstring).

(** The outside world: each party answers a call and moves on.  A built
    transaction is a [Uint8Array]; the keypair signs bytes and answers
    with the serialized signature. *)
Record Env (W : Type) : Type := mkEnv {
  dryRunTransactionBlock : jsstring -> bytes -> W -> Reply ExecutionStatus * W;
  executeTransactionBlock : jsstring -> bytes -> jsstring -> W -> Reply ExecuteResult * W;
  getCoins : jsstring -> jsstring -> jsstring -> W -> Reply (list Coin) * W;
  build : jsstring -> Transaction -> W -> Reply bytes * W;
  sign : bytes -> bytes -> W -> Reply bytes * W;
  fetch : jsstring -> RequestInit.t -> W -> Reply Response.t * W;
  now : W -> Z * W
}.
Arguments dryRunTransactionBlock {W}.
Arguments executeTransactionBlock {W}.
Arguments getCoins {W}.
Arguments build {W}.
Arguments sign {W}.
Arguments fetch {W}.
Arguments now {W}.

(** A computation: from a world to an outcome, the world after, and the
    events of the run. *)
Definition M (W A : Type) : Type := W -> Outcome A * W * list Event.

Definition ret {W A} (a : A) : M W A := fun w => (Ok a, w, []).

Definition throw {W A} (e : Error) : M W A := fun w => (Throw e, w, []).

Definition stuck {W A} : M W A := fun w => (Stuck, w, []).

Definition bind {W A B} (m : M W A) (k : A -> M W B) : M W B :=
  fun w =>
    match m w with
    | (Ok a, w1, t1) => let '(r, w2, t2) := k a w1 in (r, w2, t1 ++ t2)
    | (Throw e, w1, t1) => (Throw e, w1, t1)
    | (Stuck, w1, t1) => (Stuck, w1, t1)
    end.

(** [try { m } catch (e) { h e }] *)
Definition try_catch {W A} (m : M W A) (h : Error -> M W A) : M W A :=
  fun w =>
    match m w with
    | (Throw e, w1, t1) => let '(r, w2, t2) := h e w1 in (r, w2, t1 ++ t2)
    | other => other
    end.

Definition emit {W} (e : Event) : M W unit := fun w => (Ok tt, w, [e]).

Definition lift {W A} (o : Outcome A) : M W A := fun w => (o, w, []).

(** Calling an external party. *)
Definition call {W A} (e : Event) (f : W -> Reply A * W) : M W A :=
  fun w =>
    match f w with
    | (Returns a, w1) => (Ok a, w1, [e])
    | (Raises x, w1) => (Throw x, w1, [e])
    end.

Declare Scope m_scope.
Delimit Scope m_scope with M.
Notation "x <- m ;; k" := (bind m (fun x => k))
  (at level 61, m at next level, right associativity) : m_scope.
Notation "m ;; k" := (bind m (fun _ => k))
  (at level 61, right associativity) : m_scope.

(** Console calls are recorded by their first argument, the label. *)
Definition console_log {W} (s : string) : M W unit := emit (Console LogInfo (js s)).
Definition console_warn {W} (s : string) : M W unit := emit (Console LogWarn (js s)).
Definition console_error {W} (s : string) : M W unit := emit (Console LogError (js s)).

Definition outcome {W A} (r : Outcome A * W * list Event) : Outcome A := fst (fst r).
Definition world_after {W A} (r : Outcome A * W * list Event) : W := snd (fst r).
Definition events {W A} (r : Outcome A * W * list Event) : list Event := snd r.

(** ToString, as template literals apply it. *)
Fixpoint to_string (v : value) : jsstring :=
  match v with
  | VUndefined => js "undefined"
  | VNull => js "null"
  | VBool true => js "true"
  | VBool false => js "false"
  | VNum (Int z) => decimal_of_Z z
  | VNum NaN => js "NaN"
  | VNum PosInfinity => js "Infinity"
  | VNum NegInfinity => js "-Infinity"
  | VStr s => s
  | VArr l =>
      join [44] (map (fun x => match x with
                               | VUndefined | VNull => []
                               | _ => to_string x
                               end) l)
  | VObj _ => js "[object Object]"
  end.

(** Whether a value can be converted to a string: an object whose own
    member [toString] hides the built-in method cannot (its members are
    data, never functions), and an array cannot when one of its elements
    cannot. *)
Fixpoint convertible (v : value) : bool :=
  match v with
  | VObj ps => match lookup (js "toString") ps with
               | Some _ => false
               | None => true
               end
  | VArr l => forallb convertible l
  | _ => true
  end.

(** ToString, where a failure matters. *)
Definition ToString (v : value) : Outcome jsstring :=
  if convertible v then Ok (to_string v) else Throw TypeError.

(** [a === b].  Objects and arrays are equal to themselves only; the
    sources compare members of two different objects. *)
Definition strict_eq (a b : value) : bool :=
  match a, b with
  | VUndefined, VUndefined => true
  | VNull, VNull => true
  | VBool x, VBool y => Bool.eqb x y
  | VNum (Int x), VNum (Int y) => x =? y
  | VNum PosInfinity, VNum PosInfinity => true
  | VNum NegInfinity, VNum NegInfinity => true
  | VStr x, VStr y => str_eqb x y
  | _, _ => false
  end.

(* ================================================================== *)
(** ** The ledger adapter ([src/x402/schemes/exact/sui]) *)

(** [v === s] for a string [s]. *)
Definition is_string (s : jsstring) (v : value) : bool :=
  match v with
  | VStr t => str_eqb t s
  | _ => false
  end.

(** The transport form of a value: base64 of its UTF-8 JSON,
    [Buffer.from(JSON.stringify(v)).toString("base64")]. *)
Definition encode_header (v : value) : jsstring :=
  Base64.encode (Utf8.encode (JSON.stringify v)).

(** [JSON.parse(Buffer.from(header, "base64").toString("utf-8"))] *)
Definition decode_header (header : jsstring) : Outcome value :=
  JSON.parse (Utf8.decode (Base64.decode header)).

(** [toB64] and [fromB64] of [@mysten/bcs]: [btoa] and [atob]. *)
Definition toB64 (bs : bytes) : jsstring := Base64.encode bs.

Definition fromB64 (s : jsstring) : Outcome bytes :=
  match Base64.forgiving_decode s with
  | Some bs => Ok bs
  | None => Throw DOMException
  end.

(** [keypair.signTransaction(txBytes)]: the signature the keypair makes,
    serialized, comes back as base64 text. *)
Definition signTransaction {W} (env : Env W) (keypair txBytes : bytes)
  : W -> Reply jsstring * W :=
  fun w =>
    match sign env keypair txBytes w with
    | (Returns serialized, w') => (Returns (toB64 serialized), w')
    | (Raises e, w') => (Raises e, w')
    end.

(** What [toB64] reads when it is handed base64 text in place of bytes:
    the elements of a string are its characters, and a character taken as
    a number is its digit, or NaN, which counts as 0. *)
Definition elements_of_string (s : jsstring) : bytes :=
  map (fun c => if is_digit c then c - 48 else 0) s.

(** The largest amount a [u64] holds. *)
Definition max_u64 : Z := 18446744073709551615.

(** [tx.pure.u64(amount)], through which [tx.splitCoins] passes an amount
    given as a BigInt. *)
Definition pure_u64 (amount : Z) : Outcome Z :=
  if (0 <=? amount) && (amount <=? max_u64) then Ok amount else Throw TypeError.

(** [getFullnodeUrl] of [@mysten/sui/client]. *)
Definition getFullnodeUrl (networkName : jsstring) : Outcome jsstring :=
  if str_eqb networkName (js "mainnet") then Ok (js "https://fullnode.mainnet.sui.io:443")
  else if str_eqb networkName (js "testnet") then Ok (js "https://fullnode.testnet.sui.io:443")
  else if str_eqb networkName (js "devnet") then Ok (js "https://fullnode.devnet.sui.io:443")
  else if str_eqb networkName (js "localnet") then Ok (js "http://127.0.0.1:9000")
  else Throw (Err (js "Unknown network: " ++ networkName)).

(** A [SuiClient] is the endpoint it talks to. *)
Definition getSuiClient (network : jsstring) (rpcUrl : option jsstring) : Outcome jsstring :=
  match rpcUrl with
  | Some (c :: u) => Ok (c :: u)
  | _ => getFullnodeUrl (replace_first (js "sui-") [] network)
  end.

Definition is_sui_network (n : jsstring) : Prop :=
  n = js "sui-localnet" \/ n = js "sui-devnet" \/ n = js "sui-testnet" \/ n = js "sui-mainnet".

(** The loop of [createAndSignPayment] that picks coins until their
    balances cover the amount. *)
Fixpoint select_coins (coins : list Coin) (amount totalAmount : Z)
         (selectedCoins : list jsstring) : Outcome (Z * list jsstring) :=
  match coins with
  | [] => Ok (totalAmount, selectedCoins)
  | coin :: rest =>
      match BigInt (balance coin) with
      | Ok b =>
          let totalAmount' := totalAmount + b in
          let selectedCoins' := selectedCoins ++ [coinObjectId coin] in
          if totalAmount' >=? amount then Ok (totalAmount', selectedCoins')
          else select_coins rest amount totalAmount' selectedCoins'
      | Throw e => Throw e
      | Stuck => Stuck
      end
  end.

Section Ledger.
Context {W : Type} (env : Env W).
Local Open Scope m_scope.

Definition verifyPayment (paymentPayload : PaymentPayload.t)
           (paymentRequirement : PaymentRequirement.t)
           (rpcUrl : option jsstring) : M W bool :=
  try_catch
    (if negb (str_eqb (PaymentPayload.scheme paymentPayload) (js "exact")) then
       console_error "Invalid payment scheme:" ;; ret false
     else if negb (str_eqb (PaymentPayload.network paymentPayload)
                           (PaymentRequirement.network paymentRequirement)) then
       console_error "Network mismatch:" ;; ret false
     else if negb (str_eqb (PaymentPayload.payTo paymentPayload)
                           (PaymentRequirement.payTo paymentRequirement)) then
       console_error "PayTo address mismatch:" ;; ret false
     else if negb (str_eqb (PaymentPayload.asset paymentPayload)
                           (PaymentRequirement.asset paymentRequirement)) then
       console_error "Asset type mismatch:" ;; ret false
     else
       paidAmount <- lift (BigInt (PaymentPayload.amount paymentPayload)) ;;
       requiredAmount <- lift (BigInt (PaymentRequirement.maxAmountRequired paymentRequirement)) ;;
       if paidAmount <? requiredAmount then
         console_error "Insufficient payment amount:" ;; ret false
       else
         client <- lift (getSuiClient (PaymentPayload.network paymentPayload) rpcUrl) ;;
         txBytes <- lift (fromB64 (PaymentPayload.transaction paymentPayload)) ;;
         dryRunResult <- call (DryRun client txBytes)
                              (dryRunTransactionBlock env client txBytes) ;;
         if negb (str_eqb (status dryRunResult) (js "success")) then
           console_error "Transaction dry run failed:" ;; ret false
         else ret true)
    (fun _ => console_error "Payment verification failed:" ;; ret false).

Definition settlePayment (paymentPayload : PaymentPayload.t)
           (rpcUrl : option jsstring) : M W PaymentResponse.t :=
  client <- lift (getSuiClient (PaymentPayload.network paymentPayload) rpcUrl) ;;
  try_catch
    (txBytes <- lift (fromB64 (PaymentPayload.transaction paymentPayload)) ;;
     result <- call (Execute client txBytes (PaymentPayload.signature paymentPayload))
                    (executeTransactionBlock env client txBytes
                       (PaymentPayload.signature paymentPayload)) ;;
     if negb (is_string (js "success")
                (get_opt (get_opt (effects result) (js "status")) (js "status"))) then
       let reason := get_opt (get_opt (effects result) (js "status")) (js "error") in
       throw (Err (js "Transaction failed: "
                   ++ (if truthy reason then to_string reason else js "Unknown error")))
     else
       t <- (fun w => let (t, w') := now env w in (Ok t, w', [])) ;;
       ret (PaymentResponse.mk (digest result)
              (PaymentPayload.amount paymentPayload)
              (Int t)
              (match effects result with VUndefined => None | e => Some e end)))
    (fun e => console_error "Payment settlement failed:" ;; throw e).

Definition createAndSignPayment (paymentRequirement : PaymentRequirement.t)
           (signer : SuiSigner) (rpcUrl : option jsstring) : M W PaymentPayload.t :=
  client <- lift (getSuiClient (PaymentRequirement.network paymentRequirement) rpcUrl) ;;
  try_catch
    (amount <- lift (BigInt (PaymentRequirement.maxAmountRequired paymentRequirement)) ;;
     cmds <-
       (if str_eqb (PaymentRequirement.asset paymentRequirement) (js "0x2::sui::SUI") then
          split <- lift (pure_u64 amount) ;;
          ret [SplitCoins GasCoin [split];
               TransferObjects [NestedResult 0] (PaymentRequirement.payTo paymentRequirement)]
        else
          coins <- call (GetCoins client (address signer)
                                  (PaymentRequirement.asset paymentRequirement))
                        (getCoins env client (address signer)
                                  (PaymentRequirement.asset paymentRequirement)) ;;
          match coins with
          | [] => throw (Err (js "No coins found for type "
                              ++ PaymentRequirement.asset paymentRequirement))
          | _ =>
              sel <- lift (select_coins coins amount 0 []) ;;
              let '(totalAmount, selectedCoins) := sel in
              if totalAmount <? amount then
                throw (Err (js "Insufficient balance. Required: " ++ decimal_of_Z amount
                            ++ js ", Available: " ++ decimal_of_Z totalAmount))
              else
                match selectedCoins with
                | [] => throw TypeError
                | first :: nil =>
                    split <- lift (pure_u64 amount) ;;
                    ret [SplitCoins (ObjectRef first) [split];
                         TransferObjects [NestedResult 0]
                           (PaymentRequirement.payTo paymentRequirement)]
                | first :: others =>
                    split <- lift (pure_u64 amount) ;;
                    ret [MergeCoins (ObjectRef first) (map ObjectRef others);
                         SplitCoins (ObjectRef first) [split];
                         TransferObjects [NestedResult 1]
                           (PaymentRequirement.payTo paymentRequirement)]
                end
          end) ;;
     let tx := mkTransaction cmds (Some (address signer)) in
     txBytes <- call (Build client tx) (build env client tx) ;;
     signature <- call (Sign (address signer) txBytes)
                       (signTransaction env (keypair signer) txBytes) ;;
     ret (PaymentPayload.mk (js "exact")
            (PaymentRequirement.network paymentRequirement)
            (toB64 txBytes)
            (toB64 (elements_of_string signature))
            (PaymentRequirement.maxAmountRequired paymentRequirement)
            (PaymentRequirement.payTo paymentRequirement)
            (PaymentRequirement.asset paymentRequirement)))
    (fun e => console_error "Failed to create and sign payment:" ;; throw e).

Definition createPaymentHeader (paymentRequirement : PaymentRequirement.t)
           (signer : SuiSigner) (rpcUrl : option jsstring) : M W jsstring :=
  payment <- createAndSignPayment paymentRequirement signer rpcUrl ;;
  ret (encode_header (PaymentPayload.to_value payment)).

End Ledger.

(* ================================================================== *)
(** ** The ledger adapter on values of any shape *)

(** TypeScript's types are erased when the program runs.  The decoded
    [x-payment] header and the body of a request to the facilitator reach
    [verifyPayment] and [settlePayment] as JSON parsing left them, of
    whatever shape; this is what the two functions do with them. *)

(** [BigInt(v)] *)
Definition BigInt_of_value (v : value) : Outcome Z :=
  match v with
  | VUndefined | VNull => Throw TypeError
  | VBool b => Ok (if b then 1 else 0)
  | VNum (Int z) => Ok z
  | VNum _ => Throw RangeError
  | VStr s => BigInt s
  | VArr _ | VObj _ =>
      match ToString v with
      | Ok s => BigInt s
      | Throw e => Throw e
      | Stuck => Stuck
      end
  end.

(** [fromB64(v)]: [atob] converts its argument to a string. *)
Definition fromB64_of_value (v : value) : Outcome bytes :=
  match ToString v with
  | Ok s => fromB64 s
  | Throw e => Throw e
  | Stuck => Stuck
  end.

(** [getSuiClient(v, rpcUrl)]: without an endpoint, [v.replace] is called,
    which only a string has. *)
Definition getSuiClient_of_value (network : value) (rpcUrl : option jsstring)
  : Outcome jsstring :=
  match rpcUrl with
  | Some (c :: u) => Ok (c :: u)
  | _ => match network with
         | VStr s => getFullnodeUrl (replace_first (js "sui-") [] s)
         | _ => Throw TypeError
         end
  end.

Module Untyped.
Section Ledger.
Context {W : Type} (env : Env W).
Local Open Scope m_scope.

Definition verifyPayment (paymentPayload paymentRequirement : value)
         (rpcUrl : option jsstring) : M W bool :=
try_catch
  (scheme <- lift (get paymentPayload (js "scheme")) ;;
   if negb (is_string (js "exact") scheme) then
     console_error "Invalid payment scheme:" ;; ret false
   else
     network <- lift (get paymentPayload (js "network")) ;;
     requiredNetwork <- lift (get paymentRequirement (js "network")) ;;
     if negb (strict_eq network requiredNetwork) then
       console_error "Network mismatch:" ;; ret false
     else
       payTo <- lift (get paymentPayload (js "payTo")) ;;
       requiredPayTo <- lift (get paymentRequirement (js "payTo")) ;;
       if negb (strict_eq payTo requiredPayTo) then
         console_error "PayTo address mismatch:" ;; ret false
       else
         asset <- lift (get paymentPayload (js "asset")) ;;
         requiredAsset <- lift (get paymentRequirement (js "asset")) ;;
         if negb (strict_eq asset requiredAsset) then
           console_error "Asset type mismatch:" ;; ret false
         else
           amount <- lift (get paymentPayload (js "amount")) ;;
           paidAmount <- lift (BigInt_of_value amount) ;;
           maxAmountRequired <- lift (get paymentRequirement (js "maxAmountRequired")) ;;
           requiredAmount <- lift (BigInt_of_value maxAmountRequired) ;;
           if paidAmount <? requiredAmount then
             console_error "Insufficient payment amount:" ;; ret false
           else
             client <- lift (getSuiClient_of_value network rpcUrl) ;;
             transaction <- lift (get paymentPayload (js "transaction")) ;;
             txBytes <- lift (fromB64_of_value transaction) ;;
             dryRunResult <- call (DryRun client txBytes)
                                  (dryRunTransactionBlock env client txBytes) ;;
             if negb (str_eqb (status dryRunResult) (js "success")) then
               console_error "Transaction dry run failed:" ;; ret false
             else ret true)
  (fun _ => console_error "Payment verification failed:" ;; ret false).

(** The receipt is the object literal of the source; its [amount] is
  the payload's, whatever it is.  What the ledger client makes of a
  signature that is no string is not modelled. *)
Definition settlePayment (paymentPayload : value) (rpcUrl : option jsstring)
: M W value :=
network <- lift (get paymentPayload (js "network")) ;;
client <- lift (getSuiClient_of_value network rpcUrl) ;;
try_catch
  (transaction <- lift (get paymentPayload (js "transaction")) ;;
   txBytes <- lift (fromB64_of_value transaction) ;;
   signature <- lift (get paymentPayload (js "signature")) ;;
   match signature with
   | VStr sig =>
       result <- call (Execute client txBytes sig)
                      (executeTransactionBlock env client txBytes sig) ;;
       if negb (is_string (js "success")
                  (get_opt (get_opt (effects result) (js "status")) (js "status"))) then
         let reason := get_opt (get_opt (effects result) (js "status")) (js "error") in
         throw (Err (js "Transaction failed: "
                     ++ (if truthy reason then to_string reason else js "Unknown error")))
       else
         amount <- lift (get paymentPayload (js "amount")) ;;
         t <- (fun w => let (t, w') := now env w in (Ok t, w', [])) ;;
         ret (VObj [(js "transactionDigest", VStr (digest result));
                    (js "amount", amount);
                    (js "timestamp", VNum (Int t));
                    (js "effects", effects result)])
   | _ => stuck
   end)
  (fun e => console_error "Payment settlement failed:" ;; throw e).

End Ledger.
End Untyped.

(* ================================================================== *)
(** ** The resource-server interceptor
       ([src/x402/middleware/paymentMiddleware.ts]) *)

Definition DEFAULT_TOKEN : TokenConfig.t :=
  TokenConfig.mk (js "0x2::sui::SUI") 9 (js "SUI") (Some (js "SUI")).

(** How the downstream handler answered: through [res.send] / [res.json]
    (the two functions the middleware wraps) or past them, with which
    status code, and what it sent. *)
Record Handled : Type := mkHandled {
  viaSend : bool;
  statusCode : Z;
  sent : jsstring
}.

(** What the middleware made of a request. *)
Inductive Verdict : Type :=
| Next (h : Handled)                  (* [return next()]: no payment logic *)
| Json (code : Z) (body : value)      (* [res.status(code).json(body)] *)
| Delivered (h : Handled).            (* verified, then [next()] *)

(** A callback that runs detached from the request: whatever becomes of
    it, nothing flows back. *)
Definition detached {W A} (m : M W A) : M W unit :=
  fun w => let '(_, w', t) := m w in (Ok tt, w', t).

(** [a || b] on strings. *)
Definition or_else (a : option jsstring) (b : jsstring) : jsstring :=
  match a with
  | Some (c :: r) => c :: r
  | _ => b
  end.

Definition verification_failed : value :=
  VObj [(js "x402Version", VNum (Int 1));
        (js "error", VStr (js "Payment verification failed"))].

Definition invalid_format : value :=
  VObj [(js "x402Version", VNum (Int 1));
        (js "error", VStr (js "Invalid payment format"))].

Section Middleware.
Context {W : Type} (env : Env W).
Local Open Scope m_scope.

Variable payTo : jsstring.
Variable routes : RoutesConfig.
Variable facilitator : option FacilitatorConfig.t.
Variable paywall : option PaywallConfig.t.
Variable x402Config : option X402Config.t.

Definition tokenConfig : TokenConfig.t :=
  match x402Config with
  | Some c => match X402Config.tokenConfig c with
              | Some t => t
              | None => DEFAULT_TOKEN
              end
  | None => DEFAULT_TOKEN
  end.

Definition network : jsstring :=
  or_else (option_map (fun c => SuiConfig.network (X402Config.suiConfig c)) x402Config)
          (js "sui-localnet").

Definition rpcUrl : option jsstring :=
  match x402Config with
  | Some c => SuiConfig.rpcUrl (X402Config.suiConfig c)
  | None => None
  end.

(** [`${req.protocol}://${req.get("host")}${req.originalUrl}`] *)
Definition resource_of (req : Request.t) : jsstring :=
  Request.protocol req ++ js "://"
  ++ match Request.host req with Some h => h | None => js "undefined" end
  ++ Request.originalUrl req.

(** The requirement of the 402 challenge. *)
Definition challenge_requirement (req : Request.t) (routeConfig : RouteConfig.t)
  : PaymentRequirement.t :=
  PaymentRequirement.mk
    (js "exact")
    network
    (RouteConfig.price routeConfig)
    (resource_of req)
    (Some (or_else (RouteConfig.description routeConfig) []))
    (Some [])
    payTo
    60
    (TokenConfig.coinType tokenConfig)
    (Some (VObj [(js "input",
                  VObj [(js "type", VStr (js "http"));
                        (js "method", VStr (Request.method req));
                        (js "discoverable", VBool true)])]))
    (match facilitator with
     | Some _ => Some (VObj [(js "feePayer", VStr (js "facilitator"))])
     | None => None
     end).

(** The requirement a payment is verified against. *)
Definition expected_requirement (req : Request.t) (routeConfig : RouteConfig.t)
  : PaymentRequirement.t :=
  PaymentRequirement.mk
    (js "exact")
    network
    (RouteConfig.price routeConfig)
    (resource_of req)
    None None
    payTo
    60
    (TokenConfig.coinType tokenConfig)
    None None.

Definition challenge (req : Request.t) (routeConfig : RouteConfig.t) : value :=
  VObj [(js "x402Version", VNum (Int 1));
        (js "error", VStr (js "X-PAYMENT header is required"));
        (js "accepts",
         VArr [PaymentRequirement.to_value (challenge_requirement req routeConfig)])].

Definition facilitator_init (f : FacilitatorConfig.t) (body : value) : RequestInit.t :=
  RequestInit.mk
    (Some (js "POST"))
    (Some [(js "Content-Type", js "application/json")])
    (Some (JSON.stringify body))
    (Some (match FacilitatorConfig.timeout f with
           | Some 0 | None => 30000
           | Some t => t
           end)).

(** [res.setHeader] once the response has been sent: Node raises
    ERR_HTTP_HEADERS_SENT, and the header reaches nobody. *)
Definition setHeader_after_finish (name val : jsstring) : M W unit :=
  emit (SetHeader name val) ;;
  throw (Err (js "Cannot set headers after they are sent to the client")).

(** The listener of the response's [finish] event. *)
Definition on_finish (paymentPayload : value) (h : Handled) : M W unit :=
  if viaSend h && (statusCode h <? 400) then
    try_catch
      (match facilitator with
       | Some f =>
           let init := facilitator_init f
                         (VObj [(js "paymentPayload", paymentPayload)]) in
           settleResponse <- call (HttpFetch (FacilitatorConfig.url f ++ js "/settle") init)
                                  (fetch env (FacilitatorConfig.url f ++ js "/settle") init) ;;
           if Response.ok settleResponse then
             paymentResponse <- lift (JSON.parse (Response.body settleResponse)) ;;
             setHeader_after_finish (js "x-payment-response")
                                    (encode_header paymentResponse) ;;
             console_log "Payment settled:"
           else console_error "Settlement failed:"
       | None => ret tt
       end)
      (fun _ => console_error "Payment settlement error:")
  else ret tt.

Definition paymentMiddleware (req : Request.t)
           (next : option value -> W -> Handled * W) : M W Verdict :=
  let call_next (attached : option value) : M W Handled :=
    fun w => let (h, w') := next attached w in (Ok h, w', [Handler]) in
  match lookup (Request.path req) routes with
  | None => h <- call_next None ;; ret (Next h)
  | Some routeConfig =>
      let methods := match RouteConfig.methods routeConfig with
                     | Some ms => ms
                     | None => [js "GET"]
                     end in
      if negb (existsb (str_eqb (Request.method req)) methods) then
        h <- call_next None ;; ret (Next h)
      else
        match lookup (js "x-payment") (Request.headers req) with
        | None | Some [] => ret (Json 402 (challenge req routeConfig))
        | Some paymentHeader =>
            try_catch
              (paymentPayload <- lift (decode_header paymentHeader) ;;
               let paymentRequirement := expected_requirement req routeConfig in
               isValid <-
                 match facilitator with
                 | Some f =>
                     let init := facilitator_init f
                                   (VObj [(js "paymentPayload", paymentPayload);
                                          (js "paymentRequirement",
                                           PaymentRequirement.to_value paymentRequirement)]) in
                     verifyResponse <-
                       call (HttpFetch (FacilitatorConfig.url f ++ js "/verify") init)
                            (fetch env (FacilitatorConfig.url f ++ js "/verify") init) ;;
                     if Response.ok verifyResponse then ret true
                     else console_error "Facilitator verification failed:" ;; ret false
                 | None =>
                     Untyped.verifyPayment env paymentPayload
                       (PaymentRequirement.to_value paymentRequirement) rpcUrl
                 end ;;
               if negb isValid then ret (Json 402 verification_failed)
               else
                 h <- call_next (Some paymentPayload) ;;
                 detached (on_finish paymentPayload h) ;;
                 ret (Delivered h))
              (fun _ =>
                 console_error "Payment processing error:" ;;
                 ret (Json 402 invalid_format))
        end
  end.

End Middleware.

(* ================================================================== *)
(** ** The payment-aware transport ([src/x402-fetch]) *)

Section Transport.
Context {W : Type} (env : Env W).
Local Open Scope m_scope.

Definition decodeXPaymentRequired (header : jsstring) : M W value :=
  try_catch
    (parsed <- lift (decode_header header) ;;
     accepts <- lift (get parsed (js "accepts")) ;;
     ret (if truthy accepts then accepts else VArr [parsed]))
    (fun _ =>
       console_error "Failed to decode x-payment-required header:" ;;
       throw (Err (js "Invalid payment required header format"))).

Definition decodeXPaymentResponse (header : jsstring) : M W value :=
  try_catch
    (lift (decode_header header))
    (fun _ =>
       console_error "Failed to decode x-payment-response header:" ;;
       throw (Err (js "Invalid payment response header format"))).

(** From the 402 response to the value that is selected, before
    anything is made of it.  The caller's selector is a function like
    any other: it may throw and it may act on the world. *)
Definition select_value (selector : option (value -> M W value))
           (response : Response.t) : M W value :=
  match lookup (js "x-payment-required") (Response.headers response) with
  | None | Some [] =>
      throw (Err (js "402 status but no x-payment-required header found"))
  | Some paymentRequiredHeader =>
      requirements <- decodeXPaymentRequired paymentRequiredHeader ;;
      len <- lift (get requirements (js "length")) ;;
      match len with
      | VNum (Int 0) => throw (Err (js "No payment requirements provided"))
      | _ =>
          selectedRequirement <-
            match selector with
            | Some select => select requirements
            | None => lift (get requirements (js "0"))
            end ;;
          if negb (truthy selectedRequirement) then
            throw (Err (js "No suitable payment requirement found"))
          else ret selectedRequirement
      end
  end.

Variable fetchFn : jsstring -> option RequestInit.t -> M W Response.t.
Variable signer : SuiSigner.
Variable maxValue : option Z.
Variable paymentRequirementsSelector : option (value -> M W value).
Variable config : option X402Config.t.

(** A call of the wrapped function, recorded. *)
Definition invoke (input : jsstring) (init : option RequestInit.t) : M W Response.t :=
  emit (Invoke input init) ;; fetchFn input init.

(** [{ ...init, headers: newHeaders }] *)
Definition with_headers (init : option RequestInit.t) (h : Headers) : RequestInit.t :=
  match init with
  | Some i => RequestInit.mk (RequestInit.method i) (Some h)
                             (RequestInit.body i) (RequestInit.timeout i)
  | None => RequestInit.mk None (Some h) None None
  end.

Definition over_budget (requiredAmount maxValue : Z) : Error :=
  Err (js "Payment amount (" ++ decimal_of_Z requiredAmount
       ++ js ") exceeds maximum allowed value (" ++ decimal_of_Z maxValue ++ js ")").

(** The selected value is used as a [PaymentRequirement] from here on. *)
Definition as_requirement (selectedRequirement : value) : M W PaymentRequirement.t :=
  match PaymentRequirement.of_value selectedRequirement with
  | Some selected => ret selected
  | None => stuck
  end.

(** From the 402 response to the requirement to pay. *)
Definition select_requirement (response : Response.t) : M W PaymentRequirement.t :=
  selectedRequirement <- select_value paymentRequirementsSelector response ;;
  as_requirement selectedRequirement.

(** The maximum value limit. *)
Definition check_budget (selected : PaymentRequirement.t) : M W unit :=
  match maxValue with
  | Some limit =>
      requiredAmount <- lift (BigInt (PaymentRequirement.maxAmountRequired selected)) ;;
      if requiredAmount >? limit
      then throw (over_budget requiredAmount limit)
      else ret tt
  | None => ret tt
  end.

(** The payment header is created and the request is sent again. *)
Definition pay_and_retry (selected : PaymentRequirement.t)
           (input : jsstring) (init : option RequestInit.t) : M W Response.t :=
  emit (Console LogInfo
          (js "Creating payment: "
           ++ PaymentRequirement.maxAmountRequired selected
           ++ js " " ++ PaymentRequirement.asset selected)) ;;
  paymentHeader <-
    createPaymentHeader env selected signer
      (match config with
       | Some c => SuiConfig.rpcUrl (X402Config.suiConfig c)
       | None => None
       end) ;;
  let newHeaders :=
    headers_set (js "x-payment") paymentHeader
      (new_Headers
         (match init with
          | Some i => match RequestInit.headers i with
                      | Some h => h
                      | None => []
                      end
          | None => []
          end)) in
  response <- invoke input (Some (with_headers init newHeaders)) ;;
  match lookup (js "x-payment-response") (Response.headers response) with
  | None | Some [] => ret tt
  | Some paymentResponseHeader =>
      try_catch
        (paymentResponse <- decodeXPaymentResponse paymentResponseHeader ;;
         digest <- lift (get paymentResponse (js "transactionDigest")) ;;
         emit (Console LogInfo (js "Payment successful: " ++ to_string digest)))
        (fun _ => console_warn "Failed to decode payment response:")
  end ;;
  ret response.

(** The function [wrapFetchWithPayment] returns; the three steps above
    are the body of its [if (response.status === 402)]. *)
Definition wrapFetchWithPayment (input : jsstring) (init : option RequestInit.t)
  : M W Response.t :=
  response <- invoke input init ;;
  if Response.status response =? 402 then
    selected <- select_requirement response ;;
    check_budget selected ;;
    pay_and_retry selected input init
  else ret response.

End Transport.

(* ================================================================== *)
(** ** Client and server put together *)

(** The HTTP exchange between a [fetch] call and an Express application
    that mounts the middleware in front of its route handlers.  The URL
    is split into protocol, host and the rest; a middleware verdict
    becomes the response the client sees.  [res.json] sets the content
    type and no header of the payment protocol. *)
Fixpoint split_at (sep s : jsstring) (fuel : nat) : option (jsstring * jsstring) :=
  if starts_with sep s then Some ([], skipn (List.length sep) s)
  else match fuel, s with
       | S f, c :: r =>
           match split_at sep r f with
           | Some (a, b) => Some (c :: a, b)
           | None => None
           end
       | _, _ => None
       end.

Fixpoint take_until (stop : Z -> bool) (s : jsstring) : jsstring * jsstring :=
  match s with
  | [] => ([], [])
  | c :: r => if stop c then ([], s)
              else let (a, b) := take_until stop r in (c :: a, b)
  end.

Definition request_of (input : jsstring) (init : option RequestInit.t) : option Request.t :=
  match split_at (js "://") input (List.length input) with
  | Some (protocol, rest) =>
      let (host, originalUrl) := take_until (Z.eqb 47) rest in
      let (path, _) := take_until (Z.eqb 63) originalUrl in
      Some (Request.mk
              (match path with [] => [47] | _ => path end)
              (match init with
               | Some i => match RequestInit.method i with Some m => m | None => js "GET" end
               | None => js "GET"
               end)
              (match init with
               | Some i => match RequestInit.headers i with Some h => h | None => [] end
               | None => []
               end)
              protocol
              (Some host)
              (match originalUrl with [] => [47] | _ => originalUrl end))
  | None => None
  end.

Definition response_of (v : Verdict) : Response.t :=
  match v with
  | Next h | Delivered h => Response.mk (statusCode h) [] (sent h)
  | Json code body =>
      Response.mk code
        [(js "content-type", js "application/json; charset=utf-8")]
        (JSON.stringify body)
  end.

Section Composition.
Context {W : Type} (env : Env W).
Local Open Scope m_scope.

(** The server seen from the client: a function [fetch] can stand for. *)
Definition server (payTo : jsstring) (routes : RoutesConfig)
           (facilitator : option FacilitatorConfig.t)
           (x402Config : option X402Config.t)
           (handler : Request.t -> option value -> W -> Handled * W)
           (input : jsstring) (init : option RequestInit.t) : M W Response.t :=
  match request_of input init with
  | Some req =>
      v <- paymentMiddleware env payTo routes facilitator x402Config req (handler req) ;;
      ret (response_of v)
  | None => throw TypeError
  end.

End Composition.

(* ================================================================== *)
(** ** The facilitator service ([src/x402/facilitator/index.ts]) *)

(** What an endpoint answers: [res.status(code).json(body)], where
    [res.json(body)] alone has the status 200.  The answer of a catch
    block, [res.status(code).json({ ..., error: error.message })], is kept
    as the status and the error that was caught. *)
Inductive Answer : Type :=
| Answered (code : Z) (body : value)
| Failed (code : Z) (e : Error).

Definition health_body : value :=
  VObj [(js "status", VStr (js "ok"));
        (js "service", VStr (js "x402-facilitator-sui"))].

Definition missing_verify_fields : value :=
  VObj [(js "valid", VBool false);
        (js "error", VStr (js "Missing paymentPayload or paymentRequirement"))].

Definition verify_refused : value :=
  VObj [(js "valid", VBool false);
        (js "error", VStr (js "Payment verification failed"))].

Definition missing_settle_field : value :=
  VObj [(js "error", VStr (js "Missing paymentPayload"))].

(** [createFacilitatorServer(port, rpcUrl)]: the handlers of the routes of
    the application it builds.  [body] is [req.body] as [express.json()]
    left it. *)
Section createFacilitatorServer.
Context {W : Type} (env : Env W).
Local Open Scope m_scope.

Variable rpcUrl : option jsstring.

(** [app.get("/health", ...)] *)
Definition health_endpoint : M W Answer := ret (Answered 200 health_body).

(** [app.post("/verify", ...)] *)
Definition verify_endpoint (body : value) : M W Answer :=
  try_catch
    (paymentPayload <- lift (get body (js "paymentPayload")) ;;
     paymentRequirement <- lift (get body (js "paymentRequirement")) ;;
     if negb (truthy paymentPayload) || negb (truthy paymentRequirement) then
       ret (Answered 400 missing_verify_fields)
     else
       isValid <- Untyped.verifyPayment env paymentPayload paymentRequirement rpcUrl ;;
       if isValid then ret (Answered 200 (VObj [(js "valid", VBool true)]))
       else ret (Answered 400 verify_refused))
    (fun e => console_error "Verify error:" ;; ret (Failed 500 e)).

(** [app.post("/settle", ...)] *)
Definition settle_endpoint (body : value) : M W Answer :=
  try_catch
    (paymentPayload <- lift (get body (js "paymentPayload")) ;;
     if negb (truthy paymentPayload) then
       ret (Answered 400 missing_settle_field)
     else
       paymentResponse <- Untyped.settlePayment env paymentPayload rpcUrl ;;
       ret (Answered 200 paymentResponse))
    (fun e => console_error "Settle error:" ;; ret (Failed 500 e)).

End createFacilitatorServer.

(* ================================================================== *)
(** * Vocabulary of the statements *)


(** The six-bit groups of a byte sequence. *)
Fixpoint pack (bs : bytes) : list Z :=
  match bs with
  | [] => []
  | [a] => [Z.shiftr a 2; Z.shiftl (Z.land a 3) 4]
  | [a; b] =>
      [Z.shiftr a 2;
       Z.lor (Z.shiftl (Z.land a 3) 4) (Z.shiftr b 4);
       Z.shiftl (Z.land b 15) 2]
  | a :: b :: c :: rest =>
      Z.shiftr a 2
      :: Z.lor (Z.shiftl (Z.land a 3) 4) (Z.shiftr b 4)
      :: Z.lor (Z.shiftl (Z.land b 15) 2) (Z.shiftr c 6)
      :: Z.land c 63
      :: pack rest
  end.

(** Text without lone surrogates: code units outside the surrogate range,
    and surrogate pairs. *)
Inductive scalar_text : jsstring -> Prop :=
| scalar_nil : scalar_text []
| scalar_unit c s :
    code_unit c -> is_high_surrogate c = false -> is_low_surrogate c = false ->
    scalar_text s -> scalar_text (c :: s)
| scalar_pair h l s :
    is_high_surrogate h = true -> is_low_surrogate l = true ->
    scalar_text s -> scalar_text (h :: l :: s).

(** What may follow a number in a JSON text. *)
Definition boundary (rest : jsstring) : Prop :=
  match rest with
  | [] => True
  | c :: _ => is_digit c = false /\ c <> 46 /\ c <> 101 /\ c <> 69
  end.

(** A numeral as [toString] writes it: not empty, no leading zero. *)
Definition canonical (u : uint) : Prop :=
  u <> Nil /\ forall u', u = D0 u' -> u' = Nil.

(** An object lists its properties in property order when creating them
    afresh, one after the other, gives the same list. *)
Definition in_property_order (ps : list (jsstring * value)) : Prop :=
  fold_left JSON.define ps [] = ps.

(** The values JSON can carry: no [undefined], no NaN or infinity, strings
    of code units, integers of the safe range. *)
#[local] Unset Elimination Schemes.
Inductive json_data : value -> Prop :=
| data_null : json_data VNull
| data_bool b : json_data (VBool b)
| data_num z : safe_integer z -> json_data (VNum (Int z))
| data_str s : wf_string s -> json_data (VStr s)
| data_arr l : Forall json_data l -> json_data (VArr l)
| data_obj ps :
    Forall (fun kv => wf_string (fst kv) /\ json_data (snd kv)) ps ->
    in_property_order ps ->
    json_data (VObj ps).
#[local] Set Elimination Schemes.

(** The fuel the parser needs for a value. *)
Fixpoint size (v : value) : nat :=
  match v with
  | VArr l => S (fold_right (fun x n => S (size x + n)) O l)
  | VObj ps => S (fold_right (fun kv n => S (size (snd kv) + n)) O ps)
  | _ => 1%nat
  end.

(** The first character of a value's text. *)
Definition opens_value (txt : jsstring) : Prop :=
  exists c t, txt = c :: t /\ JSON.is_ws c = false /\ c <> 93 /\ c <> 125.

Definition reads_back (v : value) : Prop :=
  forall fuel rest,
    (size v <= fuel)%nat -> boundary rest ->
    exists txt,
      JSON.serialize v = Some txt
      /\ opens_value txt
      /\ JSON.parse_value fuel (txt ++ rest) = JSON.POk v rest.



(** ** A sample deployment, for instances of the general statements *)

Module Sample.

(** The signature the key pair answers with, as base64 text. *)
Definition serialized : bytes := [0; 172; 247; 102].

Definition signature : jsstring := toB64 serialized.

(** A world in which every party answers and every transfer succeeds. *)
Definition env : Env unit :=
  mkEnv unit
    (fun _ _ w => (Returns (mkStatus (js "success") None), w))
    (fun _ _ _ w => (Returns (mkExecuteResult (js "8kXtQPZ3") VUndefined), w))
    (fun _ _ _ w => (Returns [mkCoin (js "0xc1") (js "600000000");
                              mkCoin (js "0xc2") (js "700000000")], w))
    (fun _ _ w => (Returns [1; 2; 3; 250], w))
    (fun _ _ w => (Returns serialized, w))
    (fun _ _ w => (Returns (Response.mk 200 [] (js "{}")), w))
    (fun w => (1700000000000, w)).

(** The same world with the facilitator out of reach. *)
Definition unreachable {W} (e : Env W) : Env W :=
  mkEnv W (dryRunTransactionBlock e) (executeTransactionBlock e) (getCoins e)
        (build e) (sign e)
        (fun _ _ w => (Raises (External (js "ECONNREFUSED")), w))
        (now e).

Definition payTo : jsstring := js "0x5e1f".

Definition weather : RouteConfig.t :=
  RouteConfig.mk (Some [js "GET"]) (js "1000000000") (Some (js "Get weather information")).

Definition routes : RoutesConfig :=
  [(js "/weather", weather);
   (js "/premium-data",
    RouteConfig.mk (Some [js "GET"; js "POST"]) (js "2000000000")
                   (Some (js "Access premium data endpoint")))].

Definition facilitator : FacilitatorConfig.t :=
  FacilitatorConfig.mk (js "http://localhost:3002") (Some 30000).

Definition signer : SuiSigner := mkSigner (js "0xc11e") [42].

Definition request (headers : Headers) : Request.t :=
  Request.mk (js "/weather") (js "GET") headers (js "http")
             (Some (js "localhost:4021")) (js "/weather").

Definition requirement : PaymentRequirement.t :=
  expected_requirement payTo None (request []) weather.

(** A payload that satisfies the requirement. *)
Definition payload : PaymentPayload.t :=
  PaymentPayload.mk (js "exact") (js "sui-localnet") (toB64 [1; 2; 3; 250]) (toB64 (elements_of_string signature))
                    (js "1000000000") payTo (js "0x2::sui::SUI").

(** A payload that pays half the price. *)
Definition underpaid : PaymentPayload.t :=
  PaymentPayload.mk (js "exact") (js "sui-localnet") (toB64 [1; 2; 3; 250]) (toB64 (elements_of_string signature))
                    (js "500000000") payTo (js "0x2::sui::SUI").

Definition paid_request : Request.t :=
  request [(js "x-payment", encode_header (PaymentPayload.to_value payload))].

Definition weather_requirement : PaymentRequirement.t :=
  challenge_requirement payTo None None (request []) weather.

(** The challenge of the weather route, in transport form. *)
Definition challenge_header : jsstring :=
  encode_header (challenge payTo None None (request []) weather).

(** A server that states its requirements in the [x-payment-required]
    header and serves whoever attaches a payment. *)
Definition paywalled : jsstring -> option RequestInit.t -> M unit Response.t :=
  fun _ init =>
    match init with
    | Some (RequestInit.mk _ (Some h) _ _) =>
        match lookup (js "x-payment") h with
        | Some _ => ret (Response.mk 200 [] (js "{}"))
        | None => ret (Response.mk 402 [(js "x-payment-required", challenge_header)]
                                   (js "{}"))
        end
    | _ => ret (Response.mk 402 [(js "x-payment-required", challenge_header)] (js "{}"))
    end.

(** A route handler that answers 200 through [res.json]. *)
Definition handler (code : Z) : option value -> unit -> Handled * unit :=
  fun _ w => (mkHandled true code (js "{}"), w).

End Sample.

Definition is_console (e : Event) : bool :=
  match e with
  | Console _ _ => true
  | _ => false
  end.

(** The last stage of [verifyPayment]: the ledger's dry run. *)
Definition simulate {W} (env : Env W) (p : PaymentPayload.t) (rpcUrl : option jsstring)
  : M W bool :=
  try_catch
    (bind (lift (getSuiClient (PaymentPayload.network p) rpcUrl)) (fun client =>
     bind (lift (fromB64 (PaymentPayload.transaction p))) (fun txBytes =>
     bind (call (DryRun client txBytes) (dryRunTransactionBlock env client txBytes))
          (fun dryRunResult =>
     if negb (str_eqb (status dryRunResult) (js "success"))
     then bind (console_error "Transaction dry run failed:") (fun _ => ret false)
     else ret true))))
    (fun _ => bind (console_error "Payment verification failed:") (fun _ => ret false)).

(** What a rejection before the ledger looks like: the answer is [false],
    the world is untouched, and the run only wrote to the console. *)
Definition rejected_offline {W} (w : W) (run : Outcome bool * W * list Event) : Prop :=
  outcome run = Ok false /\ world_after run = w /\ forallb is_console (events run) = true.

(** The methods a route policy covers. *)
Definition covers (routeConfig : RouteConfig.t) (method : jsstring) : bool :=
  existsb (str_eqb method)
          (match RouteConfig.methods routeConfig with
           | Some ms => ms
           | None => [js "GET"]
           end).

(** The request carries no payment: the header is absent or empty. *)
Definition no_payment (req : Request.t) : Prop :=
  lookup (js "x-payment") (Request.headers req) = None
  \/ lookup (js "x-payment") (Request.headers req) = Some [].

(** A computation all of whose events satisfy [P]. *)
Definition only {W A} (P : Event -> bool) (m : M W A) : Prop :=
  forall w, forallb P (events (m w)) = true.

(** A computation that gives an answer the model describes. *)
Definition settled {W A} (m : M W A) : Prop := forall w, outcome (m w) <> Stuck.

Definition ends_with (suffix s : jsstring) : bool :=
  starts_with (List.rev suffix) (List.rev s).

(** A call to the Settler: the ledger's execution, or a request to a
    facilitator's settle endpoint. *)
Definition is_settlement (e : Event) : bool :=
  match e with
  | Execute _ _ _ => true
  | HttpFetch url _ => ends_with (js "/settle") url
  | _ => false
  end.

Definition settles (t : list Event) : bool := existsb is_settlement t.

(** The events of a verification: lines of the console and the dry run. *)
Definition is_verification (e : Event) : bool :=
  match e with
  | Console _ _ | DryRun _ _ => true
  | _ => false
  end.

(** The settlement policy of the [finish] listener. *)
Definition settlement_due (facilitator : option FacilitatorConfig.t) (h : Handled) : Prop :=
  facilitator <> None /\ viaSend h = true /\ statusCode h < 400.

Definition is_invoke (e : Event) : bool :=
  match e with
  | Invoke _ _ => true
  | _ => false
  end.

(** How many times the wrapped function was called. *)
Definition invocations (t : list Event) : nat := List.length (filter is_invoke t).

(** A computation that calls the wrapped function at most [n] times. *)
Definition at_most {W A} (n : nat) (m : M W A) : Prop :=
  forall w, (invocations (events (m w)) <= n)%nat.

(** The 402 answer carries no requirements: the header is absent or empty. *)
Definition no_requirements_header (r : Response.t) : Prop :=
  lookup (js "x-payment-required") (Response.headers r) = None
  \/ lookup (js "x-payment-required") (Response.headers r) = Some [].

(** A selector that computes its answer and does nothing else. *)
Definition pure_selector {W} (selector : option (value -> value))
  : option (value -> M W value) :=
  match selector with
  | Some select => Some (fun requirements => ret (select requirements))
  | None => None
  end.

(** The caller's selector does not call the wrapped function. *)
Definition selector_is_quiet {W} (selector : option (value -> M W value)) : Prop :=
  forall select requirements, selector = Some select -> at_most 0 (select requirements).

(** The headers the caller gave: [init?.headers || {}]. *)
Definition caller_headers (init : option RequestInit.t) : Headers :=
  match init with
  | Some i => match RequestInit.headers i with
              | Some h => h
              | None => []
              end
  | None => []
  end.

(** The endpoint the transport is configured with:
    [config?.suiConfig?.rpcUrl]. *)
Definition configured_rpcUrl (config : option X402Config.t) : option jsstring :=
  match config with
  | Some c => SuiConfig.rpcUrl (X402Config.suiConfig c)
  | None => None
  end.

(** The request that is sent again: the caller's, with the payment header
    set on a [Headers] object made of the caller's headers. *)
Definition paid_init (init : option RequestInit.t) (header : jsstring) : RequestInit.t :=
  with_headers init (headers_set (js "x-payment") header (new_Headers (caller_headers init))).

(** The receipt header of a response, if it has one, holds JSON of the
    model. *)
Definition receipt_readable (r : Response.t) : Prop :=
  forall h, lookup (js "x-payment-response") (Response.headers r) = Some h ->
            decode_header h <> Stuck.







(** Every transaction the ledger client builds is a sequence of octets. *)
Definition builds_octets {W} (env : Env W) : Prop :=
  forall client tx w bs w', build env client tx w = (Returns bs, w') -> wf_bytes bs.

Definition is_dry_run (e : Event) : bool :=
  match e with
  | DryRun _ _ => true
  | _ => false
  end.

Definition is_error_log (e : Event) : bool :=
  match e with
  | Console LogError _ => true
  | _ => false
  end.

(** The text [s] with the first occurrence of [pat] taken out, or [s]
    itself when [pat] does not occur in it: what [s.replace(pat, "")]
    returns for a string [pat]. *)
Definition without_first (pat s r : jsstring) : Prop :=
  (r = s /\ forall a b, s <> a ++ pat ++ b)
  \/ exists a b, s = a ++ pat ++ b /\ r = a ++ b
                 /\ forall a' b', s = a' ++ pat ++ b' ->
                                  (List.length a <= List.length a')%nat.

(** The reason [settlePayment] gives for an execution that did not
    succeed: [result.effects?.status?.error || "Unknown error"]. *)
Definition failure_reason (result : ExecuteResult) : jsstring :=
  let reason := get_opt (get_opt (effects result) (js "status")) (js "error") in
  if truthy reason then to_string reason else js "Unknown error".

(** [result.effects?.status?.status] *)
Definition execution_status (result : ExecuteResult) : value :=
  get_opt (get_opt (effects result) (js "status")) (js "status").

(** A ledger that executes what it is given. *)
Definition executing {W} (e : Env W) : Env W :=
  mkEnv W (dryRunTransactionBlock e)
        (fun _ _ _ w =>
           (Returns (mkExecuteResult (js "8kXtQPZ3")
                       (VObj [(js "status", VObj [(js "status", VStr (js "success"))])])), w))
        (getCoins e) (build e) (sign e) (fetch e) (now e).

(** A ledger that aborts what it is given. *)
Definition aborting {W} (e : Env W) : Env W :=
  mkEnv W (dryRunTransactionBlock e)
        (fun _ _ _ w =>
           (Returns (mkExecuteResult (js "8kXtQPZ3")
                       (VObj [(js "status",
                               VObj [(js "status", VStr (js "failure"));
                                     (js "error", VStr (js "InsufficientGas"))])])), w))
        (getCoins e) (build e) (sign e) (fetch e) (now e).

(** The sum of the balances of some coins, when each is an integer. *)
Fixpoint sum_of_balances (coins : list Coin) : option Z :=
  match coins with
  | [] => Some 0
  | coin :: rest =>
      match BigInt (balance coin), sum_of_balances rest with
      | Ok b, Some s => Some (b + s)
      | _, _ => None
      end
  end.

(** The transaction of a payment: coins merged into [source] if need be,
    then [amount] split off [source] and the new coin transferred to
    [payTo]. *)
Definition payment_transaction (merges : list Command) (source : Argument) (amount : Z)
           (payTo sender : jsstring) : Transaction :=
  mkTransaction
    (merges ++ [SplitCoins source [amount];
                TransferObjects [NestedResult (List.length merges)] payTo])
    (Some sender).

(** The commands that precede the split, for the coins selected. *)
Definition merge_of (first : jsstring) (others : list jsstring) : list Command :=
  match others with
  | [] => []
  | _ => [MergeCoins (ObjectRef first) (map ObjectRef others)]
  end.

(** The request is for a protected route: its path is configured and its
    method is covered. *)
Definition protected (routes : RoutesConfig) (req : Request.t) (routeConfig : RouteConfig.t)
  : Prop :=
  lookup (Request.path req) routes = Some routeConfig
  /\ covers routeConfig (Request.method req) = true.

(** What the facilitator is asked on [/verify]. *)
Definition verify_request (payTo : jsstring) (x402Config : option X402Config.t)
           (req : Request.t) (routeConfig : RouteConfig.t)
           (f : FacilitatorConfig.t) (payload : value) : RequestInit.t :=
  facilitator_init f
    (VObj [(js "paymentPayload", payload);
           (js "paymentRequirement",
            PaymentRequirement.to_value (expected_requirement payTo x402Config req routeConfig))]).

(** Two computations that do the same in every world. *)
Definition same {W A} (m m' : M W A) : Prop := forall w, m w = m' w.

(** The members [verifyPayment] and [settlePayment] read are those of a
    payload, and those of a requirement. *)
Definition reads_payload (v : value) (p : PaymentPayload.t) : Prop :=
  get v (js "scheme") = Ok (VStr (PaymentPayload.scheme p))
  /\ get v (js "network") = Ok (VStr (PaymentPayload.network p))
  /\ get v (js "transaction") = Ok (VStr (PaymentPayload.transaction p))
  /\ get v (js "signature") = Ok (VStr (PaymentPayload.signature p))
  /\ get v (js "amount") = Ok (VStr (PaymentPayload.amount p))
  /\ get v (js "payTo") = Ok (VStr (PaymentPayload.payTo p))
  /\ get v (js "asset") = Ok (VStr (PaymentPayload.asset p)).

Definition reads_requirement (v : value) (r : PaymentRequirement.t) : Prop :=
  get v (js "network") = Ok (VStr (PaymentRequirement.network r))
  /\ get v (js "maxAmountRequired") = Ok (VStr (PaymentRequirement.maxAmountRequired r))
  /\ get v (js "payTo") = Ok (VStr (PaymentRequirement.payTo r))
  /\ get v (js "asset") = Ok (VStr (PaymentRequirement.asset r)).

(** A payment whose [amount] is a number and not a string: the value is
    no [PaymentPayload], and the middleware serves the request all the
    same. *)
Definition numeric_payment : value :=
  VObj [(js "scheme", VStr (js "exact"));
        (js "network", VStr (js "sui-localnet"));
        (js "transaction", VStr (toB64 [1; 2; 3; 250]));
        (js "signature", VStr (js "AAAAAwAAAAA="));
        (js "amount", VNum (Int 1000000000));
        (js "payTo", VStr Sample.payTo);
        (js "asset", VStr (js "0x2::sui::SUI"))].

(** A facilitator that refuses every payment. *)
Definition refusing {W} (e : Env W) : Env W :=
  mkEnv W (dryRunTransactionBlock e) (executeTransactionBlock e) (getCoins e)
        (build e) (sign e)
        (fun _ _ w =>
           (Returns (Response.mk 400 [] (JSON.stringify verify_refused)), w))
        (now e).

(** The strings of a configuration are sequences of code units. *)
Definition configuration_wf (payTo : jsstring) (x402Config : option X402Config.t)
           (routeConfig : RouteConfig.t) : Prop :=
  wf_string payTo
  /\ wf_string (network x402Config)
  /\ wf_string (TokenConfig.coinType (tokenConfig x402Config))
  /\ wf_string (RouteConfig.price routeConfig).

(** The optional members of a requirement hold values: a member that
    holds [undefined] is the same as one that is absent. *)
Definition members_defined (r : PaymentRequirement.t) : Prop :=
  PaymentRequirement.outputSchema r <> Some VUndefined
  /\ PaymentRequirement.extra r <> Some VUndefined.




(** The events of a verification: console lines and dry runs. *)
Definition verification_event (e : Event) : bool := is_console e || is_dry_run e.

(** A body whose payment states its amount as a number. *)
Definition numeric_settlement : value :=
  VObj [(js "paymentPayload", numeric_payment)].

(** The strings of a request are sequences of code units. *)
Definition request_wf (req : Request.t) : Prop :=
  wf_string (Request.protocol req)
  /\ match Request.host req with
     | Some h => wf_string h
     | None => True
     end
  /\ wf_string (Request.originalUrl req).

(** What the facilitator is asked on [/settle]. *)
Definition settle_request (f : FacilitatorConfig.t) (payload : value) : RequestInit.t :=
  facilitator_init f (VObj [(js "paymentPayload", payload)]).

(** The strings of a request and of a route that appear in a challenge. *)
Definition challenge_wf (req : Request.t) (routeConfig : RouteConfig.t) : Prop :=
  request_wf req
  /\ wf_string (Request.method req)
  /\ match RouteConfig.description routeConfig with
     | Some d => wf_string d
     | None => True
     end.

(** A selector that fails. *)
Definition failing_selector {W} : value -> M W value :=
  fun _ => throw (Err (js "nothing I can pay")).

(* ================================================================== *)
(** * Properties *)


(* ================================================================== *)
(** * Properties *)

(** ** Bit patterns as arithmetic *)

Lemma land_disjoint (n x y : Z) :
  0 <= n -> 0 <= y < 2 ^ n -> x mod 2 ^ n = 0 -> Z.land x y = 0.
Proof.
  intros Hn Hy Hx.
  apply Z.bits_inj'; intros i Hi.
  rewrite Z.land_spec, Z.bits_0.
  destruct (Z.lt_ge_cases i n) as [Hlt|Hge].
  - assert (E : Z.testbit x i = false).
    { rewrite <- (Z.mod_pow2_bits_low x n i) by lia. rewrite Hx. apply Z.bits_0. }
    now rewrite E.
  - assert (E : Z.testbit y i = false).
    { rewrite <- (Z.mod_small y (2 ^ n)) by lia.
      apply Z.mod_pow2_bits_high; lia. }
    rewrite E; apply andb_false_r.
Qed.

Lemma lor_add (n x y : Z) :
  0 <= n -> 0 <= y < 2 ^ n -> x mod 2 ^ n = 0 -> Z.lor x y = x + y.
Proof.
  intros Hn Hy Hx.
  pose proof (land_disjoint n x y Hn Hy Hx) as H.
  rewrite <- Z.lxor_lor by exact H.
  symmetry; apply Z.add_nocarry_lxor; exact H.
Qed.

Lemma shiftr_2 x : Z.shiftr x 2 = x / 4.
Proof. now rewrite Z.shiftr_div_pow2. Qed.
Lemma shiftr_4 x : Z.shiftr x 4 = x / 16.
Proof. now rewrite Z.shiftr_div_pow2. Qed.
Lemma shiftr_6 x : Z.shiftr x 6 = x / 64.
Proof. now rewrite Z.shiftr_div_pow2. Qed.
Lemma shiftr_8 x : Z.shiftr x 8 = x / 256.
Proof. now rewrite Z.shiftr_div_pow2. Qed.
Lemma shiftr_10 x : Z.shiftr x 10 = x / 1024.
Proof. now rewrite Z.shiftr_div_pow2. Qed.
Lemma shiftr_12 x : Z.shiftr x 12 = x / 4096.
Proof. now rewrite Z.shiftr_div_pow2. Qed.
Lemma shiftr_18 x : Z.shiftr x 18 = x / 262144.
Proof. now rewrite Z.shiftr_div_pow2. Qed.

Lemma shiftl_2 x : Z.shiftl x 2 = x * 4.
Proof. now rewrite Z.shiftl_mul_pow2. Qed.
Lemma shiftl_4 x : Z.shiftl x 4 = x * 16.
Proof. now rewrite Z.shiftl_mul_pow2. Qed.
Lemma shiftl_6 x : Z.shiftl x 6 = x * 64.
Proof. now rewrite Z.shiftl_mul_pow2. Qed.
Lemma shiftl_8 x : Z.shiftl x 8 = x * 256.
Proof. now rewrite Z.shiftl_mul_pow2. Qed.
Lemma shiftl_10 x : Z.shiftl x 10 = x * 1024.
Proof. now rewrite Z.shiftl_mul_pow2. Qed.
Lemma shiftl_12 x : Z.shiftl x 12 = x * 4096.
Proof. now rewrite Z.shiftl_mul_pow2. Qed.

Lemma land_3 x : Z.land x 3 = x mod 4.
Proof. change 3 with (Z.ones 2); now rewrite Z.land_ones. Qed.
Lemma land_7 x : Z.land x 7 = x mod 8.
Proof. change 7 with (Z.ones 3); now rewrite Z.land_ones. Qed.
Lemma land_15 x : Z.land x 15 = x mod 16.
Proof. change 15 with (Z.ones 4); now rewrite Z.land_ones. Qed.
Lemma land_31 x : Z.land x 31 = x mod 32.
Proof. change 31 with (Z.ones 5); now rewrite Z.land_ones. Qed.
Lemma land_63 x : Z.land x 63 = x mod 64.
Proof. change 63 with (Z.ones 6); now rewrite Z.land_ones. Qed.
Lemma land_1023 x : Z.land x 1023 = x mod 1024.
Proof. change 1023 with (Z.ones 10); now rewrite Z.land_ones. Qed.

Create Rewrite HintDb bits.
#[local] Hint Rewrite shiftr_2 shiftr_4 shiftr_6 shiftr_8 shiftr_10 shiftr_12 shiftr_18
  shiftl_2 shiftl_4 shiftl_6 shiftl_8 shiftl_10 shiftl_12
  land_3 land_7 land_15 land_31 land_63 land_1023 : bits.

(** [Z.lor] of a multiple of [2^n] and a number below [2^n] is their sum. *)
Ltac lor_to_add n :=
  match goal with
  | |- context [Z.lor ?x ?y] =>
      rewrite (lor_add n x y);
      [ | lia
        | let p := eval compute in (2 ^ n) in change (2 ^ n) with p;
          Z.div_mod_to_equations; lia
        | let p := eval compute in (2 ^ n) in change (2 ^ n) with p;
          Z.div_mod_to_equations; lia ]
  end.

(** Decide the comparisons of a goal, one at a time, dropping the cases
    that linear arithmetic refutes. *)
Ltac decide_test :=
  match goal with
  | |- context [?a <? ?b] => destruct (Z.ltb_spec a b)
  | |- context [?a <=? ?b] => destruct (Z.leb_spec a b)
  | |- context [?a =? ?b] => destruct (Z.eqb_spec a b)
  | H : context [?a <? ?b] |- _ => destruct (Z.ltb_spec a b)
  | H : context [?a <=? ?b] |- _ => destruct (Z.leb_spec a b)
  | H : context [?a =? ?b] |- _ => destruct (Z.eqb_spec a b)
  end; try (exfalso; lia).

Ltac decide_tests :=
  repeat decide_test;
  cbn [andb orb negb]; try reflexivity; try (exfalso; lia); try lia.

(** ** Base64 *)

Lemma unbase64_char_of n : 0 <= n < 64 -> Base64.unbase64 (Base64.char_of n) = Some n.
Proof.
  intros H; unfold Base64.unbase64, Base64.char_of.
  decide_tests; try (f_equal; lia).
Qed.

Lemma char_of_not_padding n : 0 <= n < 64 -> Base64.char_of n <> 61.
Proof. intros H; unfold Base64.char_of; decide_tests. Qed.

Lemma list_ind3 {A} (P : list A -> Prop) :
  P [] -> (forall a, P [a]) -> (forall a b, P [a; b]) ->
  (forall a b c r, P r -> P (a :: b :: c :: r)) ->
  forall l, P l.
Proof.
  intros H0 H1 H2 H3.
  fix IH 1; intros [|a [|b [|c r]]];
    [exact H0|apply H1|apply H2|apply H3, IH].
Qed.


Lemma sextet_1 a : octet a -> 0 <= Z.shiftr a 2 < 64.
Proof. unfold octet; intros H; autorewrite with bits; Z.div_mod_to_equations; lia. Qed.

Lemma sextet_2 a b :
  octet a -> octet b -> 0 <= Z.lor (Z.shiftl (Z.land a 3) 4) (Z.shiftr b 4) < 64.
Proof.
  unfold octet; intros Ha Hb; autorewrite with bits.
  lor_to_add 4. Z.div_mod_to_equations; lia.
Qed.

Lemma sextet_2' a : octet a -> 0 <= Z.shiftl (Z.land a 3) 4 < 64.
Proof. unfold octet; intros H; autorewrite with bits; Z.div_mod_to_equations; lia. Qed.

Lemma sextet_3 b c :
  octet b -> octet c -> 0 <= Z.lor (Z.shiftl (Z.land b 15) 2) (Z.shiftr c 6) < 64.
Proof.
  unfold octet; intros Hb Hc; autorewrite with bits.
  lor_to_add 2. Z.div_mod_to_equations; lia.
Qed.

Lemma sextet_3' b : octet b -> 0 <= Z.shiftl (Z.land b 15) 2 < 64.
Proof. unfold octet; intros H; autorewrite with bits; Z.div_mod_to_equations; lia. Qed.

Lemma sextet_4 c : octet c -> 0 <= Z.land c 63 < 64.
Proof. unfold octet; intros H; autorewrite with bits; Z.div_mod_to_equations; lia. Qed.

Lemma byte_1 a b :
  octet a -> octet b ->
  Z.lor (Z.shiftl (Z.shiftr a 2) 2)
        (Z.shiftr (Z.lor (Z.shiftl (Z.land a 3) 4) (Z.shiftr b 4)) 4) = a.
Proof.
  unfold octet; intros Ha Hb; autorewrite with bits.
  lor_to_add 4. lor_to_add 2. Z.div_mod_to_equations; lia.
Qed.

Lemma byte_1' a :
  octet a ->
  Z.lor (Z.shiftl (Z.shiftr a 2) 2) (Z.shiftr (Z.shiftl (Z.land a 3) 4) 4) = a.
Proof.
  unfold octet; intros Ha; autorewrite with bits.
  lor_to_add 2. Z.div_mod_to_equations; lia.
Qed.

Lemma byte_2 a b c :
  octet a -> octet b -> octet c ->
  Z.lor (Z.shiftl (Z.land (Z.lor (Z.shiftl (Z.land a 3) 4) (Z.shiftr b 4)) 15) 4)
        (Z.shiftr (Z.lor (Z.shiftl (Z.land b 15) 2) (Z.shiftr c 6)) 2) = b.
Proof.
  unfold octet; intros Ha Hb Hc; autorewrite with bits.
  lor_to_add 4. lor_to_add 2. lor_to_add 4. Z.div_mod_to_equations; lia.
Qed.

Lemma byte_2' a b :
  octet a -> octet b ->
  Z.lor (Z.shiftl (Z.land (Z.lor (Z.shiftl (Z.land a 3) 4) (Z.shiftr b 4)) 15) 4)
        (Z.shiftr (Z.shiftl (Z.land b 15) 2) 2) = b.
Proof.
  unfold octet; intros Ha Hb; autorewrite with bits.
  lor_to_add 4. lor_to_add 4. Z.div_mod_to_equations; lia.
Qed.

Lemma byte_3 b c :
  octet b -> octet c ->
  Z.lor (Z.shiftl (Z.land (Z.lor (Z.shiftl (Z.land b 15) 2) (Z.shiftr c 6)) 3) 6)
        (Z.land c 63) = c.
Proof.
  unfold octet; intros Hb Hc; autorewrite with bits.
  lor_to_add 2. lor_to_add 6. Z.div_mod_to_equations; lia.
Qed.

Lemma unpack_pack bs : wf_bytes bs -> Base64.unpack (pack bs) = bs.
Proof.
  unfold wf_bytes.
  induction bs as [|a|a b|a b c r IH] using list_ind3; intros H.
  - reflexivity.
  - inversion H as [|? ? Ha _]; subst.
    cbn [pack Base64.unpack]. now rewrite byte_1'.
  - inversion H as [|? ? Ha H']; subst. inversion H' as [|? ? Hb _]; subst.
    cbn [pack Base64.unpack]. now rewrite byte_1, byte_2'.
  - inversion H as [|? ? Ha H']; subst. inversion H' as [|? ? Hb H'']; subst.
    inversion H'' as [|? ? Hc Hr]; subst.
    cbn [pack Base64.unpack].
    now rewrite byte_1, byte_2, byte_3, (IH Hr).
Qed.

Lemma sextets_encode bs : wf_bytes bs -> Base64.sextets (Base64.encode bs) = pack bs.
Proof.
  unfold wf_bytes.
  induction bs as [|a|a b|a b c r IH] using list_ind3; intros H.
  - reflexivity.
  - inversion H as [|? ? Ha _]; subst.
    cbn [Base64.encode Base64.sextets pack].
    rewrite !unbase64_char_of by (apply sextet_1 || apply sextet_2'; assumption).
    reflexivity.
  - inversion H as [|? ? Ha H']; subst. inversion H' as [|? ? Hb _]; subst.
    cbn [Base64.encode Base64.sextets pack].
    rewrite !unbase64_char_of
      by (apply sextet_1 || apply sextet_2 || apply sextet_3'; assumption).
    reflexivity.
  - inversion H as [|? ? Ha H']; subst. inversion H' as [|? ? Hb H'']; subst.
    inversion H'' as [|? ? Hc Hr]; subst.
    cbn [Base64.encode Base64.sextets pack].
    rewrite !unbase64_char_of
      by (apply sextet_1 || apply sextet_2 || apply sextet_3 || apply sextet_4; assumption).
    now rewrite (IH Hr).
Qed.

(** Decoding what [Buffer] encoded gives the bytes back. *)
Lemma base64_decode_encode bs : wf_bytes bs -> Base64.decode (Base64.encode bs) = bs.
Proof.
  intros H; unfold Base64.decode.
  now rewrite sextets_encode, unpack_pack.
Qed.



Lemma char_of_not_ws n : 0 <= n < 64 -> Base64.is_ascii_ws (Base64.char_of n) = false.
Proof. intros H; unfold Base64.is_ascii_ws, Base64.char_of; decide_tests. Qed.

Lemma alphabet_value_char_of n :
  0 <= n < 64 -> Base64.alphabet_value (Base64.char_of n) = Some n.
Proof.
  intros H; unfold Base64.alphabet_value.
  rewrite unbase64_char_of by exact H.
  unfold Base64.char_of; decide_tests.
Qed.

Lemma strip_padding_char n r :
  0 <= n < 64 ->
  Base64.strip_padding (Base64.char_of n :: r) = Base64.char_of n :: Base64.strip_padding r.
Proof.
  intros H; cbn [Base64.strip_padding].
  pose proof (char_of_not_padding n H) as N.
  destruct (Z.eqb_spec (Base64.char_of n) 61); [contradiction|reflexivity].
Qed.

Lemma filter_char n r :
  0 <= n < 64 ->
  filter (fun c => negb (Base64.is_ascii_ws c)) (Base64.char_of n :: r)
  = Base64.char_of n :: filter (fun c => negb (Base64.is_ascii_ws c)) r.
Proof. intros H; cbn [filter]; now rewrite char_of_not_ws. Qed.

Lemma all_sextets_char n r :
  0 <= n < 64 ->
  Base64.all_sextets (Base64.char_of n :: r)
  = match Base64.all_sextets r with
    | Some l => Some (n :: l)
    | None => None
    end.
Proof. intros H; cbn [Base64.all_sextets]; now rewrite alphabet_value_char_of. Qed.

(** What [atob] sees in an encoding: no white space, a length that is a
    multiple of four, and, the padding removed, the six-bit groups. *)
Lemma encode_for_atob bs :
  wf_bytes bs ->
  filter (fun c => negb (Base64.is_ascii_ws c)) (Base64.encode bs) = Base64.encode bs
  /\ Base64.multiple_of_4 (Base64.encode bs) = true
  /\ exists body,
      Base64.strip_padding (Base64.encode bs) = body
      /\ Base64.all_sextets body = Some (pack bs)
      /\ (Z.of_nat (List.length body) mod 4 =? 1) = false.
Proof.
  unfold wf_bytes.
  induction bs as [|a|a b|a b c r IH] using list_ind3; intros H.
  - repeat split; exists []; repeat split.
  - inversion H as [|? ? Ha _]; subst.
    pose proof (sextet_1 a Ha). pose proof (sextet_2' a Ha).
    cbn [Base64.encode pack].
    rewrite !filter_char, !strip_padding_char by assumption.
    repeat split.
    eexists; split; [reflexivity|].
    rewrite !all_sextets_char by assumption. split; reflexivity.
  - inversion H as [|? ? Ha H']; subst. inversion H' as [|? ? Hb _]; subst.
    pose proof (sextet_1 a Ha). pose proof (sextet_2 a b Ha Hb).
    pose proof (sextet_3' b Hb).
    cbn [Base64.encode pack].
    rewrite !filter_char, !strip_padding_char by assumption.
    repeat split.
    eexists; split; [reflexivity|].
    rewrite !all_sextets_char by assumption. split; reflexivity.
  - inversion H as [|? ? Ha H']; subst. inversion H' as [|? ? Hb H'']; subst.
    inversion H'' as [|? ? Hc Hr]; subst.
    destruct (IH Hr) as (Hf & Hm & body & Hs & Ha' & Hl).
    pose proof (sextet_1 a Ha). pose proof (sextet_2 a b Ha Hb).
    pose proof (sextet_3 b c Hb Hc). pose proof (sextet_4 c Hc).
    cbn [Base64.encode pack].
    rewrite !filter_char, !strip_padding_char by assumption.
    rewrite Hf, Hs.
    split; [reflexivity|].
    split.
    { unfold Base64.multiple_of_4 in *. cbn [List.length].
      apply Z.eqb_eq in Hm; apply Z.eqb_eq.
      rewrite !Nat2Z.inj_succ. Z.div_mod_to_equations; lia. }
    eexists; split; [reflexivity|].
    rewrite !all_sextets_char, Ha' by assumption.
    split; [reflexivity|].
    cbn [List.length]. rewrite !Nat2Z.inj_succ.
    apply Z.eqb_neq in Hl; apply Z.eqb_neq.
    Z.div_mod_to_equations; lia.
Qed.

(** [fromB64] undoes [toB64]. *)
Lemma fromB64_toB64 bs : wf_bytes bs -> fromB64 (toB64 bs) = Ok bs.
Proof.
  intros H; unfold fromB64, toB64, Base64.forgiving_decode.
  destruct (encode_for_atob bs H) as (Hf & Hm & body & Hs & Ha & Hl).
  rewrite Hf, Hm, Hs, Hl, Ha.
  now rewrite unpack_pack.
Qed.



(** ** UTF-8 *)

(** One step of the decoder. *)
Lemma decode_cons b0 r0 :
  Utf8.decode (b0 :: r0) =
        if b0 <? 128 then b0 :: Utf8.decode r0
        else if (194 <=? b0) && (b0 <=? 223) then
          match r0 with
          | b1 :: r1 =>
              if Utf8.continuation 128 191 b1
              then Z.lor (Z.shiftl (Z.land b0 31) 6) (Z.land b1 63) :: Utf8.decode r1
              else 65533 :: Utf8.decode r0
          | [] => [65533]
          end
        else if (224 <=? b0) && (b0 <=? 239) then
          match r0 with
          | b1 :: r1 =>
              if Utf8.continuation (if b0 =? 224 then 160 else 128)
                              (if b0 =? 237 then 159 else 191) b1
              then match r1 with
                   | b2 :: r2 =>
                       if Utf8.continuation 128 191 b2
                       then Z.lor (Z.shiftl (Z.lor (Z.shiftl (Z.land b0 15) 6)
                                                   (Z.land b1 63)) 6)
                                  (Z.land b2 63) :: Utf8.decode r2
                       else 65533 :: Utf8.decode r1
                   | [] => [65533]
                   end
              else 65533 :: Utf8.decode r0
          | [] => [65533]
          end
        else if (240 <=? b0) && (b0 <=? 244) then
          match r0 with
          | b1 :: r1 =>
              if Utf8.continuation (if b0 =? 240 then 144 else 128)
                              (if b0 =? 244 then 143 else 191) b1
              then match r1 with
                   | b2 :: r2 =>
                       if Utf8.continuation 128 191 b2
                       then match r2 with
                            | b3 :: r3 =>
                                if Utf8.continuation 128 191 b3
                                then Utf8.units_of
                                       (Z.lor (Z.shiftl
                                          (Z.lor (Z.shiftl
                                             (Z.lor (Z.shiftl (Z.land b0 7) 6)
                                                    (Z.land b1 63)) 6)
                                             (Z.land b2 63)) 6)
                                          (Z.land b3 63))
                                     ++ Utf8.decode r3
                                else 65533 :: Utf8.decode r2
                            | [] => [65533]
                            end
                       else 65533 :: Utf8.decode r1
                   | [] => [65533]
                   end
              else 65533 :: Utf8.decode r0
          | [] => [65533]
          end
        else 65533 :: Utf8.decode r0.
Proof. reflexivity. Qed.

Lemma scalar_text_app s t : scalar_text s -> scalar_text t -> scalar_text (s ++ t).
Proof.
  induction 1; intros Ht; cbn [List.app]; [exact Ht|..].
  - apply scalar_unit; auto.
  - apply scalar_pair; auto.
Qed.

Lemma decode_one c rest :
  0 <= c < 128 -> Utf8.decode (c :: rest) = c :: Utf8.decode rest.
Proof. intros H; rewrite decode_cons; decide_tests. Qed.

Lemma decode_two q r rest :
  2 <= q < 32 -> 0 <= r < 64 ->
  Utf8.decode (192 + q :: 128 + r :: rest) = 64 * q + r :: Utf8.decode rest.
Proof.
  intros Hq Hr; rewrite decode_cons; cbv beta iota; unfold Utf8.continuation.
  decide_tests.
  f_equal. autorewrite with bits.
  lor_to_add 6. Z.div_mod_to_equations; lia.
Qed.

Lemma decode_three q1 q2 r rest :
  0 <= q1 < 16 -> 0 <= q2 < 64 -> 0 <= r < 64 ->
  (q1 = 0 -> 32 <= q2) -> (q1 = 13 -> q2 < 32) ->
  Utf8.decode (224 + q1 :: 128 + q2 :: 128 + r :: rest)
  = 4096 * q1 + 64 * q2 + r :: Utf8.decode rest.
Proof.
  intros H1 H2 Hr Hlow Hsur; rewrite decode_cons; cbv beta iota;
    unfold Utf8.continuation.
  decide_tests;
    (f_equal; autorewrite with bits;
     lor_to_add 6; lor_to_add 6; Z.div_mod_to_equations; lia).
Qed.

Lemma decode_four q1 q2 q3 r rest :
  0 <= q1 < 5 -> 0 <= q2 < 64 -> 0 <= q3 < 64 -> 0 <= r < 64 ->
  (q1 = 0 -> 16 <= q2) -> (q1 = 4 -> q2 < 16) ->
  Utf8.decode (240 + q1 :: 128 + q2 :: 128 + q3 :: 128 + r :: rest)
  = Utf8.units_of (262144 * q1 + 4096 * q2 + 64 * q3 + r) ++ Utf8.decode rest.
Proof.
  intros H1 H2 H3 Hr Hlow Hhigh; rewrite decode_cons; cbv beta iota;
    unfold Utf8.continuation.
  decide_tests;
    (f_equal; f_equal; autorewrite with bits;
     lor_to_add 6; lor_to_add 6; lor_to_add 6; Z.div_mod_to_equations; lia).
Qed.



Lemma encode_cp_one c : 0 <= c < 128 -> Utf8.encode_cp c = [c].
Proof. intros H; unfold Utf8.encode_cp; decide_tests. Qed.

Lemma encode_cp_two c :
  128 <= c < 2048 -> Utf8.encode_cp c = [192 + c / 64; 128 + c mod 64].
Proof.
  intros H; unfold Utf8.encode_cp; decide_tests.
  autorewrite with bits.
  lor_to_add 5. lor_to_add 6. reflexivity.
Qed.

Lemma encode_cp_three c :
  2048 <= c < 65536 ->
  Utf8.encode_cp c = [224 + c / 4096; 128 + (c / 64) mod 64; 128 + c mod 64].
Proof.
  intros H; unfold Utf8.encode_cp; decide_tests.
  autorewrite with bits.
  lor_to_add 4. lor_to_add 6. lor_to_add 6. reflexivity.
Qed.

Lemma encode_cp_four c :
  65536 <= c < 1114112 ->
  Utf8.encode_cp c
  = [240 + c / 262144; 128 + (c / 4096) mod 64; 128 + (c / 64) mod 64; 128 + c mod 64].
Proof.
  intros H; unfold Utf8.encode_cp; decide_tests.
  autorewrite with bits.
  lor_to_add 3. lor_to_add 6. lor_to_add 6. lor_to_add 6. reflexivity.
Qed.

(** A code point survives encoding and decoding, unless it is a surrogate. *)
Lemma decode_encode_cp c rest :
  0 <= c < 1114112 -> ~ (55296 <= c <= 57343) ->
  Utf8.decode (Utf8.encode_cp c ++ rest) = Utf8.units_of c ++ Utf8.decode rest.
Proof.
  intros Hc Hs.
  destruct (Z.lt_ge_cases c 128) as [H1|H1].
  { rewrite encode_cp_one by lia; cbn [List.app].
    rewrite decode_one by lia. unfold Utf8.units_of; decide_tests. }
  destruct (Z.lt_ge_cases c 2048) as [H2|H2].
  { rewrite encode_cp_two by lia; cbn [List.app].
    rewrite decode_two by (Z.div_mod_to_equations; lia).
    unfold Utf8.units_of; decide_tests; cbn [List.app]; f_equal.
    Z.div_mod_to_equations; lia. }
  destruct (Z.lt_ge_cases c 65536) as [H3|H3].
  { rewrite encode_cp_three by lia; cbn [List.app].
    rewrite decode_three by (Z.div_mod_to_equations; lia).
    unfold Utf8.units_of; decide_tests; cbn [List.app]; f_equal.
    Z.div_mod_to_equations; lia. }
  rewrite encode_cp_four by lia; cbn [List.app].
  rewrite decode_four by (Z.div_mod_to_equations; lia).
  do 2 f_equal. Z.div_mod_to_equations; lia.
Qed.

Lemma units_of_pair h l :
  is_high_surrogate h = true -> is_low_surrogate l = true ->
  Utf8.units_of (65536 + Z.shiftl (h - 55296) 10 + (l - 56320)) = [h; l].
Proof.
  unfold is_high_surrogate, is_low_surrogate, Utf8.units_of; intros Hh Hl.
  apply andb_true_iff in Hh as [Hh1 Hh2]; apply andb_true_iff in Hl as [Hl1 Hl2].
  apply Z.leb_le in Hh1, Hh2, Hl1, Hl2.
  autorewrite with bits.
  decide_tests.
  f_equal; [|f_equal]; Z.div_mod_to_equations; lia.
Qed.

(** Text without lone surrogates survives
    [Buffer.from(s)] followed by [toString("utf-8")]. *)
Lemma utf8_decode_encode s : scalar_text s -> Utf8.decode (Utf8.encode s) = s.
Proof.
  induction 1 as [|c s Hc Hh Hl Hs IH|h l s Hh Hl Hs IH].
  - reflexivity.
  - cbn [Utf8.encode]; rewrite Hh, Hl.
    unfold code_unit in Hc.
    rewrite decode_encode_cp.
    + rewrite IH. unfold Utf8.units_of; decide_tests.
    + lia.
    + unfold is_high_surrogate, is_low_surrogate in Hh, Hl.
      intros Hr. decide_tests; cbn in Hh, Hl; congruence.
  - cbn [Utf8.encode]; rewrite Hh, Hl.
    pose proof (units_of_pair h l Hh Hl) as Hu.
    unfold is_high_surrogate, is_low_surrogate in Hh, Hl.
    apply andb_true_iff in Hh as [Hh1 Hh2]; apply andb_true_iff in Hl as [Hl1 Hl2].
    apply Z.leb_le in Hh1, Hh2, Hl1, Hl2.
    rewrite decode_encode_cp.
    + now rewrite Hu, IH.
    + autorewrite with bits; lia.
    + autorewrite with bits; lia.
Qed.

Lemma encode_cp_octets c : 0 <= c < 1114112 -> wf_bytes (Utf8.encode_cp c).
Proof.
  intros Hc; unfold wf_bytes.
  destruct (Z.lt_ge_cases c 128) as [H1|H1].
  { rewrite encode_cp_one by lia. repeat constructor; lia. }
  destruct (Z.lt_ge_cases c 2048) as [H2|H2].
  { rewrite encode_cp_two by lia.
    repeat constructor; Z.div_mod_to_equations; lia. }
  destruct (Z.lt_ge_cases c 65536) as [H3|H3].
  { rewrite encode_cp_three by lia.
    repeat constructor; Z.div_mod_to_equations; lia. }
  rewrite encode_cp_four by lia.
  repeat constructor; Z.div_mod_to_equations; lia.
Qed.

Lemma utf8_encode_octets s : scalar_text s -> wf_bytes (Utf8.encode s).
Proof.
  induction 1 as [|c s Hc Hh Hl Hs IH|h l s Hh Hl Hs IH].
  - constructor.
  - cbn [Utf8.encode]; rewrite Hh, Hl.
    apply Forall_app; split; [|exact IH].
    apply encode_cp_octets. unfold code_unit in Hc; lia.
  - cbn [Utf8.encode]; rewrite Hh, Hl.
    apply Forall_app; split; [|exact IH].
    unfold is_high_surrogate, is_low_surrogate in Hh, Hl.
    apply andb_true_iff in Hh as [Hh1 Hh2]; apply andb_true_iff in Hl as [Hl1 Hl2].
    apply Z.leb_le in Hh1, Hh2, Hl1, Hl2.
    apply encode_cp_octets. autorewrite with bits; lia.
Qed.



(** ** JSON strings *)

Lemma hex_value_hex_digit d : 0 <= d < 16 -> JSON.hex_value (JSON.hex_digit d) = Some d.
Proof.
  intros H; unfold JSON.hex_value, JSON.hex_digit.
  decide_tests; f_equal; lia.
Qed.

Lemma hex4_unicode_escape c rest :
  code_unit c ->
  exists h1 h2 h3 h4,
    JSON.unicode_escape c ++ rest = 92 :: 117 :: h1 :: h2 :: h3 :: h4 :: rest
    /\ JSON.hex4 h1 h2 h3 h4 = Some c.
Proof.
  unfold code_unit; intros H.
  do 4 eexists; split; [reflexivity|].
  unfold JSON.hex4.
  autorewrite with bits.
  rewrite !hex_value_hex_digit by (Z.div_mod_to_equations; lia).
  cbv beta iota. autorewrite with bits.
  f_equal.
  lor_to_add 4. lor_to_add 8. lor_to_add 12.
  Z.div_mod_to_equations; lia.
Qed.

Lemma parse_chars_literal c s :
  32 <= c -> c <> 34 -> c <> 92 ->
  JSON.parse_chars (c :: s) = JSON.pmap (cons c) (JSON.parse_chars s).
Proof. intros; cbn [JSON.parse_chars]; decide_tests. Qed.

Lemma parse_chars_unicode_escape c s :
  code_unit c ->
  JSON.parse_chars (JSON.unicode_escape c ++ s) = JSON.pmap (cons c) (JSON.parse_chars s).
Proof.
  intros H.
  destruct (hex4_unicode_escape c s H) as (h1 & h2 & h3 & h4 & -> & Hx).
  cbn [JSON.parse_chars Z.eqb Pos.eqb]. now rewrite Hx.
Qed.

(** What QuoteJSONString wrote between the quotes reads back as the string. *)
Lemma parse_chars_quote_body n : forall s rest,
  (List.length s <= n)%nat -> wf_string s ->
  JSON.parse_chars (JSON.quote_body s ++ 34 :: rest) = JSON.POk s rest.
Proof.
  unfold wf_string.
  induction n as [|n IH]; intros [|c r] rest Hlen Hwf; try reflexivity.
  { cbn in Hlen; lia. }
  inversion Hwf as [|? ? Hc Hr]; subst.
  assert (Hr' : JSON.parse_chars (JSON.quote_body r ++ 34 :: rest) = JSON.POk r rest).
  { apply IH; [cbn in Hlen; lia|exact Hr]. }
  unfold code_unit in Hc.
  cbn [JSON.quote_body].
  destruct (Z.eqb_spec c 8); [subst; cbn; now rewrite Hr'|].
  destruct (Z.eqb_spec c 9); [subst; cbn; now rewrite Hr'|].
  destruct (Z.eqb_spec c 10); [subst; cbn; now rewrite Hr'|].
  destruct (Z.eqb_spec c 12); [subst; cbn; now rewrite Hr'|].
  destruct (Z.eqb_spec c 13); [subst; cbn; now rewrite Hr'|].
  destruct (Z.eqb_spec c 34); [subst; cbn; now rewrite Hr'|].
  destruct (Z.eqb_spec c 92); [subst; cbn; now rewrite Hr'|].
  destruct (Z.ltb_spec c 32).
  { rewrite <- app_assoc, parse_chars_unicode_escape, Hr' by exact Hc. reflexivity. }
  destruct (is_high_surrogate c) eqn:Hh.
  - destruct r as [|d r'].
    + cbn [List.app]. rewrite <- app_nil_r with (l := JSON.unicode_escape c) at 1.
      rewrite <- app_assoc, parse_chars_unicode_escape by exact Hc. reflexivity.
    + destruct (is_low_surrogate d) eqn:Hl.
      * inversion Hr as [|? ? Hd Hr'']; subst.
        unfold is_low_surrogate in Hl.
        apply andb_true_iff in Hl as [Hl1 Hl2]; apply Z.leb_le in Hl1, Hl2.
        cbn [List.app].
        rewrite !parse_chars_literal by lia.
        rewrite IH; [reflexivity|cbn in Hlen; lia|exact Hr''].
      * rewrite <- app_assoc, parse_chars_unicode_escape, Hr' by exact Hc. reflexivity.
  - destruct (is_low_surrogate c) eqn:Hl.
    + rewrite <- app_assoc, parse_chars_unicode_escape, Hr' by exact Hc. reflexivity.
    + cbn [List.app]. rewrite parse_chars_literal, Hr' by lia. reflexivity.
Qed.

Lemma parse_chars_quote s rest :
  wf_string s -> JSON.parse_chars (JSON.quote_body s ++ 34 :: rest) = JSON.POk s rest.
Proof. intros H; now apply (parse_chars_quote_body (List.length s)). Qed.

(** *** The text QuoteJSONString writes has no lone surrogate *)

Lemma scalar_ascii c s : 0 <= c < 128 -> scalar_text s -> scalar_text (c :: s).
Proof.
  intros H Hs; apply scalar_unit; [unfold code_unit; lia| | |exact Hs];
    unfold is_high_surrogate, is_low_surrogate; decide_tests.
Qed.

Lemma hex_digit_ascii d : 0 <= d < 16 -> 0 <= JSON.hex_digit d < 128.
Proof. intros H; unfold JSON.hex_digit; decide_tests. Qed.

Lemma scalar_unicode_escape c s :
  code_unit c -> scalar_text s -> scalar_text (JSON.unicode_escape c ++ s).
Proof.
  unfold code_unit; intros Hc Hs; unfold JSON.unicode_escape; cbn [List.app].
  autorewrite with bits.
  repeat (apply scalar_ascii;
          [first [lia | apply hex_digit_ascii; Z.div_mod_to_equations; lia]|]).
  exact Hs.
Qed.

Lemma scalar_quote_body n : forall s t,
  (List.length s <= n)%nat -> wf_string s -> scalar_text t ->
  scalar_text (JSON.quote_body s ++ t).
Proof.
  unfold wf_string.
  induction n as [|n IH]; intros [|c r] t Hlen Hwf Ht; try exact Ht.
  { cbn in Hlen; lia. }
  inversion Hwf as [|? ? Hc Hr]; subst.
  assert (Hr' : scalar_text (JSON.quote_body r ++ t)).
  { apply IH; [cbn in Hlen; lia|exact Hr|exact Ht]. }
  cbn [JSON.quote_body].
  repeat match goal with
         | |- context [if ?c =? ?k then _ else _] =>
             destruct (Z.eqb_spec c k);
             [cbn [List.app]; do 2 (apply scalar_ascii; [lia|]); exact Hr'|]
         end.
  destruct (Z.ltb_spec c 32).
  { rewrite <- app_assoc; now apply scalar_unicode_escape. }
  destruct (is_high_surrogate c) eqn:Hh.
  - destruct r as [|d r'].
    + now apply scalar_unicode_escape.
    + destruct (is_low_surrogate d) eqn:Hl.
      * inversion Hr as [|? ? Hd Hr'']; subst.
        cbn [List.app]; apply scalar_pair; auto.
        apply IH; [cbn in Hlen; lia|exact Hr''|exact Ht].
      * rewrite <- app_assoc; now apply scalar_unicode_escape.
  - destruct (is_low_surrogate c) eqn:Hl.
    + rewrite <- app_assoc; now apply scalar_unicode_escape.
    + cbn [List.app]; apply scalar_unit; auto.
Qed.

Lemma scalar_quote s t : wf_string s -> scalar_text t -> scalar_text (JSON.quote s ++ t).
Proof.
  intros Hs Ht; unfold JSON.quote; cbn [List.app].
  apply scalar_ascii; [lia|].
  rewrite <- app_assoc.
  apply (scalar_quote_body (List.length s)); [lia|exact Hs|].
  cbn [List.app]; apply scalar_ascii; [lia|exact Ht].
Qed.



(** ** JSON numbers *)

Lemma uint_of_digits_of_uint u : uint_of_digits (digits_of_uint u) = u.
Proof. induction u; cbn; now rewrite ?IHu. Qed.

Lemma take_digits_of_uint u rest :
  boundary rest -> take_digits (digits_of_uint u ++ rest) = (digits_of_uint u, rest).
Proof.
  intros Hb; induction u; cbn [digits_of_uint List.app take_digits];
    try (change (is_digit _) with true; cbv iota; now rewrite IHu).
  destruct rest as [|c r]; [reflexivity|].
  destruct Hb as (Hd & _); cbn [take_digits]; now rewrite Hd.
Qed.

Lemma canonical_zero : canonical (D0 Nil).
Proof. split; [discriminate|]. intros u' E; now injection E as <-. Qed.

Lemma canonical_to_uint p : canonical (Pos.to_uint p).
Proof.
  split; [apply DecimalPos.Unsigned.to_uint_nonnil|].
  intros u' E.
  pose proof (DecimalPos.Unsigned.to_of (Pos.to_uint p)) as H.
  rewrite DecimalPos.Unsigned.of_to in H.
  change (N.to_uint (N.pos p)) with (Pos.to_uint p) in H.
  pose proof (DecimalPos.Unsigned.to_uint_nonzero p) as Hz.
  assert (Hn : nzhead (Pos.to_uint p) <> Nil).
  { intros Hn. apply DecimalFacts.unorm_0 in Hn. congruence. }
  rewrite (DecimalFacts.unorm_nzhead _ Hn) in H.
  exfalso; apply (DecimalFacts.nzhead_nonzero (Pos.to_uint p) u'); congruence.
Qed.

Lemma parse_number_canonical neg u rest :
  canonical u -> boundary rest ->
  JSON.parse_number neg (digits_of_uint u ++ rest)
  = if neg && (Z.of_uint u =? 0) then JSON.PUnsupported
    else if safe_integerb (Z.of_uint u)
         then JSON.POk (VNum (Int (if neg then - Z.of_uint u else Z.of_uint u))) rest
         else JSON.PUnsupported.
Proof.
  intros (Hnil & Hzero) Hb; unfold JSON.parse_number.
  rewrite take_digits_of_uint by exact Hb.
  assert (Hlead : forall d more,
             digits_of_uint u = d :: more ->
             (d =? 48) && negb match more with [] => true | _ => false end = false).
  { intros d more E.
    destruct u; try contradiction; cbn in E; injection E as <- <-; try reflexivity.
    rewrite (Hzero u eq_refl); reflexivity. }
  destruct (digits_of_uint u) as [|d more] eqn:Eu.
  { destruct u; cbn in Eu; congruence. }
  rewrite (Hlead d more eq_refl).
  rewrite <- Eu, uint_of_digits_of_uint.
  destruct rest as [|c r]; [reflexivity|].
  destruct Hb as (_ & H1 & H2 & H3).
  destruct (Z.eqb_spec c 46); [contradiction|].
  destruct (Z.eqb_spec c 101); [contradiction|].
  destruct (Z.eqb_spec c 69); [contradiction|].
  reflexivity.
Qed.

Lemma digits_head u : u <> Nil ->
  exists c t, digits_of_uint u = c :: t /\ is_digit c = true.
Proof. destruct u; [contradiction|..]; intros _; do 2 eexists; split; reflexivity. Qed.

Lemma safe_integerb_true z : safe_integer z -> safe_integerb z = true.
Proof.
  unfold safe_integer, safe_integerb, max_safe_integer; intros H.
  apply andb_true_iff; split; apply Z.leb_le; lia.
Qed.

(** A positive numeral, as it stands in a JSON text. *)
Lemma parse_number_nonnegative z rest :
  0 <= z -> safe_integer z -> boundary rest ->
  exists c t,
    decimal_of_Z z = c :: t /\ is_digit c = true
    /\ JSON.parse_number false (decimal_of_Z z ++ rest) = JSON.POk (VNum (Int z)) rest.
Proof.
  intros Hz Hs Hb; unfold decimal_of_Z.
  destruct z as [|p|p]; [| |lia]; cbn [Z.to_int].
  - exists 48, []; repeat split.
    change (digits_of_uint zero) with (digits_of_uint (D0 Nil)).
    rewrite parse_number_canonical by (apply canonical_zero || exact Hb). reflexivity.
  - destruct (digits_head (Pos.to_uint p)) as (c & t & E & Hc);
      [apply DecimalPos.Unsigned.to_uint_nonnil|].
    exists c, t; repeat split; auto.
    rewrite parse_number_canonical by (apply canonical_to_uint || exact Hb).
    unfold Z.of_uint; rewrite DecimalPos.Unsigned.of_to; cbn [Z.of_N andb].
    now rewrite safe_integerb_true.
Qed.

Lemma parse_number_negative z rest :
  z < 0 -> safe_integer z -> boundary rest ->
  exists t,
    decimal_of_Z z = 45 :: t
    /\ JSON.parse_number true (t ++ rest) = JSON.POk (VNum (Int z)) rest.
Proof.
  intros Hz Hs Hb; unfold decimal_of_Z.
  destruct z as [|p|p]; try lia; cbn [Z.to_int].
  eexists; split; [reflexivity|].
  rewrite parse_number_canonical by (apply canonical_to_uint || exact Hb).
  unfold Z.of_uint; rewrite DecimalPos.Unsigned.of_to; cbn [Z.of_N andb Z.eqb Z.opp].
  rewrite safe_integerb_true; [reflexivity|].
  unfold safe_integer in *; lia.
Qed.



(** ** JSON values *)

Lemma value_ind' (P : value -> Prop) :
  P VUndefined -> P VNull -> (forall b, P (VBool b)) -> (forall n, P (VNum n)) ->
  (forall s, P (VStr s)) ->
  (forall l, Forall P l -> P (VArr l)) ->
  (forall ps, Forall (fun kv => P (snd kv)) ps -> P (VObj ps)) ->
  forall v, P v.
Proof.
  intros Hu Hn Hb Hnum Hs Ha Ho.
  fix IH 1; intros [| |b|n|s|l|ps].
  - exact Hu.
  - exact Hn.
  - apply Hb.
  - apply Hnum.
  - apply Hs.
  - apply Ha. induction l as [|x l IHl]; constructor; [apply IH|exact IHl].
  - apply Ho. induction ps as [|[k x] ps IHps]; constructor; [apply IH|exact IHps].
Qed.

Lemma skip_ws_opens txt rest :
  opens_value txt -> JSON.skip_ws (txt ++ rest) = txt ++ rest.
Proof. intros (c & t & -> & Hw & _); cbn; now rewrite Hw. Qed.

Lemma next_is_opens k txt rest :
  opens_value txt -> k = 93 \/ k = 125 -> JSON.next_is k (txt ++ rest) = None.
Proof.
  intros (c & t & -> & Hw & H1 & H2) Hk; unfold JSON.next_is; cbn; rewrite Hw.
  destruct (Z.eqb_spec c k); [|reflexivity]. destruct Hk; congruence.
Qed.

Lemma next_is_here k rest : JSON.is_ws k = false -> JSON.next_is k (k :: rest) = Some rest.
Proof. intros H; unfold JSON.next_is; cbn; now rewrite H, Z.eqb_refl. Qed.

Lemma boundary_delimiter c rest : c = 44 \/ c = 93 \/ c = 125 -> boundary (c :: rest).
Proof. intros [-> | [-> | ->]]; cbn; repeat split; discriminate. Qed.

Lemma elements_read_back l :
  Forall (fun x => json_data x -> reads_back x) l -> Forall json_data l ->
  forall x0 fuel rest,
    (fold_right (fun x n => S (size x + n)) O (x0 :: l) <= fuel)%nat ->
    json_data x0 -> reads_back x0 ->
    opens_value (join [44] (JSON.elements JSON.serialize (x0 :: l)))
    /\ JSON.parse_elements fuel
         (join [44] (JSON.elements JSON.serialize (x0 :: l)) ++ 93 :: rest)
       = JSON.POk (x0 :: l) rest.
Proof.
  induction l as [|x l IH]; intros HP Hd x0 fuel rest Hfuel Hd0 Hr0.
  - cbn [fold_right] in Hfuel.
    destruct fuel as [|f]; [lia|].
    destruct (Hr0 f (93 :: rest)) as (txt & Es & Ho & Ep);
      [lia|apply boundary_delimiter; auto|].
    cbn [JSON.elements join]; rewrite Es; cbn [join].
    split; [exact Ho|].
    cbn [JSON.parse_elements]; rewrite Ep.
    unfold JSON.next_is; cbn. reflexivity.
  - inversion HP as [|? ? HPx HPl]; subst. inversion Hd as [|? ? Hdx Hdl]; subst.
    cbn [fold_right] in Hfuel.
    destruct fuel as [|f]; [lia|].
    destruct (Hr0 f (44 :: join [44] (JSON.elements JSON.serialize (x :: l)) ++ 93 :: rest))
      as (txt & Es & Ho & Ep); [lia|apply boundary_delimiter; auto|].
    destruct (IH HPl Hdl x f rest) as (Ho' & Ep');
      [cbn [fold_right]; lia|exact Hdx|exact (HPx Hdx)|].
    assert (Ej : join [44] (JSON.elements JSON.serialize (x0 :: x :: l))
                 = txt ++ 44 :: join [44] (JSON.elements JSON.serialize (x :: l))).
    { cbn [JSON.elements]; rewrite Es.
      destruct (JSON.serialize x); reflexivity. }
    rewrite Ej.
    split.
    { destruct Ho as (c & t & -> & H); exists c; eexists; split; [reflexivity|exact H]. }
    rewrite <- app_assoc; cbn [List.app].
    cbn [JSON.parse_elements]; rewrite Ep.
    rewrite next_is_here by reflexivity.
    now rewrite Ep'.
Qed.

Lemma members_read_back ps :
  Forall (fun kv => json_data (snd kv) -> reads_back (snd kv)) ps ->
  Forall (fun kv => wf_string (fst kv) /\ json_data (snd kv)) ps ->
  forall k0 x0 fuel rest,
    (fold_right (fun kv n => S (size (snd kv) + n)) O ((k0, x0) :: ps) <= fuel)%nat ->
    wf_string k0 -> json_data x0 -> reads_back x0 ->
    opens_value (join [44] (JSON.members JSON.serialize ((k0, x0) :: ps)))
    /\ JSON.parse_members fuel
         (join [44] (JSON.members JSON.serialize ((k0, x0) :: ps)) ++ 125 :: rest)
       = JSON.POk ((k0, x0) :: ps) rest.
Proof.
  induction ps as [|[k x] ps IH]; intros HP Hd k0 x0 fuel rest Hfuel Hk0 Hd0 Hr0.
  - cbn [fold_right snd] in Hfuel.
    destruct fuel as [|f]; [lia|].
    destruct (Hr0 f (125 :: rest)) as (txt & Es & Ho & Ep);
      [lia|apply boundary_delimiter; auto|].
    cbn [JSON.members join]; rewrite Es; cbn [join].
    split; [exists 34; eexists; split; [reflexivity|repeat split; discriminate]|].
    cbn [JSON.parse_members].
    unfold JSON.quote; cbn [List.app].
    rewrite next_is_here by reflexivity.
    rewrite <- !app_assoc; cbn [List.app].
    rewrite parse_chars_quote by exact Hk0.
    rewrite next_is_here by reflexivity.
    rewrite Ep.
    unfold JSON.next_is; cbn. reflexivity.
  - inversion HP as [|? ? HPx HPl]; subst. inversion Hd as [|? ? Hdx Hdl]; subst.
    cbn [fst snd] in HPx, Hdx. destruct Hdx as (Hk & Hdx).
    cbn [fold_right snd] in Hfuel.
    destruct fuel as [|f]; [lia|].
    destruct (Hr0 f (44 :: join [44] (JSON.members JSON.serialize ((k, x) :: ps))
                        ++ 125 :: rest))
      as (txt & Es & Ho & Ep); [lia|apply boundary_delimiter; auto|].
    destruct (IH HPl Hdl k x f rest) as (Ho' & Ep');
      [cbn [fold_right snd]; lia|exact Hk|exact Hdx|exact (HPx Hdx)|].
    assert (Ej : join [44] (JSON.members JSON.serialize ((k0, x0) :: (k, x) :: ps))
                 = (JSON.quote k0 ++ 58 :: txt)
                     ++ 44 :: join [44] (JSON.members JSON.serialize ((k, x) :: ps))).
    { cbn [JSON.members]; rewrite Es.
      destruct (Hr0 f []) as (? & _ & _ & _); [lia|exact I|].
      destruct (HPx Hdx f []) as (tx & Ex & _ & _); [cbn [fold_right snd] in *; lia|exact I|].
      rewrite Ex. reflexivity. }
    rewrite Ej.
    split; [exists 34; eexists; split; [reflexivity|repeat split; discriminate]|].
    cbn [JSON.parse_members].
    unfold JSON.quote; cbn [List.app].
    rewrite next_is_here by reflexivity.
    rewrite <- !app_assoc; cbn [List.app].
    rewrite parse_chars_quote by exact Hk0.
    rewrite next_is_here by reflexivity.
    rewrite Ep.
    rewrite next_is_here by reflexivity.
    now rewrite Ep'.
Qed.



Lemma digit_opens c :
  is_digit c = true ->
  JSON.is_ws c = false /\ c <> 93 /\ c <> 125
  /\ (c =? 34) = false /\ (c =? 91) = false /\ (c =? 123) = false
  /\ (c =? 110) = false /\ (c =? 116) = false /\ (c =? 102) = false
  /\ (c =? 45) = false.
Proof.
  unfold is_digit, JSON.is_ws; intros H.
  apply andb_true_iff in H as [H1 H2]; apply Z.leb_le in H1, H2.
  repeat split; decide_tests.
Qed.

(** Parsing the text of a value gives the value back, and leaves what
    followed the text. *)
Lemma json_reads_back v : json_data v -> reads_back v.
Proof.
  induction v as [| |b|n|s|l IHl|ps IHps] using value_ind';
    intros Hd fuel rest Hfuel Hb;
    inversion Hd as [|b'|z Hz|s' Hs|l' Hl|ps' Hps Hord]; subst.
  - (* null *)
    destruct fuel as [|f]; [cbn in Hfuel; lia|].
    eexists; split; [reflexivity|].
    split; [exists 110; eexists; split; [reflexivity|repeat split; discriminate]|].
    reflexivity.
  - (* booleans *)
    destruct fuel as [|f]; [cbn in Hfuel; lia|].
    destruct b; (eexists; split; [reflexivity|]);
      (split; [eexists; eexists; split; [reflexivity|repeat split; discriminate]|]);
      reflexivity.
  - (* numbers *)
    destruct fuel as [|f]; [cbn in Hfuel; lia|].
    eexists; split; [reflexivity|].
    cbn [JSON.number_text].
    destruct (Z.lt_ge_cases z 0) as [Hneg|Hpos].
    + destruct (parse_number_negative z rest Hneg Hz Hb) as (t & -> & Ep).
      split; [exists 45; eexists; split; [reflexivity|repeat split; discriminate]|].
      cbn [List.app JSON.parse_value JSON.skip_ws]. exact Ep.
    + destruct (parse_number_nonnegative z rest Hpos Hz Hb) as (c & t & E & Hc & Ep).
      destruct (digit_opens c Hc) as (Hw & H93 & H125 & T1 & T2 & T3 & T4 & T5 & T6 & T7).
      rewrite E in *.
      split; [exists c, t; auto|].
      cbn [List.app JSON.parse_value JSON.skip_ws].
      rewrite Hw, T1, T2, T3, T4, T5, T6, T7, Hc. exact Ep.
  - (* strings *)
    destruct fuel as [|f]; [cbn in Hfuel; lia|].
    eexists; split; [reflexivity|].
    split; [exists 34; eexists; split; [reflexivity|repeat split; discriminate]|].
    unfold JSON.quote; cbn [List.app JSON.parse_value JSON.skip_ws].
    change (JSON.is_ws 34) with false; cbv iota.
    change (34 =? 34) with true; cbv iota.
    rewrite <- app_assoc; cbn [List.app].
    rewrite parse_chars_quote by assumption. reflexivity.
  - (* arrays *)
    destruct fuel as [|f]; [cbn in Hfuel; lia|].
    exists (91 :: join [44] (JSON.elements JSON.serialize l) ++ [93]).
    split; [reflexivity|].
    split; [exists 91; eexists; split; [reflexivity|repeat split; discriminate]|].
    cbn [List.app JSON.parse_value JSON.skip_ws].
    change (JSON.is_ws 91) with false; cbv iota.
    change (91 =? 34) with false; change (91 =? 91) with true; cbv iota.
    destruct l as [|x0 l].
    + cbn [JSON.elements join List.app]. rewrite next_is_here by reflexivity. reflexivity.
    + inversion IHl as [|? ? HP0 HPl]; subst. inversion Hl as [|? ? Hd0 Hdl]; subst.
      destruct (elements_read_back l HPl Hdl x0 f rest) as (Ho & Ep);
        [cbn [size] in Hfuel; lia|exact Hd0|exact (HP0 Hd0)|].
      rewrite <- app_assoc; cbn [List.app].
      rewrite next_is_opens by (auto; exact Ho).
      now rewrite Ep.
  - (* objects *)
    destruct fuel as [|f]; [cbn in Hfuel; lia|].
    exists (123 :: join [44] (JSON.members JSON.serialize ps) ++ [125]).
    split; [reflexivity|].
    split; [exists 123; eexists; split; [reflexivity|repeat split; discriminate]|].
    cbn [List.app JSON.parse_value JSON.skip_ws].
    change (JSON.is_ws 123) with false; cbv iota.
    change (123 =? 34) with false; change (123 =? 91) with false;
      change (123 =? 123) with true; cbv iota.
    destruct ps as [|[k0 x0] ps].
    + cbn [JSON.members join List.app]. rewrite next_is_here by reflexivity. reflexivity.
    + inversion IHps as [|? ? HP0 HPl]; subst. inversion Hps as [|? ? Hd0 Hdl]; subst.
      cbn [fst snd] in HP0, Hd0; destruct Hd0 as (Hk0 & Hd0).
      destruct (members_read_back ps HPl Hdl k0 x0 f rest) as (Ho & Ep);
        [cbn [size] in Hfuel; lia|exact Hk0|exact Hd0|exact (HP0 Hd0)|].
      rewrite <- app_assoc; cbn [List.app].
      rewrite next_is_opens by (auto; exact Ho).
      rewrite Ep; cbn [JSON.pmap]. unfold JSON.object_of.
      now rewrite Hord.
Qed.

Lemma join_cons sep p q parts :
  join sep (p :: q :: parts) = p ++ sep ++ join sep (q :: parts).
Proof. reflexivity. Qed.

Lemma length_join_elements l :
  Forall (fun x => json_data x ->
                   forall txt, JSON.serialize x = Some txt -> (size x <= List.length txt)%nat) l ->
  Forall json_data l ->
  (fold_right (fun x n => S (size x + n)) O l
   <= S (List.length (join [44%Z] (JSON.elements JSON.serialize l))))%nat.
Proof.
  induction l as [|x l IH]; intros HP Hd; [cbn; lia|].
  inversion HP as [|? ? HPx HPl]; subst. inversion Hd as [|? ? Hdx Hdl]; subst.
  specialize (IH HPl Hdl).
  destruct (json_reads_back x Hdx (size x) [] (Nat.le_refl _) I) as (txt & Es & _ & _).
  specialize (HPx Hdx txt Es).
  cbn [fold_right JSON.elements]; rewrite Es.
  destruct (JSON.elements JSON.serialize l) as [|t ts] eqn:El.
  - destruct l; [cbn; lia|].
    cbn [JSON.elements] in El; destruct (JSON.serialize v); discriminate.
  - rewrite join_cons, !length_app.
    cbn [List.length]. lia.
Qed.

Lemma length_join_members ps :
  Forall (fun kv => json_data (snd kv) ->
                    forall txt, JSON.serialize (snd kv) = Some txt ->
                                (size (snd kv) <= List.length txt)%nat) ps ->
  Forall (fun kv => wf_string (fst kv) /\ json_data (snd kv)) ps ->
  (fold_right (fun kv n => S (size (snd kv) + n)) O ps
   <= S (List.length (join [44%Z] (JSON.members JSON.serialize ps))))%nat.
Proof.
  induction ps as [|[k x] ps IH]; intros HP Hd; [cbn; lia|].
  inversion HP as [|? ? HPx HPl]; subst. inversion Hd as [|? ? Hdx Hdl]; subst.
  cbn [fst snd] in HPx, Hdx; destruct Hdx as (Hk & Hdx).
  specialize (IH HPl Hdl).
  destruct (json_reads_back x Hdx (size x) [] (Nat.le_refl _) I) as (txt & Es & _ & _).
  specialize (HPx Hdx txt Es).
  cbn [fold_right JSON.members snd]; rewrite Es.
  destruct (JSON.members JSON.serialize ps) as [|t ts] eqn:El.
  - destruct ps as [|[k' x'] ps]; [cbn; rewrite length_app; cbn; lia|].
    inversion Hdl as [|? ? (_ & Hdx') _]; subst.
    destruct (json_reads_back x' Hdx' (size x') [] (Nat.le_refl _) I) as (txt' & Es' & _ & _).
    cbn [JSON.members] in El; cbn [fst snd] in *; rewrite Es' in El; discriminate.
  - rewrite join_cons, !length_app.
    cbn [List.length]. lia.
Qed.

(** The text of a value is at least as long as the fuel its parse takes. *)
Lemma size_le_length v :
  json_data v -> forall txt, JSON.serialize v = Some txt -> (size v <= List.length txt)%nat.
Proof.
  induction v as [| |b|n|s|l IHl|ps IHps] using value_ind';
    intros Hd txt Es;
    inversion Hd as [|b'|z Hz|s' Hs|l' Hl|ps' Hps Hord]; subst;
    cbn [JSON.serialize] in Es.
  - injection Es as <-; cbn; lia.
  - destruct b; injection Es as <-; cbn; lia.
  - injection Es as <-.
    destruct (json_reads_back _ Hd 1%nat [] (Nat.le_refl _) I)
      as (t & Et & (c & t' & -> & _) & _).
    cbn [JSON.serialize] in Et; injection Et as ->. cbn; lia.
  - injection Es as <-. unfold JSON.quote; cbn; lia.
  - injection Es as <-.
    pose proof (length_join_elements l IHl Hl) as Hlen.
    cbn [size List.length]. rewrite length_app. cbn [List.length]. lia.
  - injection Es as <-.
    pose proof (length_join_members ps IHps Hps) as Hlen.
    cbn [size List.length]. rewrite length_app. cbn [List.length]. lia.
Qed.

(** [JSON.parse(JSON.stringify(v))] is [v]. *)
Lemma parse_stringify v : json_data v -> JSON.parse (JSON.stringify v) = Ok v.
Proof.
  intros Hd.
  destruct (json_reads_back v Hd (size v) [] (Nat.le_refl _) I) as (txt & Es & _ & _).
  unfold JSON.stringify, JSON.parse; rewrite Es.
  destruct (json_reads_back v Hd (S (List.length txt)) []) as (txt' & Es' & _ & Ep);
    [pose proof (size_le_length v Hd txt Es); lia|exact I|].
  rewrite Es in Es'; injection Es' as <-.
  rewrite app_nil_r in Ep; rewrite Ep. reflexivity.
Qed.



(** ** The transport form *)

Lemma ascii_scalar s : Forall (fun c => 0 <= c < 128) s -> scalar_text s.
Proof.
  induction 1 as [|c s Hc Hs IH]; [constructor|].
  apply scalar_ascii; assumption.
Qed.

Lemma digits_ascii u : Forall (fun c => 0 <= c < 128) (digits_of_uint u).
Proof. induction u; cbn [digits_of_uint]; constructor; try lia; assumption. Qed.

Lemma decimal_scalar z : scalar_text (decimal_of_Z z).
Proof.
  unfold decimal_of_Z; destruct (Z.to_int z).
  - apply ascii_scalar, digits_ascii.
  - apply scalar_ascii; [lia|]. apply ascii_scalar, digits_ascii.
Qed.

Lemma scalar_join parts :
  Forall scalar_text parts -> scalar_text (join [44] parts).
Proof.
  induction 1 as [|p parts Hp Hps IH]; [constructor|].
  destruct parts as [|q parts]; [exact Hp|].
  cbn [join] in *.
  apply scalar_text_app; [exact Hp|].
  cbn [List.app]; apply scalar_ascii; [lia|exact IH].
Qed.

Lemma literal_scalar (s : string) :
  forallb (fun c => (0 <=? c) && (c <? 128)) (js s) = true -> scalar_text (js s).
Proof.
  intros H; apply ascii_scalar.
  rewrite forallb_forall in H; apply Forall_forall; intros c Hc.
  specialize (H c Hc); apply andb_true_iff in H as [H1 H2].
  apply Z.leb_le in H1; apply Z.ltb_lt in H2; lia.
Qed.

(** The text of JSON data has no lone surrogate. *)
Lemma serialize_scalar v :
  json_data v -> forall txt, JSON.serialize v = Some txt -> scalar_text txt.
Proof.
  induction v as [| |b|n|s|l IHl|ps IHps] using value_ind';
    intros Hd txt Es;
    inversion Hd as [|b'|z Hz|s' Hs|l' Hl|ps' Hps Hord]; subst;
    cbn [JSON.serialize] in Es.
  - injection Es as <-; now apply literal_scalar.
  - destruct b; injection Es as <-; now apply literal_scalar.
  - injection Es as <-; apply decimal_scalar.
  - injection Es as <-.
    rewrite <- (app_nil_r (JSON.quote s)). apply scalar_quote; [exact Hs|constructor].
  - injection Es as <-.
    apply scalar_ascii; [lia|].
    apply scalar_text_app; [|apply scalar_ascii; [lia|constructor]].
    apply scalar_join.
    clear Hd. induction l as [|x l IHl']; [constructor|].
    inversion IHl as [|? ? HPx HPl]; subst. inversion Hl as [|? ? Hdx Hdl]; subst.
    destruct (json_reads_back x Hdx (size x) [] (Nat.le_refl _) I) as (tx & Ex & _ & _).
    cbn [JSON.elements]; rewrite Ex.
    constructor; [exact (HPx Hdx tx Ex)|exact (IHl' HPl Hdl)].
  - injection Es as <-.
    apply scalar_ascii; [lia|].
    apply scalar_text_app; [|apply scalar_ascii; [lia|constructor]].
    apply scalar_join.
    clear Hd Hord. induction ps as [|[k x] ps IHps']; [constructor|].
    inversion IHps as [|? ? HPx HPl]; subst. inversion Hps as [|? ? Hdx Hdl]; subst.
    cbn [fst snd] in HPx, Hdx; destruct Hdx as (Hk & Hdx).
    destruct (json_reads_back x Hdx (size x) [] (Nat.le_refl _) I) as (tx & Ex & _ & _).
    cbn [JSON.members]; rewrite Ex.
    constructor; [|exact (IHps' HPl Hdl)].
    apply scalar_quote; [exact Hk|].
    apply scalar_ascii; [lia|exact (HPx Hdx tx Ex)].
Qed.

Lemma stringify_scalar v : json_data v -> scalar_text (JSON.stringify v).
Proof.
  intros Hd.
  destruct (json_reads_back v Hd (size v) [] (Nat.le_refl _) I) as (txt & Es & _ & _).
  unfold JSON.stringify; rewrite Es.
  exact (serialize_scalar v Hd txt Es).
Qed.

(** The three layers together: a value that JSON can carry comes back
    from its transport form. *)
Lemma decode_encode_header v : json_data v -> decode_header (encode_header v) = Ok v.
Proof.
  intros Hd; unfold decode_header, encode_header.
  rewrite base64_decode_encode by (apply utf8_encode_octets, stringify_scalar, Hd).
  rewrite utf8_decode_encode by (apply stringify_scalar, Hd).
  apply parse_stringify, Hd.
Qed.



(** ** Payloads and receipts in transport form *)

Lemma literal_wf (s : jsstring) :
  forallb (fun c => (0 <=? c) && (c <? 65536)) s = true -> wf_string s.
Proof.
  intros H; apply Forall_forall; intros c Hc.
  rewrite forallb_forall in H; specialize (H c Hc).
  apply andb_true_iff in H as [H1 H2].
  apply Z.leb_le in H1; apply Z.ltb_lt in H2; unfold code_unit; lia.
Qed.

Lemma payload_is_json_data p :
  PaymentPayload.wf p -> json_data (PaymentPayload.to_value p).
Proof.
  intros (H1 & H2 & H3 & H4 & H5 & H6 & H7).
  apply data_obj; [|reflexivity].
  repeat (constructor;
          [split; [apply literal_wf; reflexivity|apply data_str; assumption]|]).
  constructor.
Qed.

Lemma payload_of_to_value p : PaymentPayload.of_value (PaymentPayload.to_value p) = Some p.
Proof. destruct p; reflexivity. Qed.







(* ================================================================== *)
(** ** Strings *)

Lemma str_eqb_refl (a : jsstring) : str_eqb a a = true.
Proof.
  induction a as [|x a IH]; simpl; [reflexivity|].
  now rewrite Z.eqb_refl, IH.
Qed.

Lemma str_eqb_eq (a b : jsstring) : str_eqb a b = true <-> a = b.
Proof.
  split.
  - revert b; induction a as [|x a IH]; intros [|y b] H; simpl in H;
      try discriminate; [reflexivity|].
    apply andb_true_iff in H as [Hx Hr].
    apply Z.eqb_eq in Hx; subst y.
    now rewrite (IH b Hr).
  - intros ->; apply str_eqb_refl.
Qed.

Lemma str_eqb_neq (a b : jsstring) : str_eqb a b = false <-> a <> b.
Proof.
  split.
  - intros H E; apply str_eqb_eq in E; congruence.
  - intros H; destruct (str_eqb a b) eqn:E; [|reflexivity].
    apply str_eqb_eq in E; contradiction.
Qed.

(** ** Verification *)

Lemma numeral_not_stuck radix l : numeral radix l <> Stuck.
Proof.
  unfold numeral; destruct l; [discriminate|].
  destruct (digits_value _ _ _); discriminate.
Qed.

Lemma BigInt_not_stuck s : BigInt s <> Stuck.
Proof.
  unfold BigInt.
  assert (N : forall radix l, negate (numeral radix l) <> Stuck).
  { intros radix l; pose proof (numeral_not_stuck radix l) as H.
    destruct (numeral radix l); simpl; congruence. }
  destruct (trim s) as [|c r]; [discriminate|].
  repeat match goal with
         | |- context [match ?x with _ => _ end] => destruct x
         end;
    try apply numeral_not_stuck; try apply N.
Qed.

Lemma getFullnodeUrl_not_stuck n : getFullnodeUrl n <> Stuck.
Proof.
  unfold getFullnodeUrl.
  repeat match goal with
         | |- context [if ?x then _ else _] => destruct x
         end; discriminate.
Qed.

Lemma getSuiClient_not_stuck n rpcUrl : getSuiClient n rpcUrl <> Stuck.
Proof.
  unfold getSuiClient.
  destruct rpcUrl as [[|c u]|]; try discriminate; apply getFullnodeUrl_not_stuck.
Qed.

Lemma fromB64_not_stuck s : fromB64 s <> Stuck.
Proof. unfold fromB64; destruct (Base64.forgiving_decode s); discriminate. Qed.

Lemma simulate_total {W} (env : Env W) p rpcUrl w :
  exists b, outcome (simulate env p rpcUrl w) = Ok b.
Proof.
  unfold simulate, try_catch, bind, lift, call, ret, console_error, emit, outcome.
  pose proof (getSuiClient_not_stuck (PaymentPayload.network p) rpcUrl) as Hc.
  pose proof (fromB64_not_stuck (PaymentPayload.transaction p)) as Hb.
  destruct (getSuiClient _ _) as [client|e|]; simpl; eauto; [|congruence].
  destruct (fromB64 _) as [tx|e|]; simpl; eauto; [|congruence].
  destruct (dryRunTransactionBlock _ _ _ _) as [[res|e] w1]; simpl; eauto.
  destruct (negb _); simpl; eauto.
Qed.



(** Once the field checks and the amount check pass, verification is the
    dry run and nothing else. *)
Lemma verifyPayment_checks_passed {W} (env : Env W) p r rpcUrl paid required :
  PaymentPayload.scheme p = js "exact" ->
  PaymentPayload.network p = PaymentRequirement.network r ->
  PaymentPayload.payTo p = PaymentRequirement.payTo r ->
  PaymentPayload.asset p = PaymentRequirement.asset r ->
  BigInt (PaymentPayload.amount p) = Ok paid ->
  BigInt (PaymentRequirement.maxAmountRequired r) = Ok required ->
  required <= paid ->
  forall w, verifyPayment env p r rpcUrl w = simulate env p rpcUrl w.
Proof.
  intros Hs Hn Hp Ha Hpaid Hreq Hle w.
  unfold verifyPayment, simulate.
  rewrite Hs, Hn, Hp, Ha, !str_eqb_refl, Hpaid, Hreq; simpl.
  unfold try_catch, bind, lift; simpl.
  replace (paid <? required) with false by (symmetry; apply Z.ltb_ge; exact Hle).
  destruct (getSuiClient _ _) as [client|e|]; simpl; try reflexivity.
  destruct (fromB64 _) as [tx|e|]; simpl; try reflexivity.
  unfold call.
  destruct (dryRunTransactionBlock _ _ _ _) as [[res|e] w1]; simpl; try reflexivity.
  destruct (negb _); reflexivity.
Qed.

(** C2.  [verifyPayment] answers [false] whenever the scheme is not
    "exact", or network, payee or asset differ from the requirement, or the
    amount read as an arbitrary-precision integer is below the required
    one; in each of these cases no call reaches the ledger: the world is
    unchanged and the only events are console messages. *)
Theorem verifyPayment_rejects_before_ledger {W} (env : Env W)
        (p : PaymentPayload.t) (r : PaymentRequirement.t)
        (rpcUrl : option jsstring) (w : W) :
  PaymentPayload.scheme p <> js "exact"
  \/ PaymentPayload.network p <> PaymentRequirement.network r
  \/ PaymentPayload.payTo p <> PaymentRequirement.payTo r
  \/ PaymentPayload.asset p <> PaymentRequirement.asset r
  \/ (exists paid required,
         BigInt (PaymentPayload.amount p) = Ok paid
         /\ BigInt (PaymentRequirement.maxAmountRequired r) = Ok required
         /\ paid < required) ->
  rejected_offline w (verifyPayment env p r rpcUrl w).
Proof.
  intros H.
  unfold rejected_offline, verifyPayment.
  destruct (str_eqb (PaymentPayload.scheme p) (js "exact")) eqn:Es;
    [|repeat split].
  destruct (str_eqb (PaymentPayload.network p) (PaymentRequirement.network r)) eqn:En;
    [|repeat split].
  destruct (str_eqb (PaymentPayload.payTo p) (PaymentRequirement.payTo r)) eqn:Ep;
    [|repeat split].
  destruct (str_eqb (PaymentPayload.asset p) (PaymentRequirement.asset r)) eqn:Ea;
    [|repeat split].
  apply str_eqb_eq in Es, En, Ep, Ea.
  destruct H as [H|[H|[H|[H|(paid & required & Hp & Hr & Hlt)]]]]; try contradiction.
  simpl; unfold try_catch, bind, lift; rewrite Hp, Hr; simpl.
  apply Z.ltb_lt in Hlt; rewrite Hlt.
  repeat split.
Qed.

Lemma verifyPayment_rejects_before_ledger_witness :
  rejected_offline tt (verifyPayment Sample.env Sample.underpaid Sample.requirement None tt).
Proof.
  apply (verifyPayment_rejects_before_ledger Sample.env Sample.underpaid
           Sample.requirement None tt).
  right; right; right; right.
  exists 500000000, 1000000000.
  repeat split; vm_compute; reflexivity.
Defined.

(** C3.  [verifyPayment] always returns a boolean and never throws.  A
    malformed amount, text that is not base64 where the transaction should
    be, an unknown network, and a ledger that raises on the dry run all
    yield [false]. *)
Theorem verifyPayment_never_throws {W} (env : Env W)
        (p : PaymentPayload.t) (r : PaymentRequirement.t)
        (rpcUrl : option jsstring) (w : W) :
  exists b : bool,
    outcome (verifyPayment env p r rpcUrl w) = Ok b
    /\ ((exists e, BigInt (PaymentPayload.amount p) = Throw e) -> b = false)
    /\ ((exists e, BigInt (PaymentRequirement.maxAmountRequired r) = Throw e) -> b = false)
    /\ ((exists e, fromB64 (PaymentPayload.transaction p) = Throw e) -> b = false)
    /\ ((exists e, getSuiClient (PaymentPayload.network p) rpcUrl = Throw e) -> b = false)
    /\ ((forall client tx, exists e w',
            dryRunTransactionBlock env client tx w = (Raises e, w')) -> b = false).
Proof.
  unfold verifyPayment.
  destruct (str_eqb (PaymentPayload.scheme p) (js "exact"));
    [|exists false; simpl; repeat split; auto].
  destruct (str_eqb (PaymentPayload.network p) (PaymentRequirement.network r));
    [|exists false; simpl; repeat split; auto].
  destruct (str_eqb (PaymentPayload.payTo p) (PaymentRequirement.payTo r));
    [|exists false; simpl; repeat split; auto].
  destruct (str_eqb (PaymentPayload.asset p) (PaymentRequirement.asset r));
    [|exists false; simpl; repeat split; auto].
  simpl; unfold try_catch, bind, lift, call, ret, console_error, emit, outcome.
  pose proof (BigInt_not_stuck (PaymentPayload.amount p)) as N1.
  pose proof (BigInt_not_stuck (PaymentRequirement.maxAmountRequired r)) as N2.
  pose proof (getSuiClient_not_stuck (PaymentPayload.network p) rpcUrl) as N3.
  pose proof (fromB64_not_stuck (PaymentPayload.transaction p)) as N4.
  destruct (BigInt (PaymentPayload.amount p)) as [paid|e1|];
    [|exists false; simpl; repeat split; auto|congruence].
  destruct (BigInt (PaymentRequirement.maxAmountRequired r)) as [required|e2|];
    [|exists false; simpl; repeat split; auto|congruence].
  destruct (paid <? required); [exists false; simpl; repeat split; auto|].
  destruct (getSuiClient _ _) as [client|e3|];
    [|exists false; simpl; repeat split; auto|congruence].
  destruct (fromB64 _) as [tx|e4|];
    [|exists false; simpl; repeat split; auto|congruence].
  destruct (dryRunTransactionBlock env client tx w) as [[res|e5] w1] eqn:Ed;
    [|exists false; simpl; repeat split; auto].
  destruct (negb (str_eqb (status res) (js "success")));
    [exists false; simpl; repeat split; auto|].
  exists true; simpl.
  split; [reflexivity|].
  repeat split; intros H.
  - destruct H as [e H]; discriminate.
  - destruct H as [e H]; discriminate.
  - destruct H as [e H]; discriminate.
  - destruct H as [e H]; discriminate.
  - destruct (H client tx) as (e & w' & H'); congruence.
Qed.



(** ** The interceptor *)

(** C4.  On a protected route (the path is in the routes configuration and
    the method is covered) a request without a payment header is answered
    402 with the body [{ x402Version: 1, error, accepts }]; [accepts] holds
    a requirement whose [maxAmountRequired] is the configured price,
    verbatim, and whose [asset] is the coin type of the token the
    middleware was configured with, or "0x2::sui::SUI" when it was
    configured with none. *)
Theorem missing_payment_is_challenged {W} (env : Env W)
        (payTo : jsstring) (routes : RoutesConfig)
        (facilitator : option FacilitatorConfig.t) (x402Config : option X402Config.t)
        (req : Request.t) (next : option value -> W -> Handled * W) (w : W)
        (routeConfig : RouteConfig.t) :
  lookup (Request.path req) routes = Some routeConfig ->
  covers routeConfig (Request.method req) = true ->
  no_payment req ->
  exists (error : jsstring) (r : PaymentRequirement.t),
    paymentMiddleware env payTo routes facilitator x402Config req next w
    = (Ok (Json 402 (VObj [(js "x402Version", VNum (Int 1));
                           (js "error", VStr error);
                           (js "accepts", VArr [PaymentRequirement.to_value r])])),
       w, [])
    /\ PaymentRequirement.maxAmountRequired r = RouteConfig.price routeConfig
    /\ PaymentRequirement.asset r
       = match x402Config with
         | Some (X402Config.mk _ (Some token)) => TokenConfig.coinType token
         | _ => js "0x2::sui::SUI"
         end
    /\ get (PaymentRequirement.to_value r) (js "maxAmountRequired")
       = Ok (VStr (RouteConfig.price routeConfig))
    /\ get (PaymentRequirement.to_value r) (js "asset")
       = Ok (VStr (PaymentRequirement.asset r)).
Proof.
  intros Hroute Hmethod Hheader.
  exists (js "X-PAYMENT header is required"),
         (challenge_requirement payTo facilitator x402Config req routeConfig).
  split.
  - unfold paymentMiddleware, covers in *.
    rewrite Hroute, Hmethod; simpl.
    destruct Hheader as [-> | ->]; reflexivity.
  - split; [reflexivity|].
    split; [destruct x402Config as [[sui [token|]]|]; reflexivity|].
    unfold PaymentRequirement.to_value, challenge_requirement; simpl.
    destruct facilitator; split; reflexivity.
Qed.

Lemma missing_payment_is_challenged_witness :
  (exists (error : jsstring) (r : PaymentRequirement.t),
      paymentMiddleware Sample.env Sample.payTo Sample.routes (Some Sample.facilitator)
                        (Some (X402Config.mk (SuiConfig.mk (js "sui-testnet") None None)
                                 (Some (TokenConfig.mk (js "0xa1ec::usdc::USDC") 6
                                          (js "USD Coin") (Some (js "USDC"))))))
                        (Sample.request []) (Sample.handler 200) tt
      = (Ok (Json 402 (VObj [(js "x402Version", VNum (Int 1));
                             (js "error", VStr error);
                             (js "accepts", VArr [PaymentRequirement.to_value r])])),
         tt, [])
      /\ PaymentRequirement.maxAmountRequired r = js "1000000000"
      /\ PaymentRequirement.asset r = js "0xa1ec::usdc::USDC"
      /\ get (PaymentRequirement.to_value r) (js "maxAmountRequired")
         = Ok (VStr (js "1000000000"))
      /\ get (PaymentRequirement.to_value r) (js "asset")
         = Ok (VStr (PaymentRequirement.asset r)))
  /\ (exists (error : jsstring) (r : PaymentRequirement.t),
         paymentMiddleware Sample.env Sample.payTo Sample.routes None None
                           (Sample.request []) (Sample.handler 200) tt
         = (Ok (Json 402 (VObj [(js "x402Version", VNum (Int 1));
                                (js "error", VStr error);
                                (js "accepts", VArr [PaymentRequirement.to_value r])])),
            tt, [])
         /\ PaymentRequirement.maxAmountRequired r = js "1000000000"
         /\ PaymentRequirement.asset r = js "0x2::sui::SUI"
         /\ get (PaymentRequirement.to_value r) (js "maxAmountRequired")
            = Ok (VStr (js "1000000000"))
         /\ get (PaymentRequirement.to_value r) (js "asset")
            = Ok (VStr (PaymentRequirement.asset r))).
Proof.
  split.
  - apply (missing_payment_is_challenged Sample.env Sample.payTo Sample.routes
             (Some Sample.facilitator)
             (Some (X402Config.mk (SuiConfig.mk (js "sui-testnet") None None)
                      (Some (TokenConfig.mk (js "0xa1ec::usdc::USDC") 6
                               (js "USD Coin") (Some (js "USDC"))))))
             (Sample.request []) (Sample.handler 200) tt Sample.weather).
    + reflexivity.
    + reflexivity.
    + left; reflexivity.
  - apply (missing_payment_is_challenged Sample.env Sample.payTo Sample.routes
             None None (Sample.request []) (Sample.handler 200) tt Sample.weather).
    + reflexivity.
    + reflexivity.
    + left; reflexivity.
Defined.

(** C6.  With a facilitator configured whose [/verify] endpoint cannot be
    reached, a request that carries a well-formed payment is answered 402
    and nothing propagates; the error message, though, is the one of the
    catch-all handler, "Invalid payment format", and not "Payment
    verification failed". *)
Theorem unreachable_facilitator_reports_invalid_format {W} (env : Env W)
        (next : option value -> W -> Handled * W) (w : W) :
  exists init,
    paymentMiddleware (Sample.unreachable env) Sample.payTo Sample.routes
                      (Some Sample.facilitator) None Sample.paid_request next w
    = (Ok (Json 402 (VObj [(js "x402Version", VNum (Int 1));
                           (js "error", VStr (js "Invalid payment format"))])),
       w,
       [HttpFetch (js "http://localhost:3002/verify") init;
        Console LogError (js "Payment processing error:")]).
Proof.
  eexists. vm_compute. reflexivity.
Qed.

(** ** Middleware and transport composed *)

(** C1.  The transport in front of the middleware: the route is priced
    "1000000000" of the native asset and the client sends no payment.
    The middleware answers 402 with the requirements in the body; the
    transport looks for them in an [x-payment-required] header, finds none,
    and raises.  No payment is built and the request is not retried. *)
Theorem challenge_is_lost_between_server_and_client {W} (env : Env W)
        (facilitator : option FacilitatorConfig.t)
        (handler : Request.t -> option value -> W -> Handled * W) (w : W) :
  wrapFetchWithPayment env
    (server env Sample.payTo Sample.routes facilitator None handler)
    Sample.signer None None None (js "http://localhost:4021/weather") None w
  = (Throw (Err (js "402 status but no x-payment-required header found")),
     w,
     [Invoke (js "http://localhost:4021/weather") None]).
Proof.
  reflexivity.
Qed.



(** ** Traces of composed computations *)

Lemma events_bind {W A B} (m : M W A) (k : A -> M W B) w :
  events (bind m k w)
  = events (m w) ++ match outcome (m w) with
                    | Ok a => events (k a (world_after (m w)))
                    | _ => []
                    end.
Proof.
  unfold bind, events, outcome, world_after.
  destruct (m w) as [[[a|e|] w1] t1]; simpl; try (now rewrite app_nil_r).
  now destruct (k a w1) as [[r w2] t2].
Qed.

Lemma events_try_catch {W A} (m : M W A) (h : Error -> M W A) w :
  events (try_catch m h w)
  = events (m w) ++ match outcome (m w) with
                    | Throw e => events (h e (world_after (m w)))
                    | _ => []
                    end.
Proof.
  unfold try_catch, events, outcome, world_after.
  destruct (m w) as [[[a|e|] w1] t1]; simpl; try (now rewrite app_nil_r).
  now destruct (h e w1) as [[r w2] t2].
Qed.

Lemma events_call {W A} (e : Event) (f : W -> Reply A * W) w :
  events (call e f w) = [e].
Proof. unfold call, events; now destruct (f w) as [[a|x] w1]. Qed.

Lemma bind_Ok_inv {W A B} (m : M W A) (k : A -> M W B) w b w' t :
  bind m k w = (Ok b, w', t) ->
  exists a w1 t1 t2,
    m w = (Ok a, w1, t1) /\ k a w1 = (Ok b, w', t2) /\ t = t1 ++ t2.
Proof.
  unfold bind.
  destruct (m w) as [[[a|e|] w1] t1]; try discriminate.
  destruct (k a w1) as [[r w2] t2] eqn:Ek.
  intros E; injection E as -> -> <-.
  now exists a, w1, t1, t2.
Qed.

Lemma try_catch_Ok_inv {W A} (m : M W A) (h : Error -> M W A) w b w' t :
  try_catch m h w = (Ok b, w', t) ->
  m w = (Ok b, w', t)
  \/ exists e w1 t1 t2,
       m w = (Throw e, w1, t1) /\ h e w1 = (Ok b, w', t2) /\ t = t1 ++ t2.
Proof.
  unfold try_catch.
  destruct (m w) as [[[a|e|] w1] t1]; try discriminate.
  - intros E; now left.
  - destruct (h e w1) as [[r w2] t2] eqn:Eh.
    intros E; injection E as -> -> <-.
    right; now exists e, w1, t1, t2.
Qed.

Lemma lift_Ok_inv {W A} (o : Outcome A) (w : W) a w' t :
  lift o w = (Ok a, w', t) -> o = Ok a /\ w' = w /\ t = [].
Proof. unfold lift; intros E; injection E as -> <- <-; auto. Qed.

Lemma ret_inv {W A} (a : A) (w w' : W) o t :
  ret a w = (o, w', t) -> o = Ok a /\ w' = w /\ t = [].
Proof. unfold ret; intros E; injection E as <- <- <-; auto. Qed.

(** ** What a run may do *)

Lemma only_ret {W A} P (a : A) : only P (@ret W A a).
Proof. intros w; reflexivity. Qed.

Lemma only_throw {W A} P e : only P (@throw W A e).
Proof. intros w; reflexivity. Qed.

Lemma only_stuck {W A} P : only P (@stuck W A).
Proof. intros w; reflexivity. Qed.

Lemma only_lift {W A} P (o : Outcome A) : only P (@lift W A o).
Proof. intros w; reflexivity. Qed.

Lemma only_emit {W} (P : Event -> bool) e : P e = true -> only P (@emit W e).
Proof. intros H w; unfold emit, events; cbn; now rewrite H. Qed.

Lemma only_call {W A} (P : Event -> bool) e (f : W -> Reply A * W) :
  P e = true -> only P (call e f).
Proof. intros H w; rewrite events_call; cbn; now rewrite H. Qed.

Lemma only_bind {W A B} P (m : M W A) (k : A -> M W B) :
  only P m -> (forall x, only P (k x)) -> only P (bind m k).
Proof.
  intros Hm Hk w; rewrite events_bind, forallb_app, (Hm w).
  destruct (outcome (m w)) as [x| |]; [apply Hk|reflexivity..].
Qed.

Lemma only_try_catch {W A} P (m : M W A) (h : Error -> M W A) :
  only P m -> (forall e, only P (h e)) -> only P (try_catch m h).
Proof.
  intros Hm Hh w; rewrite events_try_catch, forallb_app, (Hm w).
  destruct (outcome (m w)) as [|e|]; [reflexivity|apply Hh|reflexivity].
Qed.

Ltac only_step :=
  first
    [ apply only_ret | apply only_throw | apply only_stuck | apply only_lift
    | apply only_emit; reflexivity | apply only_call; reflexivity
    | apply only_bind; [|intros ?]
    | apply only_try_catch; [|intros ?]
    | match goal with
      | |- only _ (match ?x with _ => _ end) => destruct x
      | |- only _ (let (_, _) := ?x in _) => destruct x
      | |- only _ (fun w => let (_, _) := ?f w in _) =>
          let w := fresh "w" in intros w; unfold events; destruct (f w); reflexivity
      end ].

Lemma settled_ret {W A} (a : A) : settled (@ret W A a).
Proof. intros w; discriminate. Qed.

Lemma settled_throw {W A} e : settled (@throw W A e).
Proof. intros w; discriminate. Qed.

Lemma settled_lift {W A} (o : Outcome A) : o <> Stuck -> settled (@lift W A o).
Proof. intros H w; exact H. Qed.

Lemma settled_emit {W} e : settled (@emit W e).
Proof. intros w; discriminate. Qed.

Lemma settled_call {W A} e (f : W -> Reply A * W) : settled (call e f).
Proof. intros w; unfold call, outcome; destruct (f w) as [[a|x] w1]; discriminate. Qed.

Lemma outcome_bind {W A B} (m : M W A) (k : A -> M W B) w :
  outcome (bind m k w)
  = match outcome (m w) with
    | Ok a => outcome (k a (world_after (m w)))
    | Throw e => Throw e
    | Stuck => Stuck
    end.
Proof.
  unfold bind, outcome, world_after.
  destruct (m w) as [[[a|e|] w1] t1]; cbn; try reflexivity.
  now destruct (k a w1) as [[r w2] t2].
Qed.

Lemma outcome_try_catch {W A} (m : M W A) (h : Error -> M W A) w :
  outcome (try_catch m h w)
  = match outcome (m w) with
    | Throw e => outcome (h e (world_after (m w)))
    | other => other
    end.
Proof.
  unfold try_catch, outcome, world_after.
  destruct (m w) as [[[a|e|] w1] t1]; cbn; try reflexivity.
  now destruct (h e w1) as [[r w2] t2].
Qed.

Lemma settled_bind {W A B} (m : M W A) (k : A -> M W B) :
  settled m -> (forall x, settled (k x)) -> settled (bind m k).
Proof.
  intros Hm Hk w; rewrite outcome_bind.
  specialize (Hm w).
  destruct (outcome (m w)) as [x| |]; [apply Hk|discriminate|contradiction].
Qed.

Lemma settled_try_catch {W A} (m : M W A) (h : Error -> M W A) :
  settled m -> (forall e, settled (h e)) -> settled (try_catch m h).
Proof.
  intros Hm Hh w; rewrite outcome_try_catch.
  specialize (Hm w).
  destruct (outcome (m w)) as [|e|]; [discriminate|apply Hh|contradiction].
Qed.

(** ** Settlement *)

Lemma settle_url_is_settlement url init :
  is_settlement (HttpFetch (url ++ js "/settle") init) = true.
Proof.
  unfold is_settlement, ends_with.
  rewrite rev_app_distr; reflexivity.
Qed.

Lemma verify_url_is_not_settlement url init :
  is_settlement (HttpFetch (url ++ js "/verify") init) = false.
Proof.
  unfold is_settlement, ends_with.
  rewrite rev_app_distr; reflexivity.
Qed.

Lemma settles_cons_settle url init t :
  settles (HttpFetch (url ++ js "/settle") init :: t) = true.
Proof.
  unfold settles; cbn [existsb].
  now rewrite settle_url_is_settlement.
Qed.

Lemma settles_app t1 t2 : settles (t1 ++ t2) = settles t1 || settles t2.
Proof. apply existsb_app. Qed.

Lemma verifyPayment_does_not_settle {W} (env : Env W) p r rpcUrl w :
  settles (events (verifyPayment env p r rpcUrl w)) = false.
Proof.
  unfold verifyPayment.
  repeat match goal with
         | |- context [if negb (str_eqb ?a ?b) then _ else _] =>
             destruct (str_eqb a b); simpl; [|reflexivity]
         end.
  unfold try_catch, bind, lift, call, ret, console_error, emit, events.
  destruct (BigInt (PaymentPayload.amount p)); simpl; try reflexivity.
  destruct (BigInt (PaymentRequirement.maxAmountRequired r)); simpl; try reflexivity.
  destruct (_ <? _); simpl; try reflexivity.
  destruct (getSuiClient _ _); simpl; try reflexivity.
  destruct (fromB64 _); simpl; try reflexivity.
  destruct (dryRunTransactionBlock _ _ _ _) as [[res|e] w1]; simpl; try reflexivity.
  destruct (negb _); reflexivity.
Qed.

Lemma verification_does_not_settle t : forallb is_verification t = true -> settles t = false.
Proof.
  induction t as [|e t IH]; [reflexivity|]; cbn.
  intros H; apply andb_true_iff in H as [He Ht].
  unfold settles in IH; rewrite (IH Ht), orb_false_r.
  destruct e; try discriminate; reflexivity.
Qed.

Lemma untyped_verifyPayment_only {W} (env : Env W) payload requirement rpcUrl :
  only is_verification (Untyped.verifyPayment env payload requirement rpcUrl).
Proof.
  unfold Untyped.verifyPayment, console_error.
  repeat only_step.
Qed.

Lemma on_finish_settles {W} (env : Env W) facilitator payload h w :
  settles (events (on_finish env facilitator payload h w)) = true
  <-> settlement_due facilitator h.
Proof.
  unfold on_finish, settlement_due.
  destruct (viaSend h); simpl.
  2:{ split; [discriminate|]. intros (_ & H & _); discriminate. }
  destruct (statusCode h <? 400) eqn:Hs; simpl.
  2:{ split; [discriminate|]. intros (_ & _ & H). apply Z.ltb_ge in Hs. lia. }
  apply Z.ltb_lt in Hs.
  destruct facilitator as [f|]; simpl.
  2:{ split; [discriminate|]. intros (H & _); congruence. }
  split; [intros _; repeat split; [discriminate|exact Hs]|intros _].
  rewrite events_try_catch, events_bind, events_call, <- !app_assoc.
  apply settles_cons_settle.
Qed.

(** The listener catches whatever goes wrong with the settlement. *)
Lemma on_finish_never_throws {W} (env : Env W) facilitator payload h w e :
  outcome (on_finish env facilitator payload h w) <> Throw e.
Proof.
  unfold on_finish.
  destruct (viaSend h && (statusCode h <? 400)); [|discriminate].
  unfold try_catch, outcome.
  match goal with
  | |- context [match ?m w with _ => _ end] => destruct (m w) as [[o w1] t1]
  end.
  destruct o; simpl; discriminate.
Qed.

(** When the settle endpoint is out of reach or refuses, the listener
    writes one line to the error log and that is all. *)
Lemma on_finish_failure_is_logged {W} (env : Env W) f payload h w :
  viaSend h = true -> statusCode h < 400 ->
  (exists e w', fetch env (FacilitatorConfig.url f ++ js "/settle")
                      (facilitator_init f (VObj [(js "paymentPayload", payload)])) w
                = (Raises e, w'))
  \/ (exists resp w', fetch env (FacilitatorConfig.url f ++ js "/settle")
                            (facilitator_init f (VObj [(js "paymentPayload", payload)])) w
                      = (Returns resp, w') /\ Response.ok resp = false) ->
  exists label,
    outcome (on_finish env (Some f) payload h w) = Ok tt
    /\ events (on_finish env (Some f) payload h w)
       = [HttpFetch (FacilitatorConfig.url f ++ js "/settle")
                    (facilitator_init f (VObj [(js "paymentPayload", payload)]));
          Console LogError label].
Proof.
  intros Hv Hs Hf.
  unfold on_finish. rewrite Hv. apply Z.ltb_lt in Hs; rewrite Hs; simpl.
  unfold try_catch, bind, call.
  destruct Hf as [(e & w' & ->)|(resp & w' & -> & Hok)]; simpl.
  - eexists; split; reflexivity.
  - rewrite Hok; simpl. eexists; split; reflexivity.
Qed.



(** A run that delivers the resource: what precedes the handler does not
    settle, and what follows it is the [finish] listener. *)
Lemma delivered_run {W} (env : Env W) payTo routes facilitator x402Config req next w h :
  outcome (paymentMiddleware env payTo routes facilitator x402Config req next w)
  = Ok (Delivered h) ->
  exists payload before w1,
    settles before = false
    /\ h = fst (next (Some payload) w1)
    /\ events (paymentMiddleware env payTo routes facilitator x402Config req next w)
       = before ++ Handler
                :: events (on_finish env facilitator payload h (snd (next (Some payload) w1))).
Proof.
  destruct (paymentMiddleware env payTo routes facilitator x402Config req next w)
    as [[o w'] t] eqn:Erun.
  unfold outcome; cbn [fst]; intros ->.
  unfold events; cbn [snd].
  revert Erun; unfold paymentMiddleware.
  destruct (lookup (Request.path req) routes) as [routeConfig|].
  2:{ unfold bind, ret; destruct (next None w); discriminate. }
  destruct (negb _).
  { unfold bind, ret; destruct (next None w); discriminate. }
  destruct (lookup (js "x-payment") (Request.headers req)) as [[|c hdr]|];
    try discriminate.
  intros Erun.
  apply try_catch_Ok_inv in Erun as [Erun|(e & w1 & t1 & t2 & _ & Eh & _)].
  2:{ unfold bind, console_error, emit, ret in Eh; discriminate. }
  apply bind_Ok_inv in Erun as (payload & w1 & t1 & t2 & Ed & Erun & ->).
  apply lift_Ok_inv in Ed as (Ed & -> & ->).
  apply bind_Ok_inv in Erun as (isValid & wv & tv & t3 & Everify & Erun & ->).
  exists payload.
  assert (Hpre : settles tv = false).
  { destruct facilitator as [f|].
    - apply bind_Ok_inv in Everify as (resp & w2 & t4 & t5 & Ec & Ek & ->).
      pose proof (events_call (HttpFetch (FacilitatorConfig.url f ++ js "/verify")
                    (facilitator_init f
                       (VObj [(js "paymentPayload", payload);
                              (js "paymentRequirement",
                               PaymentRequirement.to_value
                                 (expected_requirement payTo x402Config req routeConfig))])))
                    (fetch env (FacilitatorConfig.url f ++ js "/verify")
                       (facilitator_init f
                       (VObj [(js "paymentPayload", payload);
                              (js "paymentRequirement",
                               PaymentRequirement.to_value
                                 (expected_requirement payTo x402Config req routeConfig))])))
                    w) as Hc.
      rewrite Ec in Hc; unfold events in Hc; cbn [snd] in Hc; subst t4.
      rewrite settles_app.
      unfold settles at 1; cbn [existsb]; rewrite verify_url_is_not_settlement.
      destruct (Response.ok resp).
      + apply ret_inv in Ek as (_ & _ & ->); reflexivity.
      + unfold bind, console_error, emit, ret in Ek; injection Ek as _ _ <-; reflexivity.
    - apply verification_does_not_settle.
      pose proof (untyped_verifyPayment_only env payload
                    (PaymentRequirement.to_value
                       (expected_requirement payTo x402Config req routeConfig))
                    (rpcUrl x402Config) w) as Hs.
      rewrite Everify in Hs; exact Hs. }
  destruct isValid; cbn [negb] in Erun; [|discriminate].
  apply bind_Ok_inv in Erun as (h0 & wn & tn & t4 & En & Erun & ->).
  destruct (next (Some payload) wv) as [h1 wn1] eqn:Enext.
  injection En as E1 E2 E3; subst h0 wn tn.
  apply bind_Ok_inv in Erun as ([] & wf & tf & t5 & Ef & Erun & ->).
  apply ret_inv in Erun as (Eh & -> & ->).
  injection Eh as Eh; subst h.
  unfold detached in Ef.
  destruct (on_finish env facilitator payload h1 wn1) as [[ofin wf'] tf'] eqn:Efin.
  injection Ef as E1 E2; subst wf' tf'.
  exists tv, wv.
  rewrite Enext; cbn [fst snd]. rewrite Efin; cbn [snd].
  repeat split; [exact Hpre|].
  now rewrite app_nil_r.
Qed.



Lemma delivery_without_settlement :
  let run := paymentMiddleware Sample.env Sample.payTo Sample.routes None None
                               Sample.paid_request (Sample.handler 200) tt in
  outcome run = Ok (Delivered (mkHandled true 200 (js "{}")))
  /\ 200 < 400
  /\ settles (events run) = false.
Proof. vm_compute. repeat split. Qed.

(** C5, as the code has it.  When a verified payment has been followed by
    the handler's response, the Settler is called if and only if a
    facilitator is configured, the handler answered through [res.send] or
    [res.json], and the status it answered with is below 400; the call goes
    to the facilitator's settle endpoint.  With a status of 400 or more, or
    without a facilitator, nothing is settled.  The listener that settles
    never throws, and a settle request that fails or is refused leaves one
    line in the error log and nothing else; the verdict remains the
    handler's response. *)
Theorem settlement_follows_delivery {W} (env : Env W)
        (payTo : jsstring) (routes : RoutesConfig)
        (facilitator : option FacilitatorConfig.t) (x402Config : option X402Config.t)
        (req : Request.t) (next : option value -> W -> Handled * W) (w : W)
        (h : Handled) :
  outcome (paymentMiddleware env payTo routes facilitator x402Config req next w)
  = Ok (Delivered h) ->
  (settles (events (paymentMiddleware env payTo routes facilitator x402Config req next w))
   = true <-> settlement_due facilitator h)
  /\ (400 <= statusCode h ->
      settles (events (paymentMiddleware env payTo routes facilitator x402Config req next w))
      = false)
  /\ (forall payload w1 e,
         outcome (on_finish env facilitator payload h w1) <> Throw e)
  /\ (forall f payload w1,
         facilitator = Some f -> viaSend h = true -> statusCode h < 400 ->
         (exists e w', fetch env (FacilitatorConfig.url f ++ js "/settle")
                             (facilitator_init f (VObj [(js "paymentPayload", payload)])) w1
                       = (Raises e, w'))
         \/ (exists resp w', fetch env (FacilitatorConfig.url f ++ js "/settle")
                             (facilitator_init f (VObj [(js "paymentPayload", payload)])) w1
                             = (Returns resp, w') /\ Response.ok resp = false) ->
         exists label,
           events (on_finish env facilitator payload h w1)
           = [HttpFetch (FacilitatorConfig.url f ++ js "/settle")
                        (facilitator_init f (VObj [(js "paymentPayload", payload)]));
              Console LogError label]).
Proof.
  intros Hrun.
  destruct (delivered_run env payTo routes facilitator x402Config req next w h Hrun)
    as (payload & before & w1 & Hbefore & Hh & Hev).
  assert (Hiff : settles (events (paymentMiddleware env payTo routes facilitator
                                    x402Config req next w)) = true
                 <-> settlement_due facilitator h).
  { rewrite Hev, settles_app, Hbefore; cbn [orb].
    change (Handler :: ?t) with ([Handler] ++ t).
    rewrite settles_app; cbn [settles existsb is_settlement orb].
    apply on_finish_settles. }
  split; [exact Hiff|].
  split.
  { intros Hs.
    apply not_true_is_false; intros E.
    apply Hiff in E as (_ & _ & Hlt); lia. }
  split; [intros; apply on_finish_never_throws|].
  intros f payload' w1' -> Hv Hs Hf.
  destruct (on_finish_failure_is_logged env f payload' h w1' Hv Hs Hf) as (label & _ & He).
  now exists label.
Qed.

Lemma settlement_follows_delivery_witness :
  let run := paymentMiddleware Sample.env Sample.payTo Sample.routes
                               (Some Sample.facilitator) None
                               Sample.paid_request (Sample.handler 200) tt in
  settles (events run) = true
  <-> settlement_due (Some Sample.facilitator) (mkHandled true 200 (js "{}")).
Proof.
  apply (settlement_follows_delivery Sample.env Sample.payTo Sample.routes
           (Some Sample.facilitator) None Sample.paid_request (Sample.handler 200) tt
           (mkHandled true 200 (js "{}"))).
  vm_compute; reflexivity.
Defined.



(** ** The transport *)

Lemma invocations_app t1 t2 : invocations (t1 ++ t2) = (invocations t1 + invocations t2)%nat.
Proof. unfold invocations; now rewrite filter_app, length_app. Qed.

Lemma at_most_ret {W A} (a : A) : at_most 0 (@ret W A a).
Proof. intros w; apply Nat.le_refl. Qed.

Lemma at_most_throw {W A} e : at_most 0 (@throw W A e).
Proof. intros w; apply Nat.le_refl. Qed.

Lemma at_most_stuck {W A} : at_most 0 (@stuck W A).
Proof. intros w; apply Nat.le_refl. Qed.

Lemma at_most_lift {W A} (o : Outcome A) : at_most 0 (@lift W A o).
Proof. intros w; apply Nat.le_refl. Qed.

Lemma at_most_emit {W} e : is_invoke e = false -> at_most 0 (@emit W e).
Proof. intros H w; unfold emit, events, invocations; simpl; now rewrite H. Qed.

Lemma at_most_call {W A} e (f : W -> Reply A * W) :
  is_invoke e = false -> at_most 0 (call e f).
Proof.
  intros H w; rewrite events_call; unfold invocations; simpl; now rewrite H.
Qed.

Lemma at_most_bind {W A B} a b (m : M W A) (k : A -> M W B) :
  at_most a m -> (forall x, at_most b (k x)) -> at_most (a + b) (bind m k).
Proof.
  intros Hm Hk w; rewrite events_bind, invocations_app.
  specialize (Hm w).
  destruct (outcome (m w)) as [x| |];
    [specialize (Hk x (world_after (m w)))|..]; cbv iota;
    try change (invocations []) with 0%nat; lia.
Qed.

Lemma at_most_try_catch {W A} a b (m : M W A) (h : Error -> M W A) :
  at_most a m -> (forall e, at_most b (h e)) -> at_most (a + b) (try_catch m h).
Proof.
  intros Hm Hh w; rewrite events_try_catch, invocations_app.
  specialize (Hm w).
  destruct (outcome (m w)) as [|e|];
    [|specialize (Hh e (world_after (m w)))|]; cbv iota;
    try change (invocations []) with 0%nat; lia.
Qed.

Ltac quiet :=
  repeat first
    [ apply at_most_ret | apply at_most_throw | apply at_most_stuck | apply at_most_lift
    | apply at_most_emit; reflexivity | apply at_most_call; reflexivity
    | apply (at_most_bind 0 0); [|intros ?]
    | apply (at_most_try_catch 0 0); [|intros ?]
    | match goal with
      | |- at_most _ (match ?x with _ => _ end) => destruct x
      | |- at_most _ (let (_, _) := ?x in _) => destruct x
      end ].

Lemma createPaymentHeader_quiet {W} (env : Env W) r signer rpcUrl :
  at_most 0 (createPaymentHeader env r signer rpcUrl).
Proof.
  unfold createPaymentHeader, createAndSignPayment, console_error.
  quiet.
Qed.

Lemma pure_selector_is_quiet {W} (selector : option (value -> value)) :
  @selector_is_quiet W (pure_selector selector).
Proof.
  intros select requirements; destruct selector as [f|]; [|discriminate].
  intros [= <-]. apply at_most_ret.
Qed.

Section TransportProperties.
Context {W : Type} (env : Env W).
Variable fetchFn : jsstring -> option RequestInit.t -> M W Response.t.
Variable signer : SuiSigner.
Variable paymentRequirementsSelector : option (value -> M W value).
Variable config : option X402Config.t.

Lemma decodeXPaymentRequired_quiet header : at_most 0 (@decodeXPaymentRequired W header).
Proof. unfold decodeXPaymentRequired, console_error; quiet. Qed.

Lemma decodeXPaymentResponse_quiet header : at_most 0 (@decodeXPaymentResponse W header).
Proof. unfold decodeXPaymentResponse, console_error; quiet. Qed.

Lemma select_value_quiet response :
  selector_is_quiet paymentRequirementsSelector ->
  at_most 0 (select_value paymentRequirementsSelector response).
Proof.
  intros Hsel. unfold select_value.
  destruct (lookup _ _) as [[|c h]|]; try apply at_most_throw.
  apply (at_most_bind 0 0); [apply decodeXPaymentRequired_quiet|intros requirements].
  apply (at_most_bind 0 0); [apply at_most_lift|intros len].
  assert (Hrest : at_most 0
                    (bind match paymentRequirementsSelector with
                          | Some select => select requirements
                          | None => lift (get requirements (js "0"))
                          end
                       (fun selectedRequirement : value =>
                          if negb (truthy selectedRequirement)
                          then throw (Err (js "No suitable payment requirement found"))
                          else ret selectedRequirement))).
  { apply (at_most_bind 0 0).
    - destruct paymentRequirementsSelector as [select|] eqn:E;
        [exact (Hsel select requirements eq_refl)|apply at_most_lift].
    - intros x; destruct (negb (truthy x)); [apply at_most_throw|apply at_most_ret]. }
  destruct len as [| |b|[z| | |]|s|l|ps]; try exact Hrest.
  destruct z; [apply at_most_throw|exact Hrest..].
Qed.

Lemma select_requirement_quiet response :
  selector_is_quiet paymentRequirementsSelector ->
  at_most 0 (select_requirement paymentRequirementsSelector response).
Proof.
  intros Hsel. unfold select_requirement.
  apply (at_most_bind 0 0); [apply select_value_quiet, Hsel|intros v].
  unfold as_requirement; quiet.
Qed.

Lemma check_budget_quiet maxValue selected : at_most 0 (@check_budget W maxValue selected).
Proof. unfold check_budget; quiet. Qed.

Lemma invoke_once input init :
  at_most 0 (fetchFn input init) -> at_most 1 (invoke fetchFn input init).
Proof.
  intros H; unfold invoke.
  apply (at_most_bind 1 0); [|intros _; exact H].
  intros w; apply Nat.le_refl.
Qed.

Lemma pay_and_retry_once selected input init :
  (forall i n, at_most 0 (fetchFn i n)) ->
  at_most 1 (pay_and_retry env fetchFn signer config selected input init).
Proof.
  intros H; unfold pay_and_retry.
  apply (at_most_bind 0 1); [apply at_most_emit; reflexivity|intros _].
  apply (at_most_bind 0 1); [apply createPaymentHeader_quiet|intros paymentHeader].
  apply (at_most_bind 1 0); [apply invoke_once, H|intros response].
  apply (at_most_bind 0 0); [|intros _; apply at_most_ret].
  destruct (lookup _ _) as [[|c h]|]; try apply at_most_ret.
  apply (at_most_try_catch 0 0); [|intros _; apply at_most_emit; reflexivity].
  apply (at_most_bind 0 0); [apply decodeXPaymentResponse_quiet|intros paymentResponse].
  quiet.
Qed.

(** The transport calls the wrapped function at most twice, when
    neither the wrapped function nor the selector calls it. *)
Lemma wrapFetchWithPayment_at_most_twice maxValue input init :
  (forall i n, at_most 0 (fetchFn i n)) ->
  selector_is_quiet paymentRequirementsSelector ->
  at_most 2 (wrapFetchWithPayment env fetchFn signer maxValue
                                  paymentRequirementsSelector config input init).
Proof.
  intros H Hsel; unfold wrapFetchWithPayment.
  apply (at_most_bind 1 1); [apply invoke_once, H|intros response].
  destruct (_ =? _); [|intros w; unfold ret, events, invocations; simpl; lia].
  apply (at_most_bind 0 1); [apply select_requirement_quiet, Hsel|intros selected].
  apply (at_most_bind 0 1); [apply check_budget_quiet|intros _].
  apply pay_and_retry_once, H.
Qed.

End TransportProperties.



Lemma lookup_set_entry name val h : lookup name (set_entry name val h) = Some val.
Proof.
  induction h as [|[n v] h IH]; simpl.
  - now rewrite str_eqb_refl.
  - destruct (str_eqb name n) eqn:E; simpl; rewrite E; [reflexivity|exact IH].
Qed.

Lemma lookup_headers_set name val h :
  lookup (lower_case name) (headers_set name val h) = Some val.
Proof. apply lookup_set_entry. Qed.

Lemma at_most_0_events {W A} (m : M W A) w o w' t :
  at_most 0 m -> m w = (o, w', t) -> invocations t = 0%nat.
Proof.
  intros H E; specialize (H w); rewrite E in H; unfold events in H; simpl in H; lia.
Qed.

(** A 402 answer that carries no requirements header: the transport
    raises, and the request is never sent again. *)
Lemma challenge_without_header_is_not_retried :
  let run := wrapFetchWithPayment Sample.env
               (fun _ _ => ret (Response.mk 402 [] (js "{}")))
               Sample.signer None None None (js "http://localhost:4021/weather") None tt in
  outcome run = Throw (Err (js "402 status but no x-payment-required header found"))
  /\ invocations (events run) = 1%nat.
Proof. vm_compute. split; reflexivity. Qed.

Section TransportContract.
Context {W : Type} (env : Env W).
Variable fetchFn : jsstring -> option RequestInit.t -> M W Response.t.
Variable signer : SuiSigner.
Variable maxValue : option Z.
Variable paymentRequirementsSelector : option (value -> value).
Variable config : option X402Config.t.

(** C7, as the code has it.  Let the first call of the wrapped function
    return a response.  If its status is not 402, that response is the
    result and the first call is all that happened.  If its status is 402
    and no requirements header comes with it, the transport raises and
    nothing is sent again.  If its status is 402 and the transport
    returns a response, then the wrapped function was called exactly
    once more, with the same input and an [x-payment] header holding the
    transport form of a payment, and the result is the response of that
    second call, whatever its status.  In every case the wrapped
    function is called at most twice. *)
Theorem transport_retries_once (input : jsstring) (init : option RequestInit.t)
        (w : W) (r1 : Response.t) (w1 : W) (t1 : list Event) :
  fetchFn input init w = (Ok r1, w1, t1) ->
  (Response.status r1 <> 402 ->
   wrapFetchWithPayment env fetchFn signer maxValue
                         (pure_selector paymentRequirementsSelector)
                         config input init w = (Ok r1, w1, Invoke input init :: t1))
  /\ (Response.status r1 = 402 ->
      no_requirements_header r1 ->
      wrapFetchWithPayment env fetchFn signer maxValue
                         (pure_selector paymentRequirementsSelector)
                         config input init w
      = (Throw (Err (js "402 status but no x-payment-required header found")),
         w1, Invoke input init :: t1))
  /\ (Response.status r1 = 402 ->
      forall r2 w' t,
        wrapFetchWithPayment env fetchFn signer maxValue
                         (pure_selector paymentRequirementsSelector)
                         config input init w = (Ok r2, w', t) ->
        exists payment hs w2 w3 t2 tmid tpost,
          lookup (js "x-payment") hs
          = Some (encode_header (PaymentPayload.to_value payment))
          /\ fetchFn input (Some (with_headers init hs)) w2 = (Ok r2, w3, t2)
          /\ t = Invoke input init :: t1 ++ tmid
                 ++ Invoke input (Some (with_headers init hs)) :: t2 ++ tpost
          /\ invocations tmid = 0%nat /\ invocations tpost = 0%nat)
  /\ ((forall i n, at_most 0 (fetchFn i n)) ->
      (invocations (events (wrapFetchWithPayment env fetchFn signer maxValue
                         (pure_selector paymentRequirementsSelector)
                         config input init w)) <= 2)%nat).
Proof.
  intros Hfirst.
  assert (Hinvoke : invoke fetchFn input init w = (Ok r1, w1, Invoke input init :: t1)).
  { unfold invoke, bind, emit; now rewrite Hfirst. }
  split; [|split; [|split]].
  - intros Hs. unfold wrapFetchWithPayment.
    unfold bind at 1; rewrite Hinvoke.
    apply Z.eqb_neq in Hs; rewrite Hs.
    unfold ret; now rewrite app_nil_r.
  - intros Hs Hh. unfold wrapFetchWithPayment.
    unfold bind at 1; rewrite Hinvoke.
    apply Z.eqb_eq in Hs; rewrite Hs.
    unfold bind at 1, select_requirement. unfold bind at 1, select_value.
    destruct Hh as [-> | ->]; unfold throw; now rewrite app_nil_r.
  - intros Hs r2 w' t Hrun. unfold wrapFetchWithPayment in Hrun.
    apply bind_Ok_inv in Hrun as (r & wa & ta & tb & Ei & Hrun & ->).
    rewrite Hinvoke in Ei; injection Ei as <- <- <-.
    apply Z.eqb_eq in Hs; rewrite Hs in Hrun.
    apply bind_Ok_inv in Hrun as (selected & ws & ts & tc & Esel & Hrun & ->).
    apply bind_Ok_inv in Hrun as ([] & wb & tbud & td & Ebud & Hrun & ->).
    unfold pay_and_retry in Hrun.
    apply bind_Ok_inv in Hrun as ([] & wl & tl & te & Elog & Hrun & ->).
    apply bind_Ok_inv in Hrun as (paymentHeader & wh & th & tf & Ehdr & Hrun & ->).
    apply bind_Ok_inv in Hrun as (response & wr & tr & tg & Eretry & Hrun & ->).
    apply bind_Ok_inv in Hrun as ([] & wp & tp & tq & Epost & Hrun & ->).
    apply ret_inv in Hrun as (Er & -> & ->).
    injection Er as ->.
    unfold createPaymentHeader in Ehdr.
    apply bind_Ok_inv in Ehdr as (payment & wc & tcr & tret & Ecreate & Eret & Eth).
    apply ret_inv in Eret as (Eh & -> & ->).
    injection Eh as Eh; subst paymentHeader.
    unfold invoke in Eretry.
    apply bind_Ok_inv in Eretry as ([] & we & tem & t2 & Eemit & Esecond & ->).
    unfold emit in Eemit; injection Eemit as <- <-.
    eexists payment, _, _, _, t2, (ts ++ tbud ++ tl ++ th), tp.
    split; [apply (lookup_headers_set (js "x-payment"))|].
    split; [exact Esecond|].
    split.
    { rewrite app_nil_r; cbn [List.app]; rewrite <- !app_assoc; cbn [List.app]; reflexivity. }
    split.
    + rewrite !invocations_app.
      rewrite (at_most_0_events _ _ _ _ _
                 (select_requirement_quiet _ r1
                    (pure_selector_is_quiet paymentRequirementsSelector)) Esel).
      rewrite (at_most_0_events _ _ _ _ _ (check_budget_quiet maxValue selected) Ebud).
      unfold emit in Elog; injection Elog as _ <-.
      subst th; rewrite app_nil_r.
      assert (Hq : at_most 0 (createAndSignPayment env selected signer
                    match config with
                    | Some c => SuiConfig.rpcUrl (X402Config.suiConfig c)
                    | None => None
                    end)).
      { unfold createAndSignPayment, console_error; quiet. }
      rewrite (at_most_0_events _ _ _ _ _ Hq Ecreate); reflexivity.
    + destruct (lookup (js "x-payment-response") (Response.headers response))
        as [[|c h]|].
      * apply ret_inv in Epost as (_ & _ & ->); reflexivity.
      * refine (at_most_0_events _ _ _ _ _ _ Epost).
        apply (at_most_try_catch 0 0); [|intros _; apply at_most_emit; reflexivity].
        apply (at_most_bind 0 0); [apply decodeXPaymentResponse_quiet|intros ?].
        quiet.
      * apply ret_inv in Epost as (_ & _ & ->); reflexivity.
  - intros Hq; apply wrapFetchWithPayment_at_most_twice;
      [exact Hq|apply pure_selector_is_quiet].
Qed.

End TransportContract.

Lemma transport_retries_once_witness :
  exists payment hs w2 w3 t2 tmid tpost,
    lookup (js "x-payment") hs = Some (encode_header (PaymentPayload.to_value payment))
    /\ Sample.paywalled (js "http://localhost:4021/weather")
                        (Some (with_headers None hs)) w2
       = (Ok (Response.mk 200 [] (js "{}")), w3, t2)
    /\ events (wrapFetchWithPayment Sample.env Sample.paywalled Sample.signer None None None
                                    (js "http://localhost:4021/weather") None tt)
       = Invoke (js "http://localhost:4021/weather") None :: [] ++ tmid
         ++ Invoke (js "http://localhost:4021/weather") (Some (with_headers None hs))
         :: t2 ++ tpost
    /\ invocations tmid = 0%nat /\ invocations tpost = 0%nat.
Proof.
  refine (proj1 (proj2 (proj2
            (transport_retries_once Sample.env Sample.paywalled Sample.signer None None None
               (js "http://localhost:4021/weather") None tt
               (Response.mk 402 [(js "x-payment-required", Sample.challenge_header)] (js "{}"))
               tt [] _))) _ _ _ _ _).
  - reflexivity.
  - reflexivity.
  - vm_compute; reflexivity.
Defined.

(** ** The spending limit *)

Lemma get_not_stuck (v : value) (k : jsstring) : get v k <> Stuck.
Proof.
  destruct v as [| |b|n|s|l|ps]; cbn [get]; try discriminate.
  - destruct (str_eqb _ _); [discriminate|].
    destruct (JSON.array_index _) as [i|]; [|discriminate].
    destruct (nth_error s (Z.to_nat i)); discriminate.
  - destruct (str_eqb _ _); [discriminate|].
    destruct (JSON.array_index _); discriminate.
  - destruct (lookup _ ps); discriminate.
Qed.

(** Reading the receipt of the second response: lines on the console, and
    nothing is thrown. *)
Lemma receipt_is_read {W} (header : jsstring) (w : W) :
  exists o t,
    try_catch
      (bind (decodeXPaymentResponse header) (fun paymentResponse =>
       bind (lift (get paymentResponse (js "transactionDigest"))) (fun digest =>
       emit (Console LogInfo (js "Payment successful: " ++ to_string digest)))))
      (fun _ => console_warn "Failed to decode payment response:") w
    = (o, w, t)
    /\ forallb is_console t = true
    /\ (decode_header header <> Stuck -> o = Ok tt).
Proof.
  unfold decodeXPaymentResponse, try_catch, bind, lift, console_error, console_warn,
    emit, throw.
  destruct (decode_header header) as [v|e|].
  - pose proof (get_not_stuck v (js "transactionDigest")) as Hg.
    destruct (get v (js "transactionDigest")) as [d|e|];
      [| |contradiction]; eexists _, _; repeat split; reflexivity.
  - eexists _, _; repeat split; reflexivity.
  - eexists _, _; split; [reflexivity|]. split; [reflexivity|]. intros H; contradiction.
Qed.

Section Budget.
Context {W : Type} (env : Env W).
Variable fetchFn : jsstring -> option RequestInit.t -> M W Response.t.
Variable signer : SuiSigner.
Variable paymentRequirementsSelector : option (value -> M W value).
Variable config : option X402Config.t.

(** Once a requirement is selected, what remains is the budget check
    and the payment. *)
Lemma after_selection maxValue input init (w : W) r1 w1 t1 selected ws ts :
  fetchFn input init w = (Ok r1, w1, t1) ->
  Response.status r1 = 402 ->
  select_requirement paymentRequirementsSelector r1 w1 = (Ok selected, ws, ts) ->
  wrapFetchWithPayment env fetchFn signer maxValue paymentRequirementsSelector config
                       input init w
  = (let '(r, w2, t2) :=
       bind (check_budget maxValue selected)
            (fun _ => pay_and_retry env fetchFn signer config selected input init) ws in
     (r, w2, Invoke input init :: t1 ++ ts ++ t2)).
Proof.
  intros Hfirst Hs Hsel.
  apply Z.eqb_eq in Hs.
  unfold wrapFetchWithPayment, invoke.
  unfold bind at 1. unfold bind at 1. unfold emit at 1. rewrite Hfirst, Hs.
  unfold bind at 1; rewrite Hsel.
  destruct (bind _ _ ws) as [[r w2] t2]; reflexivity.
Qed.

Lemma check_budget_passes limit selected amount (k : unit -> M W Response.t) (w : W) :
  BigInt (PaymentRequirement.maxAmountRequired selected) = Ok amount ->
  amount <= limit ->
  bind (check_budget (Some limit) selected) k w = k tt w.
Proof.
  intros Hamount Hcmp.
  unfold check_budget, bind, lift, ret; rewrite Hamount.
  replace (amount >? limit) with false
    by (symmetry; apply not_true_is_false; intros E; apply Z.gtb_lt in E; lia).
  destruct (k tt w) as [[r w2] t2]; reflexivity.
Qed.

Lemma check_budget_absent selected (k : unit -> M W Response.t) (w : W) :
  bind (check_budget None selected) k w = k tt w.
Proof.
  unfold check_budget, bind, ret. destruct (k tt w) as [[r w2] t2]; reflexivity.
Qed.

(** What [pay_and_retry] does: it announces the payment, creates the
    payment header, and, once it has one, calls the wrapped function
    again with it and reads the receipt. *)
Lemma pay_and_retry_starts selected input init (w : W) :
  exists rest,
    events (pay_and_retry env fetchFn signer config selected input init w)
    = Console LogInfo (js "Creating payment: "
                       ++ PaymentRequirement.maxAmountRequired selected
                       ++ js " " ++ PaymentRequirement.asset selected)
      :: events (createPaymentHeader env selected signer (configured_rpcUrl config) w)
      ++ rest.
Proof.
  unfold pay_and_retry.
  fold (caller_headers init). fold (configured_rpcUrl config).
  unfold bind at 1, emit at 1.
  match goal with
  | |- context [bind ?m ?k w] =>
      pose proof (events_bind m k w) as E; destruct (bind m k w) as [[r w2] t2]
  end.
  unfold events at 1 in E; cbn [snd] in E. unfold events at 1; cbn [snd].
  rewrite E. eexists. reflexivity.
Qed.

Lemma pay_and_retry_run selected input init (w : W) header w2 t2 r2 w3 t3 :
  createPaymentHeader env selected signer (configured_rpcUrl config) w = (Ok header, w2, t2) ->
  fetchFn input (Some (paid_init init header)) w2 = (Ok r2, w3, t3) ->
  exists o tpost,
    pay_and_retry env fetchFn signer config selected input init w
    = (o, w3,
       Console LogInfo (js "Creating payment: "
                        ++ PaymentRequirement.maxAmountRequired selected
                        ++ js " " ++ PaymentRequirement.asset selected)
       :: t2 ++ Invoke input (Some (paid_init init header)) :: t3 ++ tpost)
    /\ forallb is_console tpost = true
    /\ (receipt_readable r2 -> o = Ok r2).
Proof.
  intros Hcreate Hsecond.
  unfold pay_and_retry.
  fold (caller_headers init). fold (configured_rpcUrl config).
  unfold bind at 1, emit at 1.
  unfold bind at 1; rewrite Hcreate.
  fold (paid_init init header).
  unfold bind at 1, invoke at 1. unfold bind at 1, emit at 1. rewrite Hsecond.
  unfold bind at 1.
  destruct (lookup (js "x-payment-response") (Response.headers r2)) as [[|c h]|] eqn:El.
  - exists (Ok r2), []. unfold ret; cbn [List.app]. rewrite !app_nil_r.
    repeat split; reflexivity.
  - destruct (receipt_is_read (c :: h) w3) as (o & t & -> & Ht & Ho).
    destruct o as [[]|e|].
    + exists (Ok r2), t. unfold ret; cbn [List.app]. rewrite !app_nil_r.
      repeat split; [exact Ht].
    + exists (Throw e), t. cbn [List.app].
      split; [reflexivity|]. split; [exact Ht|].
      intros Hr. specialize (Ho (Hr _ El)). discriminate.
    + exists Stuck, t. cbn [List.app].
      split; [reflexivity|]. split; [exact Ht|].
      intros Hr. specialize (Ho (Hr _ El)). discriminate.
  - exists (Ok r2), []. unfold ret; cbn [List.app]. rewrite !app_nil_r.
    repeat split; reflexivity.
Qed.

(** C8.  With a maximum spend set and a requirement selected from the
    402 answer.  When the requirement asks for more than the maximum, the
    transport throws the error "Payment amount (...) exceeds maximum
    allowed value (...)", and the first request and the selection are
    all that has happened by then: nothing was built, signed or sent.
    When it asks for no more than the maximum, in particular for exactly
    the maximum, the payment proceeds as it does without a limit: the
    payment header is created for the selected requirement, and once it
    is there the request is sent again with it in [x-payment], and the
    answer to that request is the result. *)
Theorem budget_is_checked_before_payment (input : jsstring) (init : option RequestInit.t)
        (w : W) (r1 : Response.t) (w1 : W) (t1 : list Event)
        (selected : PaymentRequirement.t) (ws : W) (ts : list Event)
        (amount limit : Z) :
  fetchFn input init w = (Ok r1, w1, t1) ->
  Response.status r1 = 402 ->
  select_requirement paymentRequirementsSelector r1 w1 = (Ok selected, ws, ts) ->
  BigInt (PaymentRequirement.maxAmountRequired selected) = Ok amount ->
  (limit < amount ->
   wrapFetchWithPayment env fetchFn signer (Some limit) paymentRequirementsSelector config
                        input init w
   = (Throw (Err (js "Payment amount (" ++ decimal_of_Z amount
                  ++ js ") exceeds maximum allowed value (" ++ decimal_of_Z limit
                  ++ js ")")),
      ws, Invoke input init :: t1 ++ ts))
  /\ (amount <= limit ->
      wrapFetchWithPayment env fetchFn signer (Some limit) paymentRequirementsSelector config
                           input init w
      = wrapFetchWithPayment env fetchFn signer None paymentRequirementsSelector config
                             input init w
      /\ (exists rest,
             events (wrapFetchWithPayment env fetchFn signer (Some limit)
                       paymentRequirementsSelector config input init w)
             = Invoke input init :: t1 ++ ts
               ++ Console LogInfo (js "Creating payment: "
                                   ++ PaymentRequirement.maxAmountRequired selected
                                   ++ js " " ++ PaymentRequirement.asset selected)
               :: events (createPaymentHeader env selected signer
                            (configured_rpcUrl config) ws)
               ++ rest)
      /\ (forall header w2 t2 r2 w3 t3,
             createPaymentHeader env selected signer (configured_rpcUrl config) ws
             = (Ok header, w2, t2) ->
             fetchFn input (Some (paid_init init header)) w2 = (Ok r2, w3, t3) ->
             exists o tpost,
               wrapFetchWithPayment env fetchFn signer (Some limit)
                 paymentRequirementsSelector config input init w
               = (o, w3,
                  Invoke input init :: t1 ++ ts
                  ++ Console LogInfo (js "Creating payment: "
                                      ++ PaymentRequirement.maxAmountRequired selected
                                      ++ js " " ++ PaymentRequirement.asset selected)
                  :: t2 ++ Invoke input (Some (paid_init init header)) :: t3 ++ tpost)
               /\ forallb is_console tpost = true
               /\ (receipt_readable r2 -> o = Ok r2))).
Proof.
  intros Hfirst Hs Hsel Hamount.
  rewrite !(after_selection _ input init w r1 w1 t1 selected ws ts Hfirst Hs Hsel).
  split; intros Hcmp.
  - unfold check_budget, over_budget, bind, lift, throw; rewrite Hamount.
    apply Z.gtb_lt in Hcmp; rewrite Hcmp. now rewrite !app_nil_r.
  - rewrite (check_budget_passes limit selected amount _ ws Hamount Hcmp).
    rewrite check_budget_absent.
    split; [reflexivity|]. split.
    + destruct (pay_and_retry_starts selected input init ws) as (rest & E).
      destruct (pay_and_retry env fetchFn signer config selected input init ws)
        as [[r w2] t2].
      unfold events at 1 in E; cbn [snd] in E. unfold events at 1; cbn [snd].
      rewrite E. exists rest. reflexivity.
    + intros header w2 t2 r2 w3 t3 Hcreate Hsecond.
      destruct (pay_and_retry_run selected input init ws header w2 t2 r2 w3 t3
                  Hcreate Hsecond) as (o & tpost & -> & Ht & Ho).
      exists o, tpost. repeat split; [exact Ht|exact Ho].
Qed.

End Budget.

Lemma budget_is_checked_before_payment_witness :
  wrapFetchWithPayment Sample.env Sample.paywalled Sample.signer (Some 100) None None
                       (js "http://localhost:4021/weather") None tt
  = (Throw (Err (js "Payment amount (1000000000) exceeds maximum allowed value (100)")), tt,
     [Invoke (js "http://localhost:4021/weather") None])
  /\ wrapFetchWithPayment Sample.env Sample.paywalled Sample.signer (Some 1000000000)
                          None None (js "http://localhost:4021/weather") None tt
     = (Ok (Response.mk 200 [] (js "{}")), tt,
        [Invoke (js "http://localhost:4021/weather") None;
         Console LogInfo (js "Creating payment: 1000000000 0x2::sui::SUI");
         Build (js "http://127.0.0.1:9000")
           (mkTransaction [SplitCoins GasCoin [1000000000];
                           TransferObjects [NestedResult 0] Sample.payTo]
                          (Some (js "0xc11e")));
         Sign (js "0xc11e") [1; 2; 3; 250];
         Invoke (js "http://localhost:4021/weather")
           (Some (RequestInit.mk None
                    (Some [(js "x-payment",
                            encode_header (PaymentPayload.to_value Sample.payload))])
                    None None))]).
Proof.
  split.
  - refine (proj1 (budget_is_checked_before_payment Sample.env Sample.paywalled Sample.signer
                     None None (js "http://localhost:4021/weather") None tt
                     (Response.mk 402 [(js "x-payment-required", Sample.challenge_header)]
                                  (js "{}"))
                     tt [] Sample.weather_requirement tt [] 1000000000 100 _ _ _ _) _).
    + reflexivity.
    + reflexivity.
    + vm_compute; reflexivity.
    + vm_compute; reflexivity.
    + lia.
  - assert (H : 1000000000 <= 1000000000) by lia.
    assert (Hfirst : Sample.paywalled (js "http://localhost:4021/weather") None tt
                     = (Ok (Response.mk 402
                              [(js "x-payment-required", Sample.challenge_header)]
                              (js "{}")), tt, [])) by reflexivity.
    assert (Hsel : select_requirement None
                     (Response.mk 402 [(js "x-payment-required", Sample.challenge_header)]
                                  (js "{}")) tt
                   = (Ok Sample.weather_requirement, tt, []))
      by (vm_compute; reflexivity).
    assert (Hamount : BigInt (PaymentRequirement.maxAmountRequired Sample.weather_requirement)
                      = Ok 1000000000) by (vm_compute; reflexivity).
    assert (Hcreate : createPaymentHeader Sample.env Sample.weather_requirement Sample.signer
                        (configured_rpcUrl None) tt
                      = (Ok (encode_header (PaymentPayload.to_value Sample.payload)), tt,
                         [Build (js "http://127.0.0.1:9000")
                            (mkTransaction [SplitCoins GasCoin [1000000000];
                                            TransferObjects [NestedResult 0] Sample.payTo]
                                           (Some (js "0xc11e")));
                          Sign (js "0xc11e") [1; 2; 3; 250]]))
      by (vm_compute; reflexivity).
    assert (Hsecond : Sample.paywalled (js "http://localhost:4021/weather")
                        (Some (paid_init None
                                 (encode_header (PaymentPayload.to_value Sample.payload)))) tt
                      = (Ok (Response.mk 200 [] (js "{}")), tt, []))
      by (vm_compute; reflexivity).
    destruct (proj2 (proj2
               (proj2 (budget_is_checked_before_payment Sample.env Sample.paywalled
                         Sample.signer None None (js "http://localhost:4021/weather") None tt
                         _ tt [] Sample.weather_requirement tt [] 1000000000 1000000000
                         Hfirst eq_refl Hsel Hamount) H))
               _ tt _ _ tt [] Hcreate Hsecond) as (o & tpost & E & _ & Ho).
    assert (Hr : receipt_readable (Response.mk 200 [] (js "{}")))
      by (intros h Hh; discriminate Hh).
    rewrite (Ho Hr) in E. rewrite E.
    pose proof E as E'. vm_compute in E'.
    injection E' as E'. rewrite <- E'. reflexivity.
Defined.


(** ** What the parser returns *)

(** Whatever [JSON.parse] returns is JSON data: the values the decoders
    hand on, and the value the [finish] listener encodes, are of this
    kind. *)












(** *** Objects *)



















(** *** Values *)





(** ** The codec *)

Lemma call_Ok_inv {W A} (e : Event) (f : W -> Reply A * W) w a w' t :
  call e f w = (Ok a, w', t) -> f w = (Returns a, w') /\ t = [e].
Proof.
  unfold call; destruct (f w) as [[x|x] w1]; intros E; [|discriminate].
  injection E as -> -> <-; auto.
Qed.




(** ** Building a payment and verifying it *)

(** What a successful [createAndSignPayment] has done. *)
Lemma createAndSignPayment_Ok {W} (env : Env W) r signer rpcUrl w p w' t :
  createAndSignPayment env r signer rpcUrl w = (Ok p, w', t) ->
  exists client amount tx txBytes signature w1 w2,
    getSuiClient (PaymentRequirement.network r) rpcUrl = Ok client
    /\ BigInt (PaymentRequirement.maxAmountRequired r) = Ok amount
    /\ build env client tx w1 = (Returns txBytes, w2)
    /\ p = PaymentPayload.mk (js "exact") (PaymentRequirement.network r)
                             (toB64 txBytes) (toB64 (elements_of_string signature))
                             (PaymentRequirement.maxAmountRequired r)
                             (PaymentRequirement.payTo r)
                             (PaymentRequirement.asset r).
Proof.
  unfold createAndSignPayment; intros H.
  apply bind_Ok_inv in H as (client & wa & ta & tb & Ec & H & ->).
  apply lift_Ok_inv in Ec as (Ec & -> & ->).
  apply try_catch_Ok_inv in H as [H|(e & w1 & t1 & t2 & _ & H & _)].
  2:{ unfold bind, console_error, emit, throw in H; discriminate. }
  apply bind_Ok_inv in H as (amount & wb & tc & td & Ea & H & ->).
  apply lift_Ok_inv in Ea as (Ea & -> & ->).
  apply bind_Ok_inv in H as (cmds & wc & te & tf & _ & H & ->).
  apply bind_Ok_inv in H as (txBytes & wd & tg & th & Eb & H & ->).
  apply call_Ok_inv in Eb as (Eb & ->).
  apply bind_Ok_inv in H as (signature & we & ti & tj & _ & H & ->).
  apply ret_inv in H as (Ep & -> & ->).
  injection Ep as ->.
  now exists client, amount, (mkTransaction cmds (Some (address signer))),
             txBytes, signature, wc, wd.
Qed.

(** C10.  The payload [createAndSignPayment] returns carries the scheme
    "exact" and the requirement's network, payee and asset, and its amount
    is the requirement's [maxAmountRequired]; verified against that same
    requirement it passes the four field checks and the amount check, so
    that verification comes down to the dry run.  With the same endpoint
    configuration, the client is the one the payment was built with and
    the transaction decodes to the bytes that were built. *)
Theorem self_built_payload_passes_the_checks {W} (env : Env W)
        (r : PaymentRequirement.t) (signer : SuiSigner) (rpcUrl : option jsstring)
        (w : W) (p : PaymentPayload.t) (w' : W) (t : list Event) :
  createAndSignPayment env r signer rpcUrl w = (Ok p, w', t) ->
  (PaymentPayload.scheme p = js "exact"
   /\ PaymentPayload.network p = PaymentRequirement.network r
   /\ PaymentPayload.payTo p = PaymentRequirement.payTo r
   /\ PaymentPayload.asset p = PaymentRequirement.asset r
   /\ PaymentPayload.amount p = PaymentRequirement.maxAmountRequired r)
  /\ (forall rpcUrl' w0, verifyPayment env p r rpcUrl' w0 = simulate env p rpcUrl' w0)
  /\ (exists client txBytes,
         getSuiClient (PaymentPayload.network p) rpcUrl = Ok client
         /\ PaymentPayload.transaction p = toB64 txBytes
         /\ (builds_octets env -> fromB64 (PaymentPayload.transaction p) = Ok txBytes)).
Proof.
  intros H.
  destruct (createAndSignPayment_Ok env r signer rpcUrl w p w' t H)
    as (client & amount & tx & txBytes & signature & w1 & w2 & Ec & Ea & Eb & ->).
  cbn [PaymentPayload.scheme PaymentPayload.network PaymentPayload.payTo
       PaymentPayload.asset PaymentPayload.amount PaymentPayload.transaction].
  split; [repeat split|].
  split.
  - intros rpcUrl' w0.
    apply (verifyPayment_checks_passed env _ r rpcUrl' amount amount);
      try reflexivity; try exact Ea; try lia.
  - exists client, txBytes; repeat split; [exact Ec|].
    intros Hoct. apply fromB64_toB64. exact (Hoct client tx w1 txBytes w2 Eb).
Qed.

Lemma self_built_payload_passes_the_checks_witness :
  verifyPayment Sample.env Sample.payload Sample.requirement None tt
  = simulate Sample.env Sample.payload None tt.
Proof.
  refine (proj1 (proj2 (self_built_payload_passes_the_checks Sample.env Sample.requirement
                          Sample.signer None tt Sample.payload tt
                          [Build (js "http://127.0.0.1:9000")
                             (mkTransaction
                                [SplitCoins GasCoin [1000000000];
                                 TransferObjects [NestedResult 0] Sample.payTo]
                                (Some (js "0xc11e")));
                           Sign (js "0xc11e") [1; 2; 3; 250]] _)) None tt).
  vm_compute; reflexivity.
Defined.


(** * More on the ledger adapter *)

(** ** Verification *)

(** Every run of [verifyPayment]: an answer, at most one dry run, and one
    line in the error log exactly when the answer is [false]. *)
Lemma verifyPayment_run {W} (env : Env W) p r rpcUrl w :
  exists (b : bool) (w' : W) (dry log : list Event),
    verifyPayment env p r rpcUrl w = (Ok b, w', dry ++ log)
    /\ ((dry = [] /\ w' = w /\ b = false)
        \/ exists client tx,
             getSuiClient (PaymentPayload.network p) rpcUrl = Ok client
             /\ fromB64 (PaymentPayload.transaction p) = Ok tx
             /\ dry = [DryRun client tx]
             /\ w' = snd (dryRunTransactionBlock env client tx w)
             /\ (b = true <->
                 exists st, fst (dryRunTransactionBlock env client tx w) = Returns st
                            /\ status st = js "success"))
    /\ (if b then log = [] else exists label, log = [Console LogError label]).
Proof.
  unfold verifyPayment.
  destruct (str_eqb (PaymentPayload.scheme p) (js "exact"));
    [|exists false, w, [], [Console LogError (js "Invalid payment scheme:")];
      cbn; repeat split; eauto].
  destruct (str_eqb (PaymentPayload.network p) (PaymentRequirement.network r));
    [|exists false, w, [], [Console LogError (js "Network mismatch:")];
      cbn; repeat split; eauto].
  destruct (str_eqb (PaymentPayload.payTo p) (PaymentRequirement.payTo r));
    [|exists false, w, [], [Console LogError (js "PayTo address mismatch:")];
      cbn; repeat split; eauto].
  destruct (str_eqb (PaymentPayload.asset p) (PaymentRequirement.asset r));
    [|exists false, w, [], [Console LogError (js "Asset type mismatch:")];
      cbn; repeat split; eauto].
  cbn [negb]; unfold try_catch, bind, lift, call, ret, console_error, emit.
  pose proof (BigInt_not_stuck (PaymentPayload.amount p)) as N1.
  pose proof (BigInt_not_stuck (PaymentRequirement.maxAmountRequired r)) as N2.
  pose proof (getSuiClient_not_stuck (PaymentPayload.network p) rpcUrl) as N3.
  pose proof (fromB64_not_stuck (PaymentPayload.transaction p)) as N4.
  destruct (BigInt (PaymentPayload.amount p)) as [paid|e1|];
    [|exists false, w, [], [Console LogError (js "Payment verification failed:")];
      cbn; repeat split; eauto|congruence].
  destruct (BigInt (PaymentRequirement.maxAmountRequired r)) as [required|e2|];
    [|exists false, w, [], [Console LogError (js "Payment verification failed:")];
      cbn; repeat split; eauto|congruence].
  destruct (paid <? required);
    [exists false, w, [], [Console LogError (js "Insufficient payment amount:")];
     cbn; repeat split; eauto|].
  destruct (getSuiClient _ _) as [client|e3|];
    [|exists false, w, [], [Console LogError (js "Payment verification failed:")];
      cbn; repeat split; eauto|congruence].
  destruct (fromB64 _) as [tx|e4|];
    [|exists false, w, [], [Console LogError (js "Payment verification failed:")];
      cbn; repeat split; eauto|congruence].
  destruct (dryRunTransactionBlock env client tx w) as [[st|e5] w1] eqn:Ed.
  - destruct (str_eqb (status st) (js "success")) eqn:Est; cbn [negb].
    + exists true, w1, [DryRun client tx], []; cbn.
      split; [reflexivity|]. split; [|reflexivity].
      right; exists client, tx; rewrite Ed; cbn [fst snd].
      do 4 (split; [reflexivity|]).
      split; [intros _|reflexivity].
      exists st; split; [reflexivity|now apply str_eqb_eq].
    + exists false, w1, [DryRun client tx],
             [Console LogError (js "Transaction dry run failed:")]; cbn.
      split; [reflexivity|]. split; [|eauto].
      right; exists client, tx; rewrite Ed; cbn [fst snd].
      do 4 (split; [reflexivity|]).
      split; [discriminate|].
      intros (st' & E & Hs). injection E as <-.
      rewrite Hs, str_eqb_refl in Est; discriminate.
  - exists false, w1, [DryRun client tx],
           [Console LogError (js "Payment verification failed:")]; cbn.
    split; [reflexivity|]. split; [|eauto].
    right; exists client, tx; rewrite Ed; cbn [fst snd].
    do 4 (split; [reflexivity|]).
    split; [discriminate|].
    intros (st' & E & _); discriminate.
Qed.

(** X1.  [verifyPayment] answers [true] exactly when the scheme is
    "exact", network, payee and asset are those of the requirement, both
    amounts read as integers with the paid one not below the required one
    (more is accepted), a client exists for the network, the transaction is
    base64, and the ledger's dry run of these very bytes reports the status
    "success". *)
Theorem verifyPayment_accepts_exactly_when {W} (env : Env W)
        (p : PaymentPayload.t) (r : PaymentRequirement.t)
        (rpcUrl : option jsstring) (w : W) :
  outcome (verifyPayment env p r rpcUrl w) = Ok true
  <-> (PaymentPayload.scheme p = js "exact"
       /\ PaymentPayload.network p = PaymentRequirement.network r
       /\ PaymentPayload.payTo p = PaymentRequirement.payTo r
       /\ PaymentPayload.asset p = PaymentRequirement.asset r
       /\ (exists paid required,
              BigInt (PaymentPayload.amount p) = Ok paid
              /\ BigInt (PaymentRequirement.maxAmountRequired r) = Ok required
              /\ required <= paid)
       /\ (exists client tx st w',
              getSuiClient (PaymentPayload.network p) rpcUrl = Ok client
              /\ fromB64 (PaymentPayload.transaction p) = Ok tx
              /\ dryRunTransactionBlock env client tx w = (Returns st, w')
              /\ status st = js "success")).
Proof.
  split.
  - unfold verifyPayment.
    destruct (str_eqb (PaymentPayload.scheme p) (js "exact")) eqn:E1;
      [|cbn; discriminate].
    destruct (str_eqb (PaymentPayload.network p) (PaymentRequirement.network r)) eqn:E2;
      [|cbn; discriminate].
    destruct (str_eqb (PaymentPayload.payTo p) (PaymentRequirement.payTo r)) eqn:E3;
      [|cbn; discriminate].
    destruct (str_eqb (PaymentPayload.asset p) (PaymentRequirement.asset r)) eqn:E4;
      [|cbn; discriminate].
    apply str_eqb_eq in E1, E2, E3, E4.
    cbn [negb]; unfold try_catch, bind, lift, call, ret, console_error, emit, outcome.
    destruct (BigInt (PaymentPayload.amount p)) as [paid|e1|]; [|cbn; discriminate..].
    destruct (BigInt (PaymentRequirement.maxAmountRequired r)) as [required|e2|];
      [|cbn; discriminate..].
    destruct (paid <? required) eqn:Elt; [cbn; discriminate|].
    apply Z.ltb_ge in Elt.
    destruct (getSuiClient _ _) as [client|e3|]; [|cbn; discriminate..].
    destruct (fromB64 _) as [tx|e4|]; [|cbn; discriminate..].
    destruct (dryRunTransactionBlock env client tx w) as [[st|e5] w1] eqn:Ed;
      [|cbn; discriminate].
    destruct (str_eqb (status st) (js "success")) eqn:Est; [|cbn; discriminate].
    apply str_eqb_eq in Est.
    intros _. repeat split; auto.
    + exists paid, required; auto.
    + exists client, tx, st, w1; auto.
  - intros (E1 & E2 & E3 & E4 & (paid & required & Ep & Er & Hle)
            & (client & tx & st & w' & Ec & Et & Ed & Es)).
    rewrite (verifyPayment_checks_passed env p r rpcUrl paid required E1 E2 E3 E4 Ep Er Hle).
    unfold simulate, try_catch, bind, lift, call, outcome.
    rewrite Ec, Et, Ed, Es, str_eqb_refl. reflexivity.
Qed.

(** X2.  What a verification leaves behind: it always answers; it calls
    the ledger at most once, for a dry run and never for an execution; an
    answer of [true] writes nothing to the console, and every answer of
    [false] writes exactly one line to the error log.  When no dry run took
    place the world is as before. *)
Theorem verifyPayment_footprint {W} (env : Env W)
        (p : PaymentPayload.t) (r : PaymentRequirement.t)
        (rpcUrl : option jsstring) (w : W) :
  exists (b : bool) (dry log : list Event),
    outcome (verifyPayment env p r rpcUrl w) = Ok b
    /\ events (verifyPayment env p r rpcUrl w) = dry ++ log
    /\ (dry = [] /\ world_after (verifyPayment env p r rpcUrl w) = w /\ b = false
        \/ exists client tx, dry = [DryRun client tx])
    /\ (if b then log = [] else exists label, log = [Console LogError label]).
Proof.
  destruct (verifyPayment_run env p r rpcUrl w) as (b & w' & dry & log & E & Hd & Hl).
  exists b, dry, log. rewrite E; cbn.
  repeat split; auto.
  destruct Hd as [Hd|(client & tx & _ & _ & Hd & _)]; [left; exact Hd|right; eauto].
Qed.


(** ** The client of the ledger *)

Lemma starts_with_app (pat s : jsstring) : starts_with pat (pat ++ s) = true.
Proof.
  induction pat as [|c pat IH]; [reflexivity|].
  cbn; now rewrite Z.eqb_refl, IH.
Qed.

Lemma replace_first_prefix (pat by_ s : jsstring) :
  replace_first pat by_ (pat ++ s) = by_ ++ s.
Proof.
  assert (E : forall t, replace_first pat by_ t
                        = if starts_with pat t then by_ ++ skipn (List.length pat) t
                          else match t with
                               | [] => []
                               | c :: r => c :: replace_first pat by_ r
                               end)
    by (intros [|c t]; reflexivity).
  rewrite E, starts_with_app; clear E.
  f_equal. induction pat as [|c pat IH]; [reflexivity|exact IH].
Qed.

Lemma replace_first_unfold (pat by_ t : jsstring) :
  replace_first pat by_ t
  = if starts_with pat t then by_ ++ skipn (List.length pat) t
    else match t with
         | [] => []
         | c :: r => c :: replace_first pat by_ r
         end.
Proof. destruct t; reflexivity. Qed.

Lemma starts_with_true (pat s : jsstring) :
  starts_with pat s = true <-> exists b, s = pat ++ b.
Proof.
  revert s; induction pat as [|c pat IH]; intros s; cbn.
  - split; [intros _; now exists s|reflexivity].
  - destruct s as [|d s].
    + split; [discriminate|]. intros (b & E); discriminate.
    + split.
      * intros H; apply andb_true_iff in H as [Hc Hs]. apply Z.eqb_eq in Hc; subst d.
        apply IH in Hs as (b & ->). now exists b.
      * intros (b & E); injection E as -> ->.
        rewrite Z.eqb_refl. apply IH. now exists b.
Qed.

Lemma skipn_prefix (pat b : jsstring) : skipn (List.length pat) (pat ++ b) = b.
Proof. induction pat as [|c pat IH]; [reflexivity|exact IH]. Qed.

Lemma replace_first_spec (pat s : jsstring) :
  pat <> [] -> without_first pat s (replace_first pat [] s).
Proof.
  intros Hpat. induction s as [|c s IH]; rewrite replace_first_unfold.
  - destruct (starts_with pat []) eqn:E.
    + apply starts_with_true in E as (b & E).
      destruct pat; [contradiction|discriminate].
    + left. split; [reflexivity|].
      intros a b E'. destruct a; [destruct pat; [contradiction|discriminate]|discriminate].
  - destruct (starts_with pat (c :: s)) eqn:E.
    + apply starts_with_true in E as (b & E). rewrite E, skipn_prefix.
      right. exists [], b. repeat split. intros; cbn; lia.
    + assert (Hno : forall b, c :: s <> pat ++ b).
      { intros b Eb. assert (H : starts_with pat (c :: s) = true)
          by (apply starts_with_true; now exists b). congruence. }
      destruct IH as [(Er & Hs)|(a & b & Es & Er & Hmin)].
      * left. rewrite Er. split; [reflexivity|].
        intros a b Eab. destruct a as [|d a]; [exact (Hno b Eab)|].
        injection Eab as _ Eab. exact (Hs a b Eab).
      * right. exists (c :: a), b.
        split; [now rewrite Es|]. split; [now rewrite Er|].
        intros a' b' Eab. destruct a' as [|d a']; [exfalso; exact (Hno b' Eab)|].
        injection Eab as _ Eab. specialize (Hmin a' b' Eab).
        cbn; lia.
Qed.

Lemma app_same_length {A} (a a' b b' : list A) :
  a ++ b = a' ++ b' -> List.length a = List.length a' -> a = a' /\ b = b'.
Proof.
  revert a'; induction a as [|x a IH]; intros [|y a'] E H; try discriminate.
  - now split.
  - injection E as -> E. injection H as H.
    destruct (IH a' E H) as (-> & ->). now split.
Qed.

Lemma without_first_unique (pat s r r' : jsstring) :
  without_first pat s r -> without_first pat s r' -> r = r'.
Proof.
  intros [(-> & Hs)|(a & b & Es & -> & Hmin)] [(-> & Hs')|(a' & b' & Es' & -> & Hmin')].
  - reflexivity.
  - exfalso; exact (Hs _ _ Es').
  - exfalso; exact (Hs' _ _ Es).
  - pose proof (Hmin _ _ Es') as H1. pose proof (Hmin' _ _ Es) as H2.
    rewrite Es in Es'.
    destruct (app_same_length _ _ _ _ Es' ltac:(lia)) as (-> & Eb).
    apply app_inv_head in Eb. now subst.
Qed.

(** X3.  Which endpoint the client talks to when no RPC URL is configured
    (absent or empty).  The first occurrence of "sui-" is taken out of the
    network's name, wherever it stands, and what is left is resolved as
    [getFullnodeUrl] does: "mainnet", "testnet", "devnet" and "localnet"
    give the endpoint of that network, and any other text throws "Unknown
    network: <text>".  The four networks of [SuiNetwork] resolve, and so
    does a name that is one of the four words without the prefix. *)
Theorem getSuiClient_resolves_the_network (network : jsstring) (rpcUrl : option jsstring) :
  rpcUrl = None \/ rpcUrl = Some [] ->
  exists name,
    without_first (js "sui-") network name
    /\ (forall name', without_first (js "sui-") network name' -> name' = name)
    /\ ((name = js "mainnet"
         /\ getSuiClient network rpcUrl = Ok (js "https://fullnode.mainnet.sui.io:443"))
        \/ (name = js "testnet"
            /\ getSuiClient network rpcUrl = Ok (js "https://fullnode.testnet.sui.io:443"))
        \/ (name = js "devnet"
            /\ getSuiClient network rpcUrl = Ok (js "https://fullnode.devnet.sui.io:443"))
        \/ (name = js "localnet"
            /\ getSuiClient network rpcUrl = Ok (js "http://127.0.0.1:9000"))
        \/ (name <> js "mainnet" /\ name <> js "testnet" /\ name <> js "devnet"
            /\ name <> js "localnet"
            /\ getSuiClient network rpcUrl = Throw (Err (js "Unknown network: " ++ name))))
    /\ (is_sui_network network -> exists url, getSuiClient network rpcUrl = Ok url).
Proof.
  intros Hrpc.
  assert (Hspec : without_first (js "sui-") network (replace_first (js "sui-") [] network))
    by (apply replace_first_spec; discriminate).
  assert (E : getSuiClient network rpcUrl
              = getFullnodeUrl (replace_first (js "sui-") [] network))
    by (unfold getSuiClient; destruct Hrpc as [-> | ->]; reflexivity).
  exists (replace_first (js "sui-") [] network).
  split; [exact Hspec|].
  split; [intros name' H'; exact (without_first_unique _ _ _ _ H' Hspec)|].
  split.
  - rewrite E. unfold getFullnodeUrl.
    set (name := replace_first (js "sui-") [] network).
    destruct (str_eqb name (js "mainnet")) eqn:E1;
      [apply str_eqb_eq in E1; left; split; [exact E1|reflexivity]|].
    destruct (str_eqb name (js "testnet")) eqn:E2;
      [apply str_eqb_eq in E2; right; left; split; [exact E2|reflexivity]|].
    destruct (str_eqb name (js "devnet")) eqn:E3;
      [apply str_eqb_eq in E3; do 2 right; left; split; [exact E3|reflexivity]|].
    destruct (str_eqb name (js "localnet")) eqn:E4;
      [apply str_eqb_eq in E4; do 3 right; left; split; [exact E4|reflexivity]|].
    apply str_eqb_neq in E1, E2, E3, E4.
    do 4 right. repeat split; assumption.
  - rewrite E. intros [->|[->|[->| ->]]]; eexists; reflexivity.
Qed.

Lemma getSuiClient_resolves_the_network_witness :
  exists name,
    without_first (js "sui-") (js "testnet") name
    /\ (forall name', without_first (js "sui-") (js "testnet") name' -> name' = name)
    /\ ((name = js "mainnet"
         /\ getSuiClient (js "testnet") None = Ok (js "https://fullnode.mainnet.sui.io:443"))
        \/ (name = js "testnet"
            /\ getSuiClient (js "testnet") None
               = Ok (js "https://fullnode.testnet.sui.io:443"))
        \/ (name = js "devnet"
            /\ getSuiClient (js "testnet") None = Ok (js "https://fullnode.devnet.sui.io:443"))
        \/ (name = js "localnet"
            /\ getSuiClient (js "testnet") None = Ok (js "http://127.0.0.1:9000"))
        \/ (name <> js "mainnet" /\ name <> js "testnet" /\ name <> js "devnet"
            /\ name <> js "localnet"
            /\ getSuiClient (js "testnet") None
               = Throw (Err (js "Unknown network: " ++ name))))
    /\ (is_sui_network (js "testnet") ->
        exists url, getSuiClient (js "testnet") None = Ok url).
Proof.
  apply (getSuiClient_resolves_the_network (js "testnet") None).
  left; reflexivity.
Defined.

(** ** Settlement *)

Lemma is_string_true (s : jsstring) (v : value) : is_string s v = true <-> v = VStr s.
Proof.
  destruct v; cbn; try (split; [discriminate|intros H; discriminate]).
  rewrite str_eqb_eq. split; [now intros ->|now intros [= ->]].
Qed.

(** What a successful [settlePayment] has done. *)
Lemma settlePayment_run_ok {W} (env : Env W) (p : PaymentPayload.t)
        (rpcUrl : option jsstring) (w : W)
        (receipt : PaymentResponse.t) (w' : W) (t : list Event) :
  settlePayment env p rpcUrl w = (Ok receipt, w', t) ->
  exists client tx result w1,
    getSuiClient (PaymentPayload.network p) rpcUrl = Ok client
    /\ fromB64 (PaymentPayload.transaction p) = Ok tx
    /\ executeTransactionBlock env client tx (PaymentPayload.signature p) w
       = (Returns result, w1)
    /\ execution_status result = VStr (js "success")
    /\ t = [Execute client tx (PaymentPayload.signature p)]
    /\ PaymentResponse.transactionDigest receipt = digest result
    /\ PaymentResponse.amount receipt = PaymentPayload.amount p
    /\ PaymentResponse.timestamp receipt = Int (fst (now env w1))
    /\ w' = snd (now env w1).
Proof.
  unfold settlePayment, bind, try_catch, lift, call, throw, ret, console_error, emit.
  destruct (getSuiClient _ _) as [client|e|]; try discriminate.
  destruct (fromB64 _) as [tx|e|]; try discriminate.
  destruct (executeTransactionBlock env client tx _ w) as [[result|e] w1] eqn:Ee;
    try discriminate.
  destruct (is_string _ _) eqn:Es; cbn [negb]; try discriminate.
  apply is_string_true in Es.
  destruct (now env w1) as [time w2] eqn:En.
  intros H; injection H as <- <- <-.
  exists client, tx, result, w1. rewrite En. cbn.
  repeat split; auto.
Qed.

(** X4.  A receipt is the trace of one successful execution.  When
    [settlePayment] returns, the ledger has executed the payload's
    transaction with the payload's signature, once, and reported the status
    "success"; the receipt carries the digest of that execution, the time
    read after it, and as amount the text the payload states. *)
Theorem settlePayment_receipt {W} (env : Env W) (p : PaymentPayload.t)
        (rpcUrl : option jsstring) (w : W)
        (receipt : PaymentResponse.t) (w' : W) (t : list Event) :
  settlePayment env p rpcUrl w = (Ok receipt, w', t) ->
  exists client tx result w1,
    getSuiClient (PaymentPayload.network p) rpcUrl = Ok client
    /\ fromB64 (PaymentPayload.transaction p) = Ok tx
    /\ executeTransactionBlock env client tx (PaymentPayload.signature p) w
       = (Returns result, w1)
    /\ execution_status result = VStr (js "success")
    /\ t = [Execute client tx (PaymentPayload.signature p)]
    /\ PaymentResponse.transactionDigest receipt = digest result
    /\ PaymentResponse.amount receipt = PaymentPayload.amount p
    /\ PaymentResponse.timestamp receipt = Int (fst (now env w1))
    /\ w' = snd (now env w1).
Proof. apply settlePayment_run_ok. Qed.

Lemma settlePayment_receipt_witness :
  exists client tx result w1,
    getSuiClient (js "sui-localnet") None = Ok client
    /\ fromB64 (toB64 [1; 2; 3; 250]) = Ok tx
    /\ executeTransactionBlock (executing Sample.env) client tx (PaymentPayload.signature Sample.payload) tt
       = (Returns result, w1)
    /\ execution_status result = VStr (js "success")
    /\ [Execute (js "http://127.0.0.1:9000") [1; 2; 3; 250] (PaymentPayload.signature Sample.payload)]
       = [Execute client tx (PaymentPayload.signature Sample.payload)]
    /\ js "8kXtQPZ3" = digest result
    /\ js "1000000000" = js "1000000000"
    /\ Int 1700000000000 = Int (fst (now (executing Sample.env) w1))
    /\ tt = snd (now (executing Sample.env) w1).
Proof.
  refine (settlePayment_receipt (executing Sample.env) Sample.payload None tt
            (PaymentResponse.mk (js "8kXtQPZ3") (js "1000000000") (Int 1700000000000)
               (Some (VObj [(js "status", VObj [(js "status", VStr (js "success"))])])))
            tt [Execute (js "http://127.0.0.1:9000") [1; 2; 3; 250] (PaymentPayload.signature Sample.payload)] _).
  vm_compute; reflexivity.
Defined.


(** X5.  How [settlePayment] fails.  An error thrown while the client is
    created (an unknown network) leaves no trace at all: it arises before
    the [try].  Every later error is written to the error log once and
    thrown again unchanged: text that is not base64 in place of the
    transaction, before anything reaches the ledger; an error raised by the
    execution; and, when the ledger reports a status other than "success",
    the error "Transaction failed: <reason>", where the reason is the
    ledger's, or "Unknown error".  The ledger is called at most once. *)
Theorem settlePayment_failure {W} (env : Env W) (p : PaymentPayload.t)
        (rpcUrl : option jsstring) (w : W) (e : Error) (w' : W) (t : list Event) :
  settlePayment env p rpcUrl w = (Throw e, w', t) ->
  (getSuiClient (PaymentPayload.network p) rpcUrl = Throw e /\ w' = w /\ t = [])
  \/ exists client,
       getSuiClient (PaymentPayload.network p) rpcUrl = Ok client
       /\ ((fromB64 (PaymentPayload.transaction p) = Throw e /\ w' = w
            /\ t = [Console LogError (js "Payment settlement failed:")])
           \/ exists tx,
                fromB64 (PaymentPayload.transaction p) = Ok tx
                /\ t = [Execute client tx (PaymentPayload.signature p);
                        Console LogError (js "Payment settlement failed:")]
                /\ (executeTransactionBlock env client tx (PaymentPayload.signature p) w
                    = (Raises e, w')
                    \/ exists result,
                         executeTransactionBlock env client tx
                                                 (PaymentPayload.signature p) w
                         = (Returns result, w')
                         /\ execution_status result <> VStr (js "success")
                         /\ e = Err (js "Transaction failed: " ++ failure_reason result))).
Proof.
  unfold settlePayment, bind, try_catch, lift, call, throw, ret, console_error, emit.
  destruct (getSuiClient _ _) as [client|e0|]; try discriminate.
  2:{ intros H; injection H as <- <- <-; left; auto. }
  intros H; right; exists client; split; [reflexivity|].
  destruct (fromB64 _) as [tx|e0|]; try discriminate.
  2:{ injection H as <- <- <-; left; auto. }
  right; exists tx; split; [reflexivity|].
  destruct (executeTransactionBlock env client tx _ w) as [[result|e0] w1] eqn:Ee.
  - destruct (is_string _ _) eqn:Es; cbn [negb] in H.
    + destruct (now env w1); discriminate.
    + injection H as <- <- <-. split; [reflexivity|].
      right; exists result. repeat split.
      intros Hs; apply is_string_true in Hs.
      unfold execution_status in Hs; congruence.
  - injection H as <- <- <-. split; [reflexivity|]. left; reflexivity.
Qed.

Lemma settlePayment_failure_witness :
  (getSuiClient (js "sui-localnet") None = Throw (Err (js "Transaction failed: InsufficientGas"))
   /\ tt = tt
   /\ [Execute (js "http://127.0.0.1:9000") [1; 2; 3; 250] (PaymentPayload.signature Sample.payload);
       Console LogError (js "Payment settlement failed:")] = [])
  \/ exists client,
       getSuiClient (js "sui-localnet") None = Ok client
       /\ ((fromB64 (toB64 [1; 2; 3; 250])
            = Throw (Err (js "Transaction failed: InsufficientGas")) /\ tt = tt
            /\ [Execute (js "http://127.0.0.1:9000") [1; 2; 3; 250] (PaymentPayload.signature Sample.payload);
                Console LogError (js "Payment settlement failed:")]
               = [Console LogError (js "Payment settlement failed:")])
           \/ exists tx,
                fromB64 (toB64 [1; 2; 3; 250]) = Ok tx
                /\ [Execute (js "http://127.0.0.1:9000") [1; 2; 3; 250] (PaymentPayload.signature Sample.payload);
                    Console LogError (js "Payment settlement failed:")]
                   = [Execute client tx (PaymentPayload.signature Sample.payload);
                      Console LogError (js "Payment settlement failed:")]
                /\ (executeTransactionBlock (aborting Sample.env) client tx (PaymentPayload.signature Sample.payload) tt
                    = (Raises (Err (js "Transaction failed: InsufficientGas")), tt)
                    \/ exists result,
                         executeTransactionBlock (aborting Sample.env) client tx
                                                 (PaymentPayload.signature Sample.payload) tt
                         = (Returns result, tt)
                         /\ execution_status result <> VStr (js "success")
                         /\ Err (js "Transaction failed: InsufficientGas")
                            = Err (js "Transaction failed: " ++ failure_reason result))).
Proof.
  refine (settlePayment_failure (aborting Sample.env) Sample.payload None tt
            (Err (js "Transaction failed: InsufficientGas")) tt
            [Execute (js "http://127.0.0.1:9000") [1; 2; 3; 250] (PaymentPayload.signature Sample.payload);
             Console LogError (js "Payment settlement failed:")] _).
  vm_compute; reflexivity.
Defined.

(** ** Coin selection *)

Lemma select_coins_from (coins : list Coin) (amount : Z) :
  forall acc sel total selected,
    select_coins coins amount acc sel = Ok (total, selected) ->
    exists (n : nat) (s : Z),
      (n <= List.length coins)%nat
      /\ selected = sel ++ map coinObjectId (firstn n coins)
      /\ sum_of_balances (firstn n coins) = Some s
      /\ total = acc + s
      /\ (forall k, (0 < k < n)%nat ->
            exists sk, sum_of_balances (firstn k coins) = Some sk /\ acc + sk < amount)
      /\ (total < amount -> n = List.length coins)
      /\ (coins <> [] -> (0 < n)%nat).
Proof.
  induction coins as [|coin rest IH]; intros acc sel total selected H.
  - cbn in H. injection H as <- <-.
    exists 0%nat, 0. cbn. rewrite app_nil_r, Z.add_0_r.
    repeat split; auto; try lia; try congruence.
  - cbn [select_coins] in H.
    destruct (BigInt (balance coin)) as [b|e|] eqn:Eb; try discriminate.
    destruct (acc + b >=? amount) eqn:Ege.
    + injection H as <- <-.
      exists 1%nat, b. cbn [firstn map sum_of_balances List.length].
      rewrite Eb, Z.add_0_r.
      apply Z.geb_le in Ege.
      repeat split; auto; try lia.
    + apply IH in H as (n & s & Hn & Hsel & Hsum & Htot & Hmin & Hall & _).
      exists (S n), (b + s). cbn [firstn map sum_of_balances List.length].
      rewrite Eb, Hsum.
      rewrite Z.geb_leb in Ege; apply Z.leb_gt in Ege.
      split; [lia|]. split; [rewrite Hsel, <- app_assoc; reflexivity|].
      split; [reflexivity|]. split; [lia|]. split; [|split; [|lia]].
      * intros [|[|k]] Hk; [lia| |].
        -- exists b. cbn [firstn sum_of_balances]. rewrite Eb, Z.add_0_r.
           split; [reflexivity|lia].
        -- destruct (Hmin (S k)) as (sk & Esk & Hlt); [lia|].
           exists (b + sk). cbn [firstn sum_of_balances] in *. rewrite Eb, Esk.
           split; [reflexivity|lia].
      * intros Hlt. rewrite Hall; [reflexivity|lia].
Qed.

(** X6.  The loop that picks coins in [createAndSignPayment] takes them in
    the order the ledger listed them and stops at the first coin with which
    the balances cover the amount: what it returns is a prefix of the list
    and the sum of its balances; no shorter non-empty prefix covers the
    amount; if the sum falls short, every coin was taken.  The first coin is
    always taken. *)
Theorem select_coins_shortest_prefix (coins : list Coin) (amount total : Z)
        (selected : list jsstring) :
  select_coins coins amount 0 [] = Ok (total, selected) ->
  exists n : nat,
    (n <= List.length coins)%nat
    /\ selected = map coinObjectId (firstn n coins)
    /\ sum_of_balances (firstn n coins) = Some total
    /\ (forall k, (0 < k < n)%nat ->
          exists sk, sum_of_balances (firstn k coins) = Some sk /\ sk < amount)
    /\ (total < amount -> n = List.length coins)
    /\ (coins <> [] -> (0 < n)%nat).
Proof.
  intros H.
  apply select_coins_from in H as (n & s & Hn & Hsel & Hsum & Htot & Hmin & Hall & Hpos).
  exists n. cbn in Hsel, Htot. subst total.
  repeat split; auto.
Qed.

Lemma select_coins_shortest_prefix_witness :
  exists n : nat,
    (n <= 3)%nat
    /\ [js "0xc1"; js "0xc2"]
       = map coinObjectId
           (firstn n [mkCoin (js "0xc1") (js "600000000");
                      mkCoin (js "0xc2") (js "700000000");
                      mkCoin (js "0xc3") (js "5")])
    /\ sum_of_balances
         (firstn n [mkCoin (js "0xc1") (js "600000000");
                    mkCoin (js "0xc2") (js "700000000");
                    mkCoin (js "0xc3") (js "5")]) = Some 1300000000
    /\ (forall k, (0 < k < n)%nat ->
          exists sk,
            sum_of_balances
              (firstn k [mkCoin (js "0xc1") (js "600000000");
                         mkCoin (js "0xc2") (js "700000000");
                         mkCoin (js "0xc3") (js "5")]) = Some sk
            /\ sk < 1000000000)
    /\ (1300000000 < 1000000000 -> n = 3%nat)
    /\ ([mkCoin (js "0xc1") (js "600000000");
         mkCoin (js "0xc2") (js "700000000");
         mkCoin (js "0xc3") (js "5")] <> [] -> (0 < n)%nat).
Proof.
  refine (select_coins_shortest_prefix
            [mkCoin (js "0xc1") (js "600000000");
             mkCoin (js "0xc2") (js "700000000");
             mkCoin (js "0xc3") (js "5")]
            1000000000 1300000000 [js "0xc1"; js "0xc2"] _).
  vm_compute; reflexivity.
Defined.


(** ** Building a payment *)

Lemma pure_u64_Ok (amount a : Z) :
  pure_u64 amount = Ok a -> a = amount /\ 0 <= amount <= max_u64.
Proof.
  unfold pure_u64. destruct ((0 <=? amount) && (amount <=? max_u64)) eqn:E; [|discriminate].
  intros [= <-]. apply andb_true_iff in E as [A B]. apply Z.leb_le in A, B. auto.
Qed.

(** X7.  What a payment is made of.  When [createAndSignPayment] returns,
    the required amount is one a [u64] holds, and one transaction was
    built, whose sender is the signer and which splits exactly that amount
    off one coin and transfers the coin split off to the requirement's
    payee; the signer was asked to sign the bytes built.  The payload
    carries these bytes in base64.  Its [signature] is [toB64] applied to
    the text the signer answered with, read as an array of numbers: the
    base64 of one byte for each character of that text, the digit for a
    digit and 0 for any other character.  For the native asset the coin is
    the gas coin and the ledger is not asked for coins.  For another asset
    the coins are asked for once; those selected cover the amount, the
    first is the source, and the others, if any, are merged into it before
    the split. *)
Theorem createAndSignPayment_pays_the_amount {W} (env : Env W)
        (r : PaymentRequirement.t) (signer : SuiSigner) (rpcUrl : option jsstring)
        (w : W) (p : PaymentPayload.t) (w' : W) (t : list Event) :
  createAndSignPayment env r signer rpcUrl w = (Ok p, w', t) ->
  exists client amount gets merges source txBytes signature w1 w2,
    getSuiClient (PaymentRequirement.network r) rpcUrl = Ok client
    /\ BigInt (PaymentRequirement.maxAmountRequired r) = Ok amount
    /\ t = gets ++ [Build client
                      (payment_transaction merges source amount
                         (PaymentRequirement.payTo r) (address signer));
                    Sign (address signer) txBytes]
    /\ build env client
             (payment_transaction merges source amount
                (PaymentRequirement.payTo r) (address signer)) w1
       = (Returns txBytes, w2)
    /\ signTransaction env (keypair signer) txBytes w2 = (Returns signature, w')
    /\ 0 <= amount <= max_u64
    /\ PaymentPayload.transaction p = toB64 txBytes
    /\ PaymentPayload.signature p
       = toB64 (map (fun c => if (48 <=? c) && (c <=? 57) then c - 48 else 0) signature)
    /\ (PaymentRequirement.asset r = js "0x2::sui::SUI" ->
        gets = [] /\ merges = [] /\ source = GasCoin /\ w1 = w)
    /\ (PaymentRequirement.asset r <> js "0x2::sui::SUI" ->
        exists coins total first others,
          gets = [GetCoins client (address signer) (PaymentRequirement.asset r)]
          /\ getCoins env client (address signer) (PaymentRequirement.asset r) w
             = (Returns coins, w1)
          /\ select_coins coins amount 0 [] = Ok (total, first :: others)
          /\ amount <= total
          /\ source = ObjectRef first
          /\ merges = merge_of first others).
Proof.
  unfold createAndSignPayment; intros H.
  apply bind_Ok_inv in H as (client & wa & ta & tb & Ec & H & ->).
  apply lift_Ok_inv in Ec as (Ec & -> & ->).
  apply try_catch_Ok_inv in H as [H|(e & wx & t1 & t2 & _ & H & _)].
  2:{ unfold bind, console_error, emit, throw in H; discriminate. }
  apply bind_Ok_inv in H as (amount & wb & tc & td & Ea & H & ->).
  apply lift_Ok_inv in Ea as (Ea & -> & ->).
  apply bind_Ok_inv in H as (cmds & w1 & gets & tf & Ecmds & H & ->).
  apply bind_Ok_inv in H as (txBytes & w2 & tg & th & Eb & H & ->).
  apply call_Ok_inv in Eb as (Eb & ->).
  apply bind_Ok_inv in H as (signature & w3 & ti & tj & Es & H & ->).
  apply call_Ok_inv in Es as (Es & ->).
  apply ret_inv in H as (Ep & -> & ->).
  injection Ep as ->.
  cbn [PaymentPayload.transaction PaymentPayload.signature].
  destruct (str_eqb (PaymentRequirement.asset r) (js "0x2::sui::SUI")) eqn:Easset.
  - apply bind_Ok_inv in Ecmds as (a & wu & tu & tv & Eu & Ecmds & ->).
    apply lift_Ok_inv in Eu as (Eu & -> & ->).
    apply pure_u64_Ok in Eu as (-> & Hu).
    apply ret_inv in Ecmds as (Ecmds & -> & ->).
    injection Ecmds as ->.
    apply str_eqb_eq in Easset.
    exists client, amount, [], [], GasCoin, txBytes, signature, w, w2.
    repeat split; auto; try lia. congruence.
  - apply str_eqb_neq in Easset.
    apply bind_Ok_inv in Ecmds as (coins & wc & tk & tl & Eg & Ecmds & ->).
    apply call_Ok_inv in Eg as (Eg & ->).
    destruct coins as [|coin coins]; [discriminate|].
    apply bind_Ok_inv in Ecmds as ([total selected] & wd & tm & tn & Esel & Ecmds & ->).
    apply lift_Ok_inv in Esel as (Esel & -> & ->).
    destruct (total <? amount) eqn:Elt; [discriminate|].
    apply Z.ltb_ge in Elt.
    destruct selected as [|first others]; [discriminate|].
    assert (Ecmds' : cmds = merge_of first others
                            ++ [SplitCoins (ObjectRef first) [amount];
                                TransferObjects
                                  [NestedResult (List.length (merge_of first others))]
                                  (PaymentRequirement.payTo r)]
                     /\ w1 = wc /\ tn = [] /\ 0 <= amount <= max_u64).
    { destruct others as [|second others];
        apply bind_Ok_inv in Ecmds as (a & wu & tu & tv & Eu & Ecmds & ->);
        apply lift_Ok_inv in Eu as (Eu & -> & ->);
        apply pure_u64_Ok in Eu as (-> & Hu);
        apply ret_inv in Ecmds as (Ecmds & -> & ->); injection Ecmds as ->;
        repeat split; try reflexivity; lia. }
    destruct Ecmds' as (-> & -> & -> & Hu).
    exists client, amount, [GetCoins client (address signer) (PaymentRequirement.asset r)],
           (merge_of first others), (ObjectRef first), txBytes, signature, wc, w2.
    repeat split; auto; try contradiction; try lia.
    intros _. exists (coin :: coins), total, first, others.
    repeat split; auto.
Qed.

Lemma createAndSignPayment_pays_the_amount_witness :
  exists client amount gets merges source txBytes signature w1 w2,
    getSuiClient (js "sui-localnet") None = Ok client
    /\ BigInt (js "1000000000") = Ok amount
    /\ [GetCoins (js "http://127.0.0.1:9000") (js "0xc11e") (js "0x2::usdc::USDC");
        Build (js "http://127.0.0.1:9000")
              (payment_transaction [MergeCoins (ObjectRef (js "0xc1")) [ObjectRef (js "0xc2")]]
                                   (ObjectRef (js "0xc1")) 1000000000
                                   Sample.payTo (js "0xc11e"));
        Sign (js "0xc11e") [1; 2; 3; 250]]
       = gets ++ [Build client
                    (payment_transaction merges source amount Sample.payTo (js "0xc11e"));
                  Sign (js "0xc11e") txBytes]
    /\ build Sample.env client
             (payment_transaction merges source amount Sample.payTo (js "0xc11e")) w1
       = (Returns txBytes, w2)
    /\ signTransaction Sample.env [42] txBytes w2 = (Returns signature, tt)
    /\ 0 <= amount <= max_u64
    /\ toB64 [1; 2; 3; 250] = toB64 txBytes
    /\ js "AAAAAwAAAAA="
       = toB64 (map (fun c => if (48 <=? c) && (c <=? 57) then c - 48 else 0) signature)
    /\ (js "0x2::usdc::USDC" = js "0x2::sui::SUI" ->
        gets = [] /\ merges = [] /\ source = GasCoin /\ w1 = tt)
    /\ (js "0x2::usdc::USDC" <> js "0x2::sui::SUI" ->
        exists coins total first others,
          gets = [GetCoins client (js "0xc11e") (js "0x2::usdc::USDC")]
          /\ getCoins Sample.env client (js "0xc11e") (js "0x2::usdc::USDC") tt
             = (Returns coins, w1)
          /\ select_coins coins amount 0 [] = Ok (total, first :: others)
          /\ amount <= total
          /\ source = ObjectRef first
          /\ merges = merge_of first others).
Proof.
  refine (createAndSignPayment_pays_the_amount Sample.env
            (PaymentRequirement.mk (js "exact") (js "sui-localnet") (js "1000000000")
               (js "http://localhost:4021/weather") None None Sample.payTo 60
               (js "0x2::usdc::USDC") None None)
            Sample.signer None tt
            (PaymentPayload.mk (js "exact") (js "sui-localnet") (toB64 [1; 2; 3; 250])
               (js "AAAAAwAAAAA=") (js "1000000000") Sample.payTo (js "0x2::usdc::USDC"))
            tt
            [GetCoins (js "http://127.0.0.1:9000") (js "0xc11e") (js "0x2::usdc::USDC");
             Build (js "http://127.0.0.1:9000")
               (payment_transaction [MergeCoins (ObjectRef (js "0xc1")) [ObjectRef (js "0xc2")]]
                                    (ObjectRef (js "0xc1")) 1000000000
                                    Sample.payTo (js "0xc11e"));
             Sign (js "0xc11e") [1; 2; 3; 250]] _).
  vm_compute; reflexivity.
Defined.

(** X8.  Without funds nothing is built or signed.  For an asset other
    than the native one: when the ledger lists no coin of the asset for the
    signer, [createAndSignPayment] throws "No coins found for type <asset>";
    when the balances of all the coins listed stay below the amount, it
    throws "Insufficient balance. Required: <amount>, Available: <sum>".
    In both cases the ledger was asked for the coins and nothing else, and
    the error is written to the error log before it is thrown. *)
Theorem createAndSignPayment_without_funds {W} (env : Env W)
        (r : PaymentRequirement.t) (signer : SuiSigner) (rpcUrl : option jsstring)
        (w : W) (client : jsstring) (amount : Z) (coins : list Coin) (w1 : W) :
  getSuiClient (PaymentRequirement.network r) rpcUrl = Ok client ->
  BigInt (PaymentRequirement.maxAmountRequired r) = Ok amount ->
  PaymentRequirement.asset r <> js "0x2::sui::SUI" ->
  getCoins env client (address signer) (PaymentRequirement.asset r) w = (Returns coins, w1) ->
  (coins = [] ->
   createAndSignPayment env r signer rpcUrl w
   = (Throw (Err (js "No coins found for type " ++ PaymentRequirement.asset r)), w1,
      [GetCoins client (address signer) (PaymentRequirement.asset r);
       Console LogError (js "Failed to create and sign payment:")]))
  /\ (forall total,
         coins <> [] ->
         sum_of_balances coins = Some total ->
         (forall k sk, (0 < k <= List.length coins)%nat ->
                       sum_of_balances (firstn k coins) = Some sk -> sk < amount) ->
         createAndSignPayment env r signer rpcUrl w
         = (Throw (Err (js "Insufficient balance. Required: " ++ decimal_of_Z amount
                        ++ js ", Available: " ++ decimal_of_Z total)), w1,
            [GetCoins client (address signer) (PaymentRequirement.asset r);
             Console LogError (js "Failed to create and sign payment:")])).
Proof.
  intros Ec Ea Hasset Eg.
  apply str_eqb_neq in Hasset.
  split.
  - intros ->.
    unfold createAndSignPayment, bind, try_catch, lift, call, throw, console_error, emit.
    rewrite Ec, Ea, Hasset, Eg. reflexivity.
  - intros total Hne Hsum Hshort.
    assert (Esel : exists selected, select_coins coins amount 0 [] = Ok (total, selected)).
    { clear Eg Hne.
      assert (G : forall acc sel,
                 (forall k sk, (0 < k <= List.length coins)%nat ->
                               sum_of_balances (firstn k coins) = Some sk ->
                               acc + sk < amount) ->
                 exists selected,
                   select_coins coins amount acc sel = Ok (acc + total, selected)).
      { revert total Hsum. clear Hshort.
        induction coins as [|coin rest IH]; intros total Hsum acc sel Hshort.
        - cbn in Hsum; injection Hsum as <-. cbn. rewrite Z.add_0_r. eauto.
        - cbn [sum_of_balances] in Hsum. cbn [select_coins].
          destruct (BigInt (balance coin)) as [b|e|] eqn:Eb; try discriminate.
          destruct (sum_of_balances rest) as [s|] eqn:Es; try discriminate.
          injection Hsum as <-.
          assert (Hb : acc + b < amount).
          { apply (Hshort 1%nat b); [cbn [List.length]; lia|].
            cbn [firstn sum_of_balances]. rewrite Eb, Z.add_0_r. reflexivity. }
          replace (acc + b >=? amount) with false
            by (symmetry; rewrite Z.geb_leb; apply Z.leb_gt; exact Hb).
          destruct (IH s eq_refl (acc + b) (sel ++ [coinObjectId coin])) as (selected & E).
          + intros k sk Hk Esk.
            assert (acc + (b + sk) < amount); [|lia].
            apply (Hshort (S k) (b + sk)); [cbn [List.length]; lia|].
            cbn [firstn sum_of_balances]. rewrite Eb, Esk. reflexivity.
          + exists selected. rewrite E. f_equal. f_equal. lia. }
      destruct (G 0 []) as (selected & E); [intros k sk Hk Esk; cbn; eauto|].
      exists selected; exact E. }
    destruct Esel as (selected & Esel).
    assert (Hlt : (total <? amount) = true).
    { apply Z.ltb_lt. apply (Hshort (List.length coins) total).
      - destruct coins; [contradiction|cbn [List.length]; lia].
      - now rewrite firstn_all. }
    unfold createAndSignPayment, bind, try_catch, lift, call, throw, console_error, emit.
    rewrite Ec, Ea, Hasset, Eg.
    destruct coins as [|coin rest]; [contradiction|].
    rewrite Esel, Hlt. reflexivity.
Qed.

Lemma createAndSignPayment_without_funds_witness :
  ([mkCoin (js "0xc1") (js "600000000"); mkCoin (js "0xc2") (js "700000000")] = [] ->
   createAndSignPayment Sample.env
     (PaymentRequirement.mk (js "exact") (js "sui-localnet") (js "2000000000")
        (js "http://localhost:4021/premium-data") None None Sample.payTo 60
        (js "0x2::usdc::USDC") None None)
     Sample.signer None tt
   = (Throw (Err (js "No coins found for type " ++ js "0x2::usdc::USDC")), tt,
      [GetCoins (js "http://127.0.0.1:9000") (js "0xc11e") (js "0x2::usdc::USDC");
       Console LogError (js "Failed to create and sign payment:")]))
  /\ (forall total,
         [mkCoin (js "0xc1") (js "600000000"); mkCoin (js "0xc2") (js "700000000")] <> [] ->
         sum_of_balances
           [mkCoin (js "0xc1") (js "600000000"); mkCoin (js "0xc2") (js "700000000")]
         = Some total ->
         (forall k sk,
             (0 < k <= 2)%nat ->
             sum_of_balances
               (firstn k [mkCoin (js "0xc1") (js "600000000");
                          mkCoin (js "0xc2") (js "700000000")]) = Some sk ->
             sk < 2000000000) ->
         createAndSignPayment Sample.env
           (PaymentRequirement.mk (js "exact") (js "sui-localnet") (js "2000000000")
              (js "http://localhost:4021/premium-data") None None Sample.payTo 60
              (js "0x2::usdc::USDC") None None)
           Sample.signer None tt
         = (Throw (Err (js "Insufficient balance. Required: " ++ decimal_of_Z 2000000000
                        ++ js ", Available: " ++ decimal_of_Z total)), tt,
            [GetCoins (js "http://127.0.0.1:9000") (js "0xc11e") (js "0x2::usdc::USDC");
             Console LogError (js "Failed to create and sign payment:")])).
Proof.
  apply (createAndSignPayment_without_funds Sample.env
           (PaymentRequirement.mk (js "exact") (js "sui-localnet") (js "2000000000")
              (js "http://localhost:4021/premium-data") None None Sample.payTo 60
              (js "0x2::usdc::USDC") None None)
           Sample.signer None tt (js "http://127.0.0.1:9000") 2000000000
           [mkCoin (js "0xc1") (js "600000000"); mkCoin (js "0xc2") (js "700000000")] tt).
  - reflexivity.
  - vm_compute; reflexivity.
  - vm_compute; discriminate.
  - reflexivity.
Defined.


(** * More on the interceptor *)

Lemma decode_header_nonempty header payload : decode_header header = Ok payload -> header <> [].
Proof. intros H ->; discriminate. Qed.

Lemma on_finish_without_facilitator {W} (env : Env W) payload h (w : W) :
  on_finish env None payload h w = (Ok tt, w, []).
Proof. unfold on_finish; destruct (_ && _); reflexivity. Qed.

(** ** Verification of whatever was decoded *)

Lemma same_refl {W A} (m : M W A) : same m m.
Proof. intros w; reflexivity. Qed.

Lemma same_trans {W A} (m1 m2 m3 : M W A) : same m1 m2 -> same m2 m3 -> same m1 m3.
Proof. intros H1 H2 w; now rewrite H1. Qed.

Lemma same_bind {W A B} (m m' : M W A) (k k' : A -> M W B) :
  same m m' -> (forall a, same (k a) (k' a)) -> same (bind m k) (bind m' k').
Proof.
  intros Hm Hk w; unfold bind; rewrite Hm.
  destruct (m' w) as [[[a|e|] w1] t1]; [now rewrite Hk|reflexivity..].
Qed.

Lemma same_try_catch {W A} (m m' : M W A) (h h' : Error -> M W A) :
  same m m' -> (forall e, same (h e) (h' e)) -> same (try_catch m h) (try_catch m' h').
Proof.
  intros Hm Hh w; unfold try_catch; rewrite Hm.
  destruct (m' w) as [[[a|e|] w1] t1]; [reflexivity|now rewrite Hh|reflexivity].
Qed.

Lemma bind_lift_Ok {W A B} (a : A) (k : A -> M W B) (w : W) :
  bind (lift (Ok a)) k w = k a w.
Proof. unfold bind, lift. destruct (k a w) as [[r w2] t2]; reflexivity. Qed.

Lemma same_bind_lift_Ok {W A B} (a : A) (k : A -> M W B) : same (bind (lift (Ok a)) k) (k a).
Proof. intros w; apply bind_lift_Ok. Qed.

Lemma string_field_get (ps : list (jsstring * value)) (k s : jsstring) :
  PaymentRequirement.string_field (VObj ps) k = Some s -> get (VObj ps) k = Ok (VStr s).
Proof.
  unfold PaymentRequirement.string_field, get_opt; cbn [get].
  destruct (lookup k ps) as [[| |b|n|t|l|o]|]; intros H; try discriminate.
  now injection H as ->.
Qed.

Lemma cast_reads_payload (v : value) (p : PaymentPayload.t) :
  PaymentPayload.of_value v = Some p -> reads_payload v p.
Proof.
  destruct v as [| |b|n|s|l|ps]; try discriminate.
  unfold PaymentPayload.of_value.
  destruct (PaymentRequirement.string_field (VObj ps) (js "scheme")) eqn:E1; [|discriminate].
  destruct (PaymentRequirement.string_field (VObj ps) (js "network")) eqn:E2; [|discriminate].
  destruct (PaymentRequirement.string_field (VObj ps) (js "transaction")) eqn:E3;
    [|discriminate].
  destruct (PaymentRequirement.string_field (VObj ps) (js "signature")) eqn:E4;
    [|discriminate].
  destruct (PaymentRequirement.string_field (VObj ps) (js "amount")) eqn:E5; [|discriminate].
  destruct (PaymentRequirement.string_field (VObj ps) (js "payTo")) eqn:E6; [|discriminate].
  destruct (PaymentRequirement.string_field (VObj ps) (js "asset")) eqn:E7; [|discriminate].
  intros H; injection H as <-.
  apply string_field_get in E1, E2, E3, E4, E5, E6, E7.
  repeat split; assumption.
Qed.

Lemma cast_reads_requirement (v : value) (r : PaymentRequirement.t) :
  PaymentRequirement.of_value v = Some r -> reads_requirement v r.
Proof.
  destruct v as [| |b|n|s|l|ps]; try discriminate.
  unfold PaymentRequirement.of_value.
  destruct (PaymentRequirement.string_field (VObj ps) (js "scheme")) eqn:E1; [|discriminate].
  destruct (PaymentRequirement.string_field (VObj ps) (js "network")) eqn:E2; [|discriminate].
  destruct (PaymentRequirement.string_field (VObj ps) (js "maxAmountRequired")) eqn:E3;
    [|discriminate].
  destruct (PaymentRequirement.string_field (VObj ps) (js "resource")) eqn:E4;
    [|discriminate].
  destruct (PaymentRequirement.optional_string (VObj ps) (js "description")); [|discriminate].
  destruct (PaymentRequirement.optional_string (VObj ps) (js "mimeType")); [|discriminate].
  destruct (PaymentRequirement.string_field (VObj ps) (js "payTo")) eqn:E5; [|discriminate].
  destruct (get_opt (VObj ps) (js "maxTimeoutSeconds")) as [| | |[tmo| | |]| | |];
    try discriminate.
  destruct (PaymentRequirement.string_field (VObj ps) (js "asset")) eqn:E6; [|discriminate].
  intros H; injection H as <-.
  apply string_field_get in E2, E3, E5, E6.
  repeat split; assumption.
Qed.

Lemma requirement_reads_itself (r : PaymentRequirement.t) :
  reads_requirement (PaymentRequirement.to_value r) r.
Proof.
  destruct r as [s n m res d mt p tmo a os ex].
  destruct d, mt; repeat split; reflexivity.
Qed.

Lemma payload_reads_itself (p : PaymentPayload.t) :
  reads_payload (PaymentPayload.to_value p) p.
Proof. destruct p; repeat split; reflexivity. Qed.

(** On the values of a payload and of a requirement the function does
    what it does on the payload and the requirement. *)
Lemma untyped_verifyPayment_typed {W} (env : Env W) (vp vr : value)
      (p : PaymentPayload.t) (r : PaymentRequirement.t) (rpcUrl : option jsstring) :
  reads_payload vp p -> reads_requirement vr r ->
  same (Untyped.verifyPayment env vp vr rpcUrl) (verifyPayment env p r rpcUrl).
Proof.
  intros (P1 & P2 & P3 & P4 & P5 & P6 & P7) (R1 & R2 & R3 & R4).
  unfold Untyped.verifyPayment, verifyPayment.
  apply same_try_catch; [|intros e; apply same_refl].
  rewrite P1. eapply same_trans; [apply same_bind_lift_Ok|]. cbv beta. cbn [is_string].
  destruct (negb (str_eqb (PaymentPayload.scheme p) (js "exact"))); [apply same_refl|].
  rewrite P2. eapply same_trans; [apply same_bind_lift_Ok|]. cbv beta.
  rewrite R1. eapply same_trans; [apply same_bind_lift_Ok|]. cbv beta. cbn [strict_eq].
  destruct (negb (str_eqb (PaymentPayload.network p) (PaymentRequirement.network r)));
    [apply same_refl|].
  rewrite P6. eapply same_trans; [apply same_bind_lift_Ok|]. cbv beta.
  rewrite R3. eapply same_trans; [apply same_bind_lift_Ok|]. cbv beta. cbn [strict_eq].
  destruct (negb (str_eqb (PaymentPayload.payTo p) (PaymentRequirement.payTo r)));
    [apply same_refl|].
  rewrite P7. eapply same_trans; [apply same_bind_lift_Ok|]. cbv beta.
  rewrite R4. eapply same_trans; [apply same_bind_lift_Ok|]. cbv beta. cbn [strict_eq].
  destruct (negb (str_eqb (PaymentPayload.asset p) (PaymentRequirement.asset r)));
    [apply same_refl|].
  rewrite P5. eapply same_trans; [apply same_bind_lift_Ok|]. cbv beta.
  cbn [BigInt_of_value].
  apply same_bind; [apply same_refl|intros paidAmount].
  rewrite R2. eapply same_trans; [apply same_bind_lift_Ok|]. cbv beta.
  cbn [BigInt_of_value].
  apply same_bind; [apply same_refl|intros requiredAmount].
  destruct (paidAmount <? requiredAmount); [apply same_refl|].
  apply same_bind; [intros w; reflexivity|intros client].
  rewrite P3. eapply same_trans; [apply same_bind_lift_Ok|]. cbv beta.
  apply same_bind; [intros w; reflexivity|intros txBytes].
  apply same_refl.
Qed.

Lemma ToString_not_stuck (v : value) : ToString v <> Stuck.
Proof. unfold ToString; destruct (convertible v); discriminate. Qed.

Lemma BigInt_of_value_not_stuck (v : value) : BigInt_of_value v <> Stuck.
Proof.
  destruct v as [| |b|[z| | |]|s|l|ps]; cbn [BigInt_of_value]; try discriminate.
  - apply BigInt_not_stuck.
  - pose proof (ToString_not_stuck (VArr l)) as H.
    destruct (ToString (VArr l)); [apply BigInt_not_stuck|discriminate|contradiction].
  - pose proof (ToString_not_stuck (VObj ps)) as H.
    destruct (ToString (VObj ps)); [apply BigInt_not_stuck|discriminate|contradiction].
Qed.

Lemma fromB64_of_value_not_stuck (v : value) : fromB64_of_value v <> Stuck.
Proof.
  unfold fromB64_of_value. pose proof (ToString_not_stuck v) as H.
  destruct (ToString v); [apply fromB64_not_stuck|discriminate|contradiction].
Qed.

Lemma getSuiClient_of_value_not_stuck (v : value) rpcUrl :
  getSuiClient_of_value v rpcUrl <> Stuck.
Proof.
  unfold getSuiClient_of_value.
  destruct rpcUrl as [[|c u]|]; try discriminate;
    destruct v; try discriminate; apply getFullnodeUrl_not_stuck.
Qed.

Ltac settle :=
  repeat first
    [ apply settled_ret | apply settled_throw | apply settled_emit | apply settled_call
    | apply settled_lift;
      first [ apply get_not_stuck | apply BigInt_of_value_not_stuck
            | apply fromB64_of_value_not_stuck | apply getSuiClient_of_value_not_stuck ]
    | apply settled_bind; [|intros ?]
    | apply settled_try_catch; [|intros ?]
    | match goal with
      | |- settled (match ?x with _ => _ end) => destruct x
      end ].

(** Whatever it is given, [verifyPayment] answers: nothing is thrown, and
    all it does is write to the console and ask for a dry run. *)
Lemma untyped_verifyPayment_answers {W} (env : Env W) (vp vr : value) rpcUrl (w : W) :
  exists (b : bool) (w1 : W) (t1 : list Event),
    Untyped.verifyPayment env vp vr rpcUrl w = (Ok b, w1, t1)
    /\ forallb is_verification t1 = true.
Proof.
  pose proof (untyped_verifyPayment_only env vp vr rpcUrl w) as Hev.
  assert (Hout : exists b, outcome (Untyped.verifyPayment env vp vr rpcUrl w) = Ok b).
  { unfold Untyped.verifyPayment. rewrite outcome_try_catch.
    match goal with
    | |- exists b, match outcome (?m w) with _ => _ end = _ =>
        assert (Hs : settled m) by (unfold console_error; settle);
        specialize (Hs w); destruct (outcome (m w)) as [b|e|]
    end.
    - now exists b.
    - exists false; reflexivity.
    - contradiction. }
  destruct Hout as (b & Hout).
  destruct (Untyped.verifyPayment env vp vr rpcUrl w) as [[o w1] t1].
  unfold outcome in Hout; cbn [fst] in Hout; subst o.
  exists b, w1, t1. split; [reflexivity|exact Hev].
Qed.

(** The run of the middleware with local verification, once the header is
    decoded. *)
Lemma middleware_verified_locally {W} (env : Env W) payTo routes x402Config req next (w : W)
      routeConfig header payload b w1 t1 :
  protected routes req routeConfig ->
  lookup (js "x-payment") (Request.headers req) = Some header ->
  decode_header header = Ok payload ->
  Untyped.verifyPayment env payload
    (PaymentRequirement.to_value (expected_requirement payTo x402Config req routeConfig))
    (rpcUrl x402Config) w = (Ok b, w1, t1) ->
  paymentMiddleware env payTo routes None x402Config req next w
  = if b then (Ok (Delivered (fst (next (Some payload) w1))),
               snd (next (Some payload) w1), t1 ++ [Handler])
    else (Ok (Json 402 verification_failed), w1, t1).
Proof.
  intros (Hroute & Hcov) Hhdr Hd Hv.
  pose proof (decode_header_nonempty _ _ Hd) as Hne.
  destruct header as [|c hdr]; [contradiction|].
  unfold paymentMiddleware, covers in *.
  rewrite Hroute, Hcov, Hhdr; cbn [negb].
  unfold try_catch, bind at 1, lift.
  rewrite Hd. unfold bind at 1. rewrite Hv.
  destruct b; cbn [negb].
  - unfold bind, detached, ret.
    destruct (next (Some payload) w1) as [h w2]; cbn [fst snd].
    rewrite on_finish_without_facilitator. now rewrite !app_nil_r.
  - unfold ret. now rewrite app_nil_r.
Qed.

Lemma middleware_local_run {W} (env : Env W) payTo routes x402Config req next (w : W)
      routeConfig header payload p b w1 t1 :
  protected routes req routeConfig ->
  lookup (js "x-payment") (Request.headers req) = Some header ->
  decode_header header = Ok payload ->
  PaymentPayload.of_value payload = Some p ->
  verifyPayment env p (expected_requirement payTo x402Config req routeConfig)
                (rpcUrl x402Config) w = (Ok b, w1, t1) ->
  paymentMiddleware env payTo routes None x402Config req next w
  = if b then (Ok (Delivered (fst (next (Some payload) w1))),
               snd (next (Some payload) w1), t1 ++ [Handler])
    else (Ok (Json 402 verification_failed), w1, t1).
Proof.
  intros Hprot Hhdr Hd Hof Hv.
  apply (middleware_verified_locally env payTo routes x402Config req next w routeConfig
           header payload b w1 t1 Hprot Hhdr Hd).
  rewrite (untyped_verifyPayment_typed env payload _ p _ (rpcUrl x402Config)
             (cast_reads_payload _ _ Hof) (requirement_reads_itself _)).
  exact Hv.
Qed.

(** The run of the middleware with a facilitator, once the header is
    decoded and the facilitator has answered. *)
Lemma middleware_delegated_run {W} (env : Env W) payTo routes f x402Config req next (w : W)
      routeConfig header payload resp w1 :
  protected routes req routeConfig ->
  lookup (js "x-payment") (Request.headers req) = Some header ->
  decode_header header = Ok payload ->
  fetch env (FacilitatorConfig.url f ++ js "/verify")
        (verify_request payTo x402Config req routeConfig f payload) w = (Returns resp, w1) ->
  paymentMiddleware env payTo routes (Some f) x402Config req next w
  = if Response.ok resp then
      let (h, w2) := next (Some payload) w1 in
      let '(_, w3, t3) := on_finish env (Some f) payload h w2 in
      (Ok (Delivered h), w3,
       HttpFetch (FacilitatorConfig.url f ++ js "/verify")
                 (verify_request payTo x402Config req routeConfig f payload)
       :: Handler :: t3)
    else (Ok (Json 402 verification_failed), w1,
          [HttpFetch (FacilitatorConfig.url f ++ js "/verify")
                     (verify_request payTo x402Config req routeConfig f payload);
           Console LogError (js "Facilitator verification failed:")]).
Proof.
  intros (Hroute & Hcov) Hhdr Hd Hf.
  pose proof (decode_header_nonempty _ _ Hd) as Hne.
  destruct header as [|c hdr]; [contradiction|].
  unfold paymentMiddleware, covers, verify_request in *.
  rewrite Hroute, Hcov, Hhdr; cbn [negb].
  unfold try_catch, bind at 1, lift.
  rewrite Hd. unfold bind at 1. unfold bind at 1. unfold call at 1. rewrite Hf.
  destruct (Response.ok resp); cbn [negb].
  - unfold ret at 1. cbn [negb]. unfold bind, detached, ret.
    destruct (next (Some payload) w1) as [h w2].
    destruct (on_finish env (Some f) payload h w2) as [[o w3] t3].
    cbn. now rewrite app_nil_r.
  - unfold bind, console_error, emit, ret. reflexivity.
Qed.

(** X9.  Where no payment is asked for.  A request whose path is not in
    the routes configuration, or whose method is not among the methods of
    its route (only GET when the route names none), goes to the next handler
    as it is: whatever headers it carries, nothing is decoded, verified,
    logged or settled, and no 402 is answered. *)
Theorem unprotected_request_passes_through {W} (env : Env W)
        (payTo : jsstring) (routes : RoutesConfig)
        (facilitator : option FacilitatorConfig.t) (x402Config : option X402Config.t)
        (req : Request.t) (next : option value -> W -> Handled * W) (w : W) :
  lookup (Request.path req) routes = None
  \/ (exists routeConfig,
         lookup (Request.path req) routes = Some routeConfig
         /\ covers routeConfig (Request.method req) = false) ->
  paymentMiddleware env payTo routes facilitator x402Config req next w
  = (Ok (Next (fst (next None w))), snd (next None w), [Handler]).
Proof.
  intros [Hroute|(routeConfig & Hroute & Hcov)];
    unfold paymentMiddleware, covers in *; rewrite Hroute; [|rewrite Hcov; cbn [negb]];
    unfold bind, ret; destruct (next None w); reflexivity.
Qed.

Lemma unprotected_request_passes_through_witness :
  paymentMiddleware Sample.env Sample.payTo
                    [(js "/weather", RouteConfig.mk None (js "1000000000") None)]
                    None None
                    (Request.mk (js "/weather") (js "POST")
                                [(js "x-payment", js "not a payment")] (js "http")
                                (Some (js "localhost:4021")) (js "/weather"))
                    (Sample.handler 200) tt
  = (Ok (Next (fst (Sample.handler 200 None tt))), snd (Sample.handler 200 None tt),
     [Handler]).
Proof.
  apply (unprotected_request_passes_through Sample.env Sample.payTo
           [(js "/weather", RouteConfig.mk None (js "1000000000") None)] None None
           (Request.mk (js "/weather") (js "POST")
                       [(js "x-payment", js "not a payment")] (js "http")
                       (Some (js "localhost:4021")) (js "/weather"))
           (Sample.handler 200) tt).
  right. exists (RouteConfig.mk None (js "1000000000") None).
  split; reflexivity.
Defined.

(** X10.  Nothing is served unverified.  On a protected route the next
    handler runs only for a request whose payment header decodes and whose
    payment was accepted: by the facilitator's [/verify] answering with a
    2xx status when a facilitator is configured; otherwise by
    [verifyPayment] answering [true] for the decoded value, of whatever
    shape it is, and the requirement of the route. *)
Theorem handler_runs_only_after_verification {W} (env : Env W)
        (payTo : jsstring) (routes : RoutesConfig)
        (facilitator : option FacilitatorConfig.t) (x402Config : option X402Config.t)
        (req : Request.t) (next : option value -> W -> Handled * W) (w : W)
        (routeConfig : RouteConfig.t) :
  protected routes req routeConfig ->
  In Handler (events (paymentMiddleware env payTo routes facilitator x402Config req next w)) ->
  exists header payload,
    lookup (js "x-payment") (Request.headers req) = Some header
    /\ decode_header header = Ok payload
    /\ match facilitator with
       | Some f =>
           exists resp w1,
             fetch env (FacilitatorConfig.url f ++ js "/verify")
                   (verify_request payTo x402Config req routeConfig f payload) w
             = (Returns resp, w1)
             /\ Response.ok resp = true
       | None =>
           outcome (Untyped.verifyPayment env payload
                      (PaymentRequirement.to_value
                         (expected_requirement payTo x402Config req routeConfig))
                      (rpcUrl x402Config) w) = Ok true
       end.
Proof.
  intros Hprot Hin.
  destruct (lookup (js "x-payment") (Request.headers req)) as [header|] eqn:Hhdr.
  2:{ exfalso. destruct Hprot as (Hroute & Hcov).
      unfold paymentMiddleware, covers in *. rewrite Hroute, Hcov, Hhdr in Hin.
      exact Hin. }
  destruct header as [|c hdr].
  { exfalso. destruct Hprot as (Hroute & Hcov).
    unfold paymentMiddleware, covers in *. rewrite Hroute, Hcov, Hhdr in Hin.
    exact Hin. }
  exists (c :: hdr).
  destruct (decode_header (c :: hdr)) as [payload|e|] eqn:Hd.
  2,3: exfalso; destruct Hprot as (Hroute & Hcov);
       unfold paymentMiddleware, covers in *; rewrite Hroute, Hcov, Hhdr in Hin;
       cbn [negb] in Hin; unfold try_catch, bind at 1, lift in Hin; rewrite Hd in Hin;
       cbn in Hin; intuition discriminate.
  exists payload. split; [reflexivity|]. split; [reflexivity|].
  destruct facilitator as [f|].
  - destruct (fetch env (FacilitatorConfig.url f ++ js "/verify")
                (verify_request payTo x402Config req routeConfig f payload) w)
      as [[resp|e] w1] eqn:Hf.
    + exists resp, w1. split; [reflexivity|].
      rewrite (middleware_delegated_run env payTo routes f x402Config req next w
                 routeConfig (c :: hdr) payload resp w1 Hprot Hhdr Hd Hf) in Hin.
      destruct (Response.ok resp); [reflexivity|].
      cbn in Hin. destruct Hin as [Hin|[Hin|[]]]; discriminate.
    + exfalso. destruct Hprot as (Hroute & Hcov).
      unfold paymentMiddleware, covers, verify_request in *.
      rewrite Hroute, Hcov, Hhdr in Hin. cbn [negb] in Hin.
      unfold try_catch, bind at 1, lift in Hin. rewrite Hd in Hin.
      unfold bind at 1 in Hin. unfold bind at 1 in Hin. unfold call at 1 in Hin.
      rewrite Hf in Hin. cbn in Hin.
      destruct Hin as [Hin|[Hin|[]]]; discriminate.
  - destruct (untyped_verifyPayment_answers env payload
                (PaymentRequirement.to_value
                   (expected_requirement payTo x402Config req routeConfig))
                (rpcUrl x402Config) w) as (b & w1 & t1 & Hv & Ht).
    rewrite Hv. unfold outcome; cbn [fst].
    rewrite (middleware_verified_locally env payTo routes x402Config req next w
               routeConfig (c :: hdr) payload b w1 t1 Hprot Hhdr Hd Hv) in Hin.
    destruct b; [reflexivity|].
    exfalso. cbn [events snd] in Hin.
    rewrite forallb_forall in Ht. specialize (Ht Handler Hin). discriminate.
Qed.

Lemma handler_runs_only_after_verification_witness :
  exists header payload,
    lookup (js "x-payment")
           (Request.headers (Sample.request [(js "x-payment", encode_header numeric_payment)]))
    = Some header
    /\ decode_header header = Ok payload
    /\ outcome (Untyped.verifyPayment Sample.env payload
                  (PaymentRequirement.to_value
                     (expected_requirement Sample.payTo None
                        (Sample.request [(js "x-payment", encode_header numeric_payment)])
                        Sample.weather))
                  (rpcUrl None) tt) = Ok true.
Proof.
  apply (handler_runs_only_after_verification Sample.env Sample.payTo Sample.routes
           None None (Sample.request [(js "x-payment", encode_header numeric_payment)])
           (Sample.handler 200) tt Sample.weather).
  - split; reflexivity.
  - vm_compute. right; left; reflexivity.
Defined.


(** X11.  A payment header that cannot be decoded.  On a protected route,
    when the text of the [x-payment] header is not the base64 of a JSON
    text, the answer is 402 with the error "Invalid payment format"; the
    failure is written to the error log, and nothing else happens: no
    verification, no call to a facilitator or to the ledger, no handler. *)
Theorem undecodable_payment_is_refused {W} (env : Env W)
        (payTo : jsstring) (routes : RoutesConfig)
        (facilitator : option FacilitatorConfig.t) (x402Config : option X402Config.t)
        (req : Request.t) (next : option value -> W -> Handled * W) (w : W)
        (routeConfig : RouteConfig.t) (header : jsstring) (e : Error) :
  protected routes req routeConfig ->
  lookup (js "x-payment") (Request.headers req) = Some header ->
  header <> [] ->
  decode_header header = Throw e ->
  paymentMiddleware env payTo routes facilitator x402Config req next w
  = (Ok (Json 402 invalid_format), w, [Console LogError (js "Payment processing error:")]).
Proof.
  intros (Hroute & Hcov) Hhdr Hne Hd.
  destruct header as [|c hdr]; [contradiction|].
  unfold paymentMiddleware, covers in *.
  rewrite Hroute, Hcov, Hhdr; cbn [negb].
  unfold try_catch, bind at 1, lift. rewrite Hd. reflexivity.
Qed.

Lemma undecodable_payment_is_refused_witness :
  paymentMiddleware Sample.env Sample.payTo Sample.routes (Some Sample.facilitator) None
                    (Sample.request [(js "x-payment", js "not a payment")])
                    (Sample.handler 200) tt
  = (Ok (Json 402 invalid_format), tt, [Console LogError (js "Payment processing error:")]).
Proof.
  apply (undecodable_payment_is_refused Sample.env Sample.payTo Sample.routes
           (Some Sample.facilitator) None
           (Sample.request [(js "x-payment", js "not a payment")])
           (Sample.handler 200) tt Sample.weather (js "not a payment") SyntaxError).
  - split; reflexivity.
  - reflexivity.
  - discriminate.
  - vm_compute; reflexivity.
Defined.

(** X12.  Local verification decides.  Without a facilitator, for a
    request to a protected route whose header decodes to a payload,
    [verifyPayment] is run once against the requirement of the route; on
    [false] the answer is 402 with the error "Payment verification failed"
    and the handler does not run; on [true] the handler runs, with the
    decoded payload attached to the request, and its response is the
    result.  Nothing else is done: in particular the payment is not
    executed. *)
Theorem local_verification_decides {W} (env : Env W)
        (payTo : jsstring) (routes : RoutesConfig) (x402Config : option X402Config.t)
        (req : Request.t) (next : option value -> W -> Handled * W) (w : W)
        (routeConfig : RouteConfig.t) (header : jsstring) (payload : value)
        (p : PaymentPayload.t) :
  protected routes req routeConfig ->
  lookup (js "x-payment") (Request.headers req) = Some header ->
  decode_header header = Ok payload ->
  PaymentPayload.of_value payload = Some p ->
  exists (b : bool) (w1 : W) (t1 : list Event),
    verifyPayment env p (expected_requirement payTo x402Config req routeConfig)
                  (rpcUrl x402Config) w = (Ok b, w1, t1)
    /\ paymentMiddleware env payTo routes None x402Config req next w
       = if b then (Ok (Delivered (fst (next (Some payload) w1))),
                    snd (next (Some payload) w1), t1 ++ [Handler])
         else (Ok (Json 402 verification_failed), w1, t1).
Proof.
  intros Hprot Hhdr Hd Hof.
  destruct (verifyPayment_run env p (expected_requirement payTo x402Config req routeConfig)
              (rpcUrl x402Config) w) as (b & w1 & dry & log & Hv & _).
  exists b, w1, (dry ++ log). split; [exact Hv|].
  exact (middleware_local_run env payTo routes x402Config req next w routeConfig header
           payload p b w1 (dry ++ log) Hprot Hhdr Hd Hof Hv).
Qed.

Lemma local_verification_decides_witness :
  exists (b : bool) (w1 : unit) (t1 : list Event),
    verifyPayment Sample.env Sample.underpaid
                  (expected_requirement Sample.payTo None
                     (Sample.request
                        [(js "x-payment",
                          encode_header (PaymentPayload.to_value Sample.underpaid))])
                     Sample.weather)
                  (rpcUrl None) tt = (Ok b, w1, t1)
    /\ paymentMiddleware Sample.env Sample.payTo Sample.routes None None
         (Sample.request
            [(js "x-payment", encode_header (PaymentPayload.to_value Sample.underpaid))])
         (Sample.handler 200) tt
       = if b then (Ok (Delivered
                          (fst (Sample.handler 200
                                  (Some (PaymentPayload.to_value Sample.underpaid)) w1))),
                    snd (Sample.handler 200
                           (Some (PaymentPayload.to_value Sample.underpaid)) w1),
                    t1 ++ [Handler])
         else (Ok (Json 402 verification_failed), w1, t1).
Proof.
  apply (local_verification_decides Sample.env Sample.payTo Sample.routes None
           (Sample.request
              [(js "x-payment", encode_header (PaymentPayload.to_value Sample.underpaid))])
           (Sample.handler 200) tt Sample.weather
           (encode_header (PaymentPayload.to_value Sample.underpaid))
           (PaymentPayload.to_value Sample.underpaid) Sample.underpaid).
  - split; reflexivity.
  - reflexivity.
  - vm_compute; reflexivity.
  - reflexivity.
Defined.

(** X13.  Delegated verification decides.  With a facilitator, the
    middleware examines nothing of the payment itself: whatever JSON value
    the header decodes to is posted to [<url>/verify] together with the
    requirement of the route, and the status of the answer decides.  A
    status outside 200..299 gives 402 with the error "Payment verification
    failed", whatever the body of the answer says, and the handler does not
    run; a status within gives the handler's response, followed by the
    [finish] listener. *)
Theorem delegated_verification_decides {W} (env : Env W)
        (payTo : jsstring) (routes : RoutesConfig) (f : FacilitatorConfig.t)
        (x402Config : option X402Config.t)
        (req : Request.t) (next : option value -> W -> Handled * W) (w : W)
        (routeConfig : RouteConfig.t) (header : jsstring) (payload : value)
        (resp : Response.t) (w1 : W) :
  protected routes req routeConfig ->
  lookup (js "x-payment") (Request.headers req) = Some header ->
  decode_header header = Ok payload ->
  fetch env (FacilitatorConfig.url f ++ js "/verify")
        (verify_request payTo x402Config req routeConfig f payload) w = (Returns resp, w1) ->
  (Response.ok resp = false ->
   paymentMiddleware env payTo routes (Some f) x402Config req next w
   = (Ok (Json 402 verification_failed), w1,
      [HttpFetch (FacilitatorConfig.url f ++ js "/verify")
                 (verify_request payTo x402Config req routeConfig f payload);
       Console LogError (js "Facilitator verification failed:")]))
  /\ (Response.ok resp = true ->
      outcome (paymentMiddleware env payTo routes (Some f) x402Config req next w)
      = Ok (Delivered (fst (next (Some payload) w1)))
      /\ events (paymentMiddleware env payTo routes (Some f) x402Config req next w)
         = HttpFetch (FacilitatorConfig.url f ++ js "/verify")
                     (verify_request payTo x402Config req routeConfig f payload)
           :: Handler
           :: events (on_finish env (Some f) payload (fst (next (Some payload) w1))
                                (snd (next (Some payload) w1)))).
Proof.
  intros Hprot Hhdr Hd Hf.
  rewrite (middleware_delegated_run env payTo routes f x402Config req next w routeConfig
             header payload resp w1 Hprot Hhdr Hd Hf).
  split; intros ->; [reflexivity|].
  destruct (next (Some payload) w1) as [h w2]; cbn [fst snd].
  destruct (on_finish env (Some f) payload h w2) as [[o w3] t3].
  split; reflexivity.
Qed.

Lemma delegated_verification_decides_witness :
  paymentMiddleware (refusing Sample.env) Sample.payTo Sample.routes
                    (Some Sample.facilitator) None Sample.paid_request
                    (Sample.handler 200) tt
  = (Ok (Json 402 verification_failed), tt,
     [HttpFetch (FacilitatorConfig.url Sample.facilitator ++ js "/verify")
                (verify_request Sample.payTo None Sample.paid_request Sample.weather
                                Sample.facilitator
                                (PaymentPayload.to_value Sample.payload));
      Console LogError (js "Facilitator verification failed:")]).
Proof.
  refine (proj1 (delegated_verification_decides (refusing Sample.env) Sample.payTo
                   Sample.routes Sample.facilitator None Sample.paid_request
                   (Sample.handler 200) tt Sample.weather
                   (encode_header (PaymentPayload.to_value Sample.payload))
                   (PaymentPayload.to_value Sample.payload)
                   (Response.mk 400 [] (JSON.stringify verify_refused)) tt _ _ _ _) _).
  - split; reflexivity.
  - reflexivity.
  - vm_compute; reflexivity.
  - reflexivity.
  - reflexivity.
Defined.

(** ** From the challenge to the verified payment *)

Lemma char_of_code_unit n : 0 <= n < 64 -> code_unit (Base64.char_of n).
Proof. intros H; unfold code_unit, Base64.char_of; decide_tests; lia. Qed.

Lemma base64_encode_wf bs : wf_bytes bs -> wf_string (Base64.encode bs).
Proof.
  unfold wf_bytes, wf_string.
  assert (P : code_unit 61) by (unfold code_unit; lia).
  induction bs as [|a|a b|a b c r IH] using list_ind3; intros H.
  - constructor.
  - inversion H as [|? ? Ha _]; subst.
    cbn [Base64.encode].
    repeat (constructor; [first [exact P | apply char_of_code_unit;
      (apply sextet_1 || apply sextet_2'); assumption]|]). constructor.
  - inversion H as [|? ? Ha H']; subst. inversion H' as [|? ? Hb _]; subst.
    cbn [Base64.encode].
    repeat (constructor; [first [exact P | apply char_of_code_unit;
      (apply sextet_1 || apply sextet_2 || apply sextet_3'); assumption]|]). constructor.
  - inversion H as [|? ? Ha H']; subst. inversion H' as [|? ? Hb H'']; subst.
    inversion H'' as [|? ? Hc Hr]; subst.
    cbn [Base64.encode].
    repeat (constructor; [apply char_of_code_unit;
      (apply sextet_1 || apply sextet_2 || apply sextet_3 || apply sextet_4); assumption|]).
    exact (IH Hr).
Qed.

(** What [toB64] reads off a string is a sequence of octets. *)
Lemma elements_of_string_octets (s : jsstring) : wf_bytes (elements_of_string s).
Proof.
  unfold wf_bytes, elements_of_string. apply Forall_map, Forall_forall. intros c _.
  unfold is_digit, octet.
  destruct ((48 <=? c) && (c <=? 57)) eqn:E; [|lia].
  apply andb_true_iff in E as [A B]. apply Z.leb_le in A, B. lia.
Qed.

(** X14.  Paying the challenge.  Take the requirement the middleware
    advertises in its 402 answer for a route, have [createPaymentHeader]
    build the payment header for it, and send the request again, to the
    same route, with that header.  With local verification the middleware
    decodes the header to the payment that was built, the four field checks
    and the amount check against its own requirement pass, and the dry run
    of the ledger alone decides between the handler's response and 402
    "Payment verification failed". *)
Theorem paying_the_challenge_leaves_the_dry_run {W} (env : Env W)
        (payTo : jsstring) (routes : RoutesConfig)
        (facilitator : option FacilitatorConfig.t) (x402Config : option X402Config.t)
        (req : Request.t) (routeConfig : RouteConfig.t)
        (signer : SuiSigner) (rpc : option jsstring) (w0 : W)
        (header : jsstring) (w1 : W) (t : list Event)
        (req' : Request.t) (next : option value -> W -> Handled * W) (w : W) :
  protected routes req routeConfig ->
  configuration_wf payTo x402Config routeConfig ->
  builds_octets env ->
  createPaymentHeader env (challenge_requirement payTo facilitator x402Config req routeConfig)
                      signer rpc w0 = (Ok header, w1, t) ->
  protected routes req' routeConfig ->
  lookup (js "x-payment") (Request.headers req') = Some header ->
  exists (p : PaymentPayload.t) (b : bool) (w2 : W) (t2 : list Event),
    decode_header header = Ok (PaymentPayload.to_value p)
    /\ simulate env p (rpcUrl x402Config) w = (Ok b, w2, t2)
    /\ paymentMiddleware env payTo routes None x402Config req' next w
       = if b then (Ok (Delivered (fst (next (Some (PaymentPayload.to_value p)) w2))),
                    snd (next (Some (PaymentPayload.to_value p)) w2), t2 ++ [Handler])
         else (Ok (Json 402 verification_failed), w2, t2).
Proof.
  intros Hprot (Hpay & Hnet & Hcoin & Hprice) Hbuild Hcreate Hprot' Hhdr.
  unfold createPaymentHeader in Hcreate.
  apply bind_Ok_inv in Hcreate as (p & wa & ta & tb & Hcreate & Hret & ->).
  apply ret_inv in Hret as (Eh & -> & ->). injection Eh as Eh; subst header.
  assert (Hp : exists amount txBytes signature,
             BigInt (RouteConfig.price routeConfig) = Ok amount
             /\ wf_bytes txBytes /\ wf_bytes signature
             /\ p = PaymentPayload.mk (js "exact") (network x402Config)
                      (toB64 txBytes) (toB64 signature)
                      (RouteConfig.price routeConfig) payTo
                      (TokenConfig.coinType (tokenConfig x402Config))).
  { revert Hcreate. unfold createAndSignPayment; intros H.
    apply bind_Ok_inv in H as (client & wb & tc & td & Ec & H & ->).
    apply lift_Ok_inv in Ec as (Ec & -> & ->).
    apply try_catch_Ok_inv in H as [H|(e & wx & t1 & t2 & _ & H & _)].
    2:{ unfold bind, console_error, emit, throw in H; discriminate. }
    apply bind_Ok_inv in H as (amount & wc & te & tf & Ea & H & ->).
    apply lift_Ok_inv in Ea as (Ea & -> & ->).
    apply bind_Ok_inv in H as (cmds & wd & tg & th & _ & H & ->).
    apply bind_Ok_inv in H as (txBytes & we & ti & tj & Eb & H & ->).
    apply call_Ok_inv in Eb as (Eb & ->).
    apply bind_Ok_inv in H as (signature & wf & tk & tl & Es & H & ->).
    apply call_Ok_inv in Es as (Es & ->).
    apply ret_inv in H as (Ep & _ & _). injection Ep as ->.
    exists amount, txBytes, (elements_of_string signature).
    split; [exact Ea|]. split; [exact (Hbuild _ _ _ _ _ Eb)|].
    split; [apply elements_of_string_octets|]. reflexivity. }
  destruct Hp as (amount & txBytes & signature & Ea & Htx & Hsig & ->).
  set (p := PaymentPayload.mk (js "exact") (network x402Config) (toB64 txBytes)
              (toB64 signature) (RouteConfig.price routeConfig) payTo
              (TokenConfig.coinType (tokenConfig x402Config))) in *.
  assert (Hwf : PaymentPayload.wf p).
  { repeat split; cbn; auto; try (apply base64_encode_wf; assumption).
    apply literal_wf; reflexivity. }
  assert (Hd : decode_header (encode_header (PaymentPayload.to_value p))
               = Ok (PaymentPayload.to_value p))
    by (apply decode_encode_header, payload_is_json_data, Hwf).
  assert (Hv : forall w0, verifyPayment env p
                            (expected_requirement payTo x402Config req' routeConfig)
                            (rpcUrl x402Config) w0
                          = simulate env p (rpcUrl x402Config) w0).
  { apply (verifyPayment_checks_passed env p _ (rpcUrl x402Config) amount amount);
      try reflexivity; try exact Ea; lia. }
  destruct (simulate env p (rpcUrl x402Config) w) as [[o w2] t2] eqn:Hsim.
  destruct (simulate_total env p (rpcUrl x402Config) w) as (b & Hb).
  rewrite Hsim in Hb; unfold outcome in Hb; cbn [fst] in Hb; subst o.
  exists p, b, w2, t2.
  split; [exact Hd|]. split; [exact Hsim|].
  apply (middleware_local_run env payTo routes x402Config req' next w routeConfig
           (encode_header (PaymentPayload.to_value p)) (PaymentPayload.to_value p) p
           b w2 t2 Hprot' Hhdr Hd (payload_of_to_value p)).
  rewrite Hv; exact Hsim.
Qed.

Lemma paying_the_challenge_leaves_the_dry_run_witness :
  exists (p : PaymentPayload.t) (b : bool) (w2 : unit) (t2 : list Event),
    decode_header (encode_header (PaymentPayload.to_value Sample.payload))
    = Ok (PaymentPayload.to_value p)
    /\ simulate Sample.env p (rpcUrl None) tt = (Ok b, w2, t2)
    /\ paymentMiddleware Sample.env Sample.payTo Sample.routes None None
                         Sample.paid_request (Sample.handler 200) tt
       = if b then (Ok (Delivered
                          (fst (Sample.handler 200 (Some (PaymentPayload.to_value p)) w2))),
                    snd (Sample.handler 200 (Some (PaymentPayload.to_value p)) w2),
                    t2 ++ [Handler])
         else (Ok (Json 402 verification_failed), w2, t2).
Proof.
  apply (paying_the_challenge_leaves_the_dry_run Sample.env Sample.payTo Sample.routes
           None None (Sample.request []) Sample.weather Sample.signer None tt
           (encode_header (PaymentPayload.to_value Sample.payload)) tt
           [Build (js "http://127.0.0.1:9000")
                  (mkTransaction
                     [SplitCoins GasCoin [1000000000];
                      TransferObjects [NestedResult 0] Sample.payTo]
                     (Some (js "0xc11e")));
            Sign (js "0xc11e") [1; 2; 3; 250]]
           Sample.paid_request (Sample.handler 200) tt).
  - split; reflexivity.
  - repeat split; apply literal_wf; reflexivity.
  - intros client tx w bs w' H; injection H as <- _.
    repeat constructor; unfold octet; lia.
  - vm_compute; reflexivity.
  - split; reflexivity.
  - reflexivity.
Defined.


(** * More on the transport *)

(** ** Decoding the headers *)

(** X15.  What [decodeXPaymentRequired] reads.  Applied to the transport
    form of a JSON value, it returns the [accepts] member of the value when
    that member is truthy, and otherwise the value itself as the only
    element of a list; it leaves no trace.  When the value is [null], so
    that it has no members to read, the error thrown is the decoder's own,
    "Invalid payment required header format", after one line in the error
    log. *)
Theorem decodeXPaymentRequired_reads_the_envelope {W} (v : value) (w : W) :
  json_data v ->
  @decodeXPaymentRequired W (encode_header v) w
  = match get v (js "accepts") with
    | Ok accepts => (Ok (if truthy accepts then accepts else VArr [v]), w, [])
    | _ => (Throw (Err (js "Invalid payment required header format")), w,
            [Console LogError (js "Failed to decode x-payment-required header:")])
    end.
Proof.
  intros Hv.
  unfold decodeXPaymentRequired, try_catch, bind, lift, ret, throw, console_error, emit.
  rewrite (decode_encode_header v Hv).
  pose proof (get_not_stuck v (js "accepts")) as Hg.
  destruct (get v (js "accepts")) as [accepts|e|]; [reflexivity..|contradiction].
Qed.

Lemma decodeXPaymentRequired_reads_the_envelope_witness :
  @decodeXPaymentRequired unit
     (encode_header (VObj [(js "scheme", VStr (js "exact"));
                           (js "maxAmountRequired", VStr (js "1000000000"))])) tt
  = match get (VObj [(js "scheme", VStr (js "exact"));
                     (js "maxAmountRequired", VStr (js "1000000000"))]) (js "accepts") with
    | Ok accepts =>
        (Ok (if truthy accepts then accepts
             else VArr [VObj [(js "scheme", VStr (js "exact"));
                              (js "maxAmountRequired", VStr (js "1000000000"))]]), tt, [])
    | _ => (Throw (Err (js "Invalid payment required header format")), tt,
            [Console LogError (js "Failed to decode x-payment-required header:")])
    end.
Proof.
  apply (decodeXPaymentRequired_reads_the_envelope
           (VObj [(js "scheme", VStr (js "exact"));
                  (js "maxAmountRequired", VStr (js "1000000000"))]) tt).
  apply data_obj; [|reflexivity].
  repeat (constructor;
          [split; [apply literal_wf; reflexivity
                  |apply data_str, literal_wf; reflexivity]|]).
  constructor.
Defined.

(** X16.  The decoders throw nothing but their own error.  Whatever the
    header holds, [decodeXPaymentRequired] throws only "Invalid payment
    required header format" and [decodeXPaymentResponse] only "Invalid
    payment response header format"; the error that caused it is written to
    the error log and is not passed on.  Neither touches the world. *)
Theorem decoders_throw_their_own_error {W} (header : jsstring) (w : W) :
  (forall e, outcome (@decodeXPaymentRequired W header w) = Throw e ->
             e = Err (js "Invalid payment required header format")
             /\ events (@decodeXPaymentRequired W header w)
                = [Console LogError (js "Failed to decode x-payment-required header:")])
  /\ (forall e, outcome (@decodeXPaymentResponse W header w) = Throw e ->
                e = Err (js "Invalid payment response header format")
                /\ events (@decodeXPaymentResponse W header w)
                   = [Console LogError (js "Failed to decode x-payment-response header:")])
  /\ world_after (@decodeXPaymentRequired W header w) = w
  /\ world_after (@decodeXPaymentResponse W header w) = w.
Proof.
  unfold decodeXPaymentRequired, decodeXPaymentResponse, try_catch, bind, lift, ret, throw,
    console_error, emit, outcome, events, world_after.
  destruct (decode_header header) as [parsed|e0|];
    [destruct (get parsed (js "accepts")) as [accepts|e1|]|..]; cbn;
    (split; [|split; [|split; reflexivity]]);
    intros e H; try discriminate; injection H as <-; split; reflexivity.
Qed.

(** ** Selecting a requirement *)

Lemma requirement_of_to_value (r : PaymentRequirement.t) :
  members_defined r ->
  PaymentRequirement.of_value (PaymentRequirement.to_value r) = Some r.
Proof.
  destruct r as [s n m res d mt p tmo a os ex]; intros (Hos & Hex); cbn in Hos, Hex.
  destruct d, mt, os as [[]|], ex as [[]|]; try contradiction; reflexivity.
Qed.

(** X17.  Which requirement is paid.  When the [x-payment-required]
    header of a 402 answer decodes to a value whose [accepts] member is a
    non-empty list of requirements, the transport pays the first of them;
    with a selector, it pays what the selector returns for the list,
    whether it is on the list or not.  Selection leaves no trace of its
    own: without a selector nothing has happened, with one what the
    selector did. *)
Theorem first_requirement_is_selected {W} (response : Response.t)
        (header : jsstring) (parsed : value)
        (r : PaymentRequirement.t) (rest : list value) (w : W) :
  lookup (js "x-payment-required") (Response.headers response) = Some header ->
  decode_header header = Ok parsed ->
  get parsed (js "accepts") = Ok (VArr (PaymentRequirement.to_value r :: rest)) ->
  members_defined r ->
  select_requirement None response w = (Ok r, w, [])
  /\ (forall (select : value -> M W value) (r' : PaymentRequirement.t)
             (w' : W) (t : list Event),
         select (VArr (PaymentRequirement.to_value r :: rest)) w
         = (Ok (PaymentRequirement.to_value r'), w', t) ->
         members_defined r' ->
         select_requirement (Some select) response w = (Ok r', w', t)).
Proof.
  intros Hhdr Hd Ha Hr.
  pose proof (decode_header_nonempty _ _ Hd) as Hne.
  destruct header as [|c hdr]; [contradiction|].
  assert (Hreq : @decodeXPaymentRequired W (c :: hdr) w
                 = (Ok (VArr (PaymentRequirement.to_value r :: rest)), w, [])).
  { unfold decodeXPaymentRequired, try_catch, bind, lift, ret.
    rewrite Hd, Ha. reflexivity. }
  assert (Hlen : get (VArr (PaymentRequirement.to_value r :: rest)) (js "length")
                 = Ok (VNum (Int (Z.of_nat (S (List.length rest)))))) by reflexivity.
  split; [|intros select r' w' t Hsel Hr'];
    unfold select_requirement; unfold bind at 1; unfold select_value; rewrite Hhdr;
    unfold bind at 1; rewrite Hreq;
    unfold bind at 1, lift at 1; rewrite Hlen;
    cbn [Z.of_nat]; unfold bind, lift, ret, as_requirement.
  - replace (get (VArr (PaymentRequirement.to_value r :: rest)) (js "0"))
      with (Ok (PaymentRequirement.to_value r)) by reflexivity.
    replace (truthy (PaymentRequirement.to_value r)) with true by reflexivity.
    cbn [negb]. rewrite (requirement_of_to_value r Hr). reflexivity.
  - rewrite Hsel.
    replace (truthy (PaymentRequirement.to_value r')) with true by reflexivity.
    cbn [negb]. rewrite (requirement_of_to_value r' Hr').
    unfold ret. now rewrite !app_nil_r.
Qed.

Lemma first_requirement_is_selected_witness :
  select_requirement None
    (Response.mk 402 [(js "x-payment-required", Sample.challenge_header)] (js "{}")) tt
  = (Ok Sample.weather_requirement, tt, [])
  /\ (forall (select : value -> M unit value) (r' : PaymentRequirement.t)
             (w' : unit) (t : list Event),
         select (VArr (PaymentRequirement.to_value Sample.weather_requirement :: [])) tt
         = (Ok (PaymentRequirement.to_value r'), w', t) ->
         members_defined r' ->
         select_requirement (Some select)
           (Response.mk 402 [(js "x-payment-required", Sample.challenge_header)] (js "{}")) tt
         = (Ok r', w', t)).
Proof.
  apply (first_requirement_is_selected
           (Response.mk 402 [(js "x-payment-required", Sample.challenge_header)] (js "{}"))
           Sample.challenge_header
           (challenge Sample.payTo None None (Sample.request []) Sample.weather)
           Sample.weather_requirement [] tt).
  - reflexivity.
  - vm_compute; reflexivity.
  - reflexivity.
  - split; discriminate.
Defined.


(** ** The retried request *)















(** X19.  Reading the receipt cannot fail the call.  An error thrown by
    [pay_and_retry] is one thrown while the payment header was created, or
    one thrown by the retried request itself.  Once that request has been
    answered, nothing is thrown any more: a receipt header that cannot be
    decoded only leaves a warning. *)
Theorem receipt_cannot_fail_the_call {W} (env : Env W)
        (fetchFn : jsstring -> option RequestInit.t -> M W Response.t)
        (signer : SuiSigner) (config : option X402Config.t)
        (selected : PaymentRequirement.t)
        (input : jsstring) (init : option RequestInit.t) (w : W) (e : Error) :
  outcome (pay_and_retry env fetchFn signer config selected input init w) = Throw e ->
  outcome (createPaymentHeader env selected signer (configured_rpcUrl config) w) = Throw e
  \/ exists (header : jsstring) (w1 : W) (t1 : list Event),
       createPaymentHeader env selected signer (configured_rpcUrl config) w
       = (Ok header, w1, t1)
       /\ outcome (fetchFn input (Some (paid_init init header)) w1) = Throw e.
Proof.
  unfold pay_and_retry.
  rewrite outcome_bind. cbn [emit outcome world_after fst snd].
  rewrite outcome_bind.
  fold (configured_rpcUrl config). fold (caller_headers init).
  destruct (createPaymentHeader env selected signer (configured_rpcUrl config) w)
    as [[o1 w1] t1] eqn:E1.
  change (outcome (o1, w1, t1)) with o1.
  change (world_after (o1, w1, t1)) with w1.
  destruct o1 as [header|e1|]; [|intros H; left; injection H as <-; reflexivity|discriminate].
  intros H; right. exists header, w1, t1. split; [reflexivity|].
  unfold paid_init.
  rewrite outcome_bind in H.
  unfold invoke at 1 in H. rewrite outcome_bind in H.
  cbn [emit outcome world_after fst snd] in H.
  change (outcome (Ok tt, w1, [Invoke input
            (Some (with_headers init
                     (headers_set (js "x-payment") header
                                 (new_Headers (caller_headers init)))))]))
    with (@Ok unit tt) in H.
  cbv beta iota in H.
  destruct (outcome (fetchFn input
              (Some (with_headers init
                       (headers_set (js "x-payment") header
                                 (new_Headers (caller_headers init)))))
              _)) as [response|e2|] eqn:E2 in H.
  - exfalso. rewrite outcome_bind in H.
    match type of H with
    | match outcome (?post ?wx) with _ => _ end = _ =>
        assert (Hpost : forall x, outcome (post wx) <> Throw x)
    end.
    { intros x.
      destruct (lookup (js "x-payment-response") (Response.headers response))
        as [[|c h]|]; try discriminate.
      rewrite outcome_try_catch.
      match goal with
      | |- match ?o with _ => _ end <> _ => destruct o; discriminate
      end. }
    match type of H with
    | match ?o with _ => _ end = _ => destruct o as [u|e0|] eqn:Eo
    end.
    + discriminate.
    + apply (Hpost e0); first [exact Eo | reflexivity].
    + discriminate.
  - rewrite E2; exact H.
  - discriminate.
Qed.

Lemma receipt_cannot_fail_the_call_witness :
  outcome (createPaymentHeader Sample.env
             (PaymentRequirement.mk (js "exact") (js "sui-moon") (js "1000000000")
                (js "http://localhost:4021/weather") None None Sample.payTo 60
                (js "0x2::sui::SUI") None None)
             Sample.signer (configured_rpcUrl None) tt)
  = Throw (Err (js "Unknown network: moon"))
  \/ exists (header : jsstring) (w1 : unit) (t1 : list Event),
       createPaymentHeader Sample.env
         (PaymentRequirement.mk (js "exact") (js "sui-moon") (js "1000000000")
            (js "http://localhost:4021/weather") None None Sample.payTo 60
            (js "0x2::sui::SUI") None None)
         Sample.signer (configured_rpcUrl None) tt
       = (Ok header, w1, t1)
       /\ outcome (Sample.paywalled (js "http://localhost:4021/weather")
                     (Some (paid_init None header)) w1)
          = Throw (Err (js "Unknown network: moon")).
Proof.
  apply (receipt_cannot_fail_the_call Sample.env Sample.paywalled Sample.signer None
           (PaymentRequirement.mk (js "exact") (js "sui-moon") (js "1000000000")
              (js "http://localhost:4021/weather") None None Sample.payTo 60
              (js "0x2::sui::SUI") None None)
           (js "http://localhost:4021/weather") None tt
           (Err (js "Unknown network: moon"))).
  vm_compute; reflexivity.
Defined.


(** * The facilitator service *)

Lemma payload_value_is_truthy v p : PaymentPayload.of_value v = Some p -> truthy v = true.
Proof. destruct v; try discriminate; reflexivity. Qed.

Lemma requirement_value_is_truthy v r : PaymentRequirement.of_value v = Some r -> truthy v = true.
Proof. destruct v; try discriminate; reflexivity. Qed.

Lemma get_of_get_opt v k x : get_opt v k = x -> x <> VUndefined -> get v k = Ok x.
Proof.
  unfold get_opt. destruct (get v k) as [y|e|]; intros <- H; congruence.
Qed.

Lemma typed_member_is_read {A} (of_value : value -> option A) body k a :
  (forall v x, of_value v = Some x -> truthy v = true) ->
  of_value (get_opt body k) = Some a ->
  get body k = Ok (get_opt body k) /\ truthy (get_opt body k) = true.
Proof.
  intros Ht H. pose proof (Ht _ _ H) as T. split; [|exact T].
  apply get_of_get_opt; [reflexivity|].
  intros E; rewrite E in T; discriminate.
Qed.

Lemma get_member (members : list (jsstring * value)) (k : jsstring) :
  get (VObj members) k = Ok (get_opt (VObj members) k).
Proof. unfold get_opt; cbn [get]. destruct (lookup k members); reflexivity. Qed.

(** The run of [/verify] on a body that carries a payload and a requirement. *)
Lemma verify_endpoint_run {W} (env : Env W) (rpcUrl : option jsstring)
        (body : value) (p : PaymentPayload.t) (r : PaymentRequirement.t) (w : W) :
  PaymentPayload.of_value (get_opt body (js "paymentPayload")) = Some p ->
  PaymentRequirement.of_value (get_opt body (js "paymentRequirement")) = Some r ->
  exists (b : bool) (w1 : W) (t1 : list Event),
    verifyPayment env p r rpcUrl w = (Ok b, w1, t1)
    /\ verify_endpoint env rpcUrl body w
       = (Ok (if b then Answered 200 (VObj [(js "valid", VBool true)])
              else Answered 400 verify_refused), w1, t1)
    /\ forallb verification_event t1 = true.
Proof.
  intros Hp Hr.
  destruct (typed_member_is_read PaymentPayload.of_value body (js "paymentPayload") p
              payload_value_is_truthy Hp) as (Gp & Tp).
  destruct (typed_member_is_read PaymentRequirement.of_value body (js "paymentRequirement") r
              requirement_value_is_truthy Hr) as (Gr & Tr).
  destruct (verifyPayment_run env p r rpcUrl w) as (b & w1 & dry & log & Hv & Hdry & Hlog).
  exists b, w1, (dry ++ log). split; [exact Hv|]. split.
  - unfold verify_endpoint, try_catch, bind at 1, lift.
    rewrite Gp. unfold bind at 1. rewrite Gr, Tp, Tr. cbn [negb orb].
    unfold bind.
    rewrite (untyped_verifyPayment_typed env _ _ p r rpcUrl
               (cast_reads_payload _ _ Hp) (cast_reads_requirement _ _ Hr)).
    rewrite Hv.
    destruct b; unfold ret; now rewrite app_nil_r.
  - rewrite forallb_app. apply andb_true_iff. split.
    + destruct Hdry as [(-> & _)|(client & tx & _ & _ & -> & _)]; reflexivity.
    + destruct b; [subst log; reflexivity|].
      destruct Hlog as (label & ->); reflexivity.
Qed.

(** X20.  What [/verify] answers.  When the body carries a payload and a
    requirement, the endpoint runs [verifyPayment] on them, once, with the
    RPC URL the service was created with, and answers 200 with
    [{ valid: true }] when the result is [true] and 400 with [{ valid:
    false, error: "Payment verification failed" }] when it is [false].
    Nothing is executed on the ledger: the trace holds console lines and at
    most a dry run. *)
Theorem verify_endpoint_answers {W} (env : Env W) (rpcUrl : option jsstring)
        (body : value) (p : PaymentPayload.t) (r : PaymentRequirement.t) (w : W) :
  PaymentPayload.of_value (get_opt body (js "paymentPayload")) = Some p ->
  PaymentRequirement.of_value (get_opt body (js "paymentRequirement")) = Some r ->
  exists (b : bool) (w1 : W) (t1 : list Event),
    verifyPayment env p r rpcUrl w = (Ok b, w1, t1)
    /\ verify_endpoint env rpcUrl body w
       = (Ok (if b then Answered 200 (VObj [(js "valid", VBool true)])
              else Answered 400 verify_refused), w1, t1)
    /\ forallb verification_event t1 = true.
Proof. apply verify_endpoint_run. Qed.

Lemma verify_endpoint_answers_witness :
  exists (b : bool) (w1 : unit) (t1 : list Event),
    verifyPayment Sample.env Sample.underpaid Sample.requirement None tt = (Ok b, w1, t1)
    /\ verify_endpoint Sample.env None
         (VObj [(js "paymentPayload", PaymentPayload.to_value Sample.underpaid);
                (js "paymentRequirement", PaymentRequirement.to_value Sample.requirement)])
         tt
       = (Ok (if b then Answered 200 (VObj [(js "valid", VBool true)])
              else Answered 400 verify_refused), w1, t1)
    /\ forallb verification_event t1 = true.
Proof.
  apply (verify_endpoint_answers Sample.env None
           (VObj [(js "paymentPayload", PaymentPayload.to_value Sample.underpaid);
                  (js "paymentRequirement", PaymentRequirement.to_value Sample.requirement)])
           Sample.underpaid Sample.requirement tt).
  - reflexivity.
  - reflexivity.
Defined.

Lemma verification_events (t : list Event) :
  forallb is_verification t = true -> forallb verification_event t = true.
Proof.
  intros H. rewrite forallb_forall in H |- *. intros e He. specialize (H e He).
  destruct e; try discriminate; reflexivity.
Qed.

(** X21.  [/verify] on a JSON object, whatever its members.  When one of
    the two members is missing, or is a falsy value, the answer is 400 with
    the error "Missing paymentPayload or paymentRequirement", and nothing
    has been verified or logged.  Otherwise the endpoint runs
    [verifyPayment] on the two values as they are, of whatever shape, and
    answers 200 with [{ valid: true }] or 400 with "Payment verification
    failed" according to the result; the trace holds console lines and at
    most a dry run.  The endpoint never answers from its catch block
    (status 500): reading the two members cannot throw, and [verifyPayment]
    does not throw. *)
Theorem verify_endpoint_on_an_object {W} (env : Env W) (rpcUrl : option jsstring)
        (members : list (jsstring * value)) (paymentPayload paymentRequirement : value)
        (w : W) :
  get_opt (VObj members) (js "paymentPayload") = paymentPayload ->
  get_opt (VObj members) (js "paymentRequirement") = paymentRequirement ->
  (truthy paymentPayload = false \/ truthy paymentRequirement = false ->
   verify_endpoint env rpcUrl (VObj members) w
   = (Ok (Answered 400 missing_verify_fields), w, []))
  /\ (truthy paymentPayload = true -> truthy paymentRequirement = true ->
      exists (b : bool) (w1 : W) (t1 : list Event),
        Untyped.verifyPayment env paymentPayload paymentRequirement rpcUrl w = (Ok b, w1, t1)
        /\ verify_endpoint env rpcUrl (VObj members) w
           = (Ok (if b then Answered 200 (VObj [(js "valid", VBool true)])
                  else Answered 400 verify_refused), w1, t1)
        /\ forallb verification_event t1 = true)
  /\ (forall code e,
         outcome (verify_endpoint env rpcUrl (VObj members) w) <> Ok (Failed code e)).
Proof.
  intros <- <-.
  assert (Hrun : truthy (get_opt (VObj members) (js "paymentPayload")) = true ->
                 truthy (get_opt (VObj members) (js "paymentRequirement")) = true ->
                 exists (b : bool) (w1 : W) (t1 : list Event),
                   Untyped.verifyPayment env (get_opt (VObj members) (js "paymentPayload"))
                     (get_opt (VObj members) (js "paymentRequirement")) rpcUrl w
                   = (Ok b, w1, t1)
                   /\ verify_endpoint env rpcUrl (VObj members) w
                      = (Ok (if b then Answered 200 (VObj [(js "valid", VBool true)])
                             else Answered 400 verify_refused), w1, t1)
                   /\ forallb verification_event t1 = true).
  { intros Tp Tr.
    destruct (untyped_verifyPayment_answers env
                (get_opt (VObj members) (js "paymentPayload"))
                (get_opt (VObj members) (js "paymentRequirement")) rpcUrl w)
      as (b & w1 & t1 & Hv & Ht).
    exists b, w1, t1. split; [exact Hv|]. split; [|exact (verification_events t1 Ht)].
    unfold verify_endpoint, try_catch.
    rewrite get_member, bind_lift_Ok, get_member, bind_lift_Ok.
    rewrite Tp, Tr. cbn [negb orb]. unfold bind. rewrite Hv.
    destruct b; unfold ret; now rewrite app_nil_r. }
  assert (Hmiss : truthy (get_opt (VObj members) (js "paymentPayload")) = false
                  \/ truthy (get_opt (VObj members) (js "paymentRequirement")) = false ->
                  verify_endpoint env rpcUrl (VObj members) w
                  = (Ok (Answered 400 missing_verify_fields), w, [])).
  { intros H. unfold verify_endpoint, try_catch.
    rewrite get_member, bind_lift_Ok, get_member, bind_lift_Ok.
    destruct H as [H|H]; rewrite H; cbn [negb orb]; [|rewrite orb_true_r]; reflexivity. }
  split; [exact Hmiss|]. split; [exact Hrun|].
  intros code e.
  destruct (truthy (get_opt (VObj members) (js "paymentPayload"))) eqn:Tp.
  - destruct (truthy (get_opt (VObj members) (js "paymentRequirement"))) eqn:Tr.
    + destruct (Hrun eq_refl eq_refl) as (b & w1 & t1 & _ & -> & _).
      destruct b; discriminate.
    + rewrite Hmiss by (right; reflexivity). discriminate.
  - rewrite Hmiss by (left; reflexivity). discriminate.
Qed.

Lemma verify_endpoint_on_an_object_witness :
  (truthy (VNum (Int 5)) = false \/ truthy (VStr (js "pay me")) = false ->
   verify_endpoint Sample.env None
     (VObj [(js "paymentPayload", VNum (Int 5));
            (js "paymentRequirement", VStr (js "pay me"))]) tt
   = (Ok (Answered 400 missing_verify_fields), tt, []))
  /\ (truthy (VNum (Int 5)) = true -> truthy (VStr (js "pay me")) = true ->
      exists (b : bool) (w1 : unit) (t1 : list Event),
        Untyped.verifyPayment Sample.env (VNum (Int 5)) (VStr (js "pay me")) None tt
        = (Ok b, w1, t1)
        /\ verify_endpoint Sample.env None
             (VObj [(js "paymentPayload", VNum (Int 5));
                    (js "paymentRequirement", VStr (js "pay me"))]) tt
           = (Ok (if b then Answered 200 (VObj [(js "valid", VBool true)])
                  else Answered 400 verify_refused), w1, t1)
        /\ forallb verification_event t1 = true)
  /\ (forall code e,
         outcome (verify_endpoint Sample.env None
                    (VObj [(js "paymentPayload", VNum (Int 5));
                           (js "paymentRequirement", VStr (js "pay me"))]) tt)
         <> Ok (Failed code e)).
Proof.
  apply (verify_endpoint_on_an_object Sample.env None
           [(js "paymentPayload", VNum (Int 5));
            (js "paymentRequirement", VStr (js "pay me"))]
           (VNum (Int 5)) (VStr (js "pay me")) tt).
  - reflexivity.
  - reflexivity.
Defined.

(** ** Settling whatever was posted *)








(** The body with the numeric amount is settled, and the receipt states
    the amount as the number it was. *)
Lemma numeric_amount_is_settled :
  settle_endpoint (executing Sample.env) None numeric_settlement tt
  = (Ok (Answered 200
           (VObj [(js "transactionDigest", VStr (js "8kXtQPZ3"));
                  (js "amount", VNum (Int 1000000000));
                  (js "timestamp", VNum (Int 1700000000000));
                  (js "effects",
                   VObj [(js "status", VObj [(js "status", VStr (js "success"))])])])),
     tt,
     [Execute (js "http://127.0.0.1:9000") [1; 2; 3; 250] (js "AAAAAwAAAAA=")]).
Proof. vm_compute. reflexivity. Qed.

(** ** The two ways of verifying *)

Lemma wf_string_app s t : wf_string s -> wf_string t -> wf_string (s ++ t).
Proof. unfold wf_string; intros; apply Forall_app; auto. Qed.

Lemma expected_requirement_is_json_data payTo x402Config req routeConfig :
  configuration_wf payTo x402Config routeConfig ->
  request_wf req ->
  json_data (PaymentRequirement.to_value
               (expected_requirement payTo x402Config req routeConfig)).
Proof.
  intros (Hpay & Hnet & Hcoin & Hprice) (Hproto & Hhost & Hurl).
  assert (Hres : wf_string (resource_of req)).
  { unfold resource_of.
    apply wf_string_app; [exact Hproto|].
    apply wf_string_app; [apply literal_wf; reflexivity|].
    apply wf_string_app; [|exact Hurl].
    destruct (Request.host req); [exact Hhost|apply literal_wf; reflexivity]. }
  unfold PaymentRequirement.to_value, expected_requirement; cbn.
  apply data_obj; [|reflexivity].
  repeat (constructor;
          [split; [apply literal_wf; reflexivity
                  |first [apply data_str; first [assumption | apply literal_wf; reflexivity]
                         |apply data_num; unfold safe_integer, max_safe_integer; lia]]|]).
  constructor.
Qed.

(** X23.  Delegated and local verification run the same check.  The body
    the middleware posts to [/verify] for a decoded payload, once parsed by
    the facilitator, makes the endpoint run [verifyPayment] on that payload
    and on the requirement of the route, the very arguments of local
    verification: the endpoint answers 200 exactly when [verifyPayment]
    answers [true], and 400 otherwise.  With the same ledger and RPC URL on
    both sides, the two configurations of the middleware accept the same
    payments. *)
Theorem delegated_and_local_verification_agree {W} (env : Env W)
        (payTo : jsstring) (x402Config : option X402Config.t)
        (req : Request.t) (routeConfig : RouteConfig.t) (f : FacilitatorConfig.t)
        (p : PaymentPayload.t) (rpc : option jsstring) (w : W) :
  PaymentPayload.wf p ->
  configuration_wf payTo x402Config routeConfig ->
  request_wf req ->
  exists (text : jsstring) (body : value) (b : bool) (w1 : W) (t1 : list Event),
    RequestInit.body (verify_request payTo x402Config req routeConfig f
                                     (PaymentPayload.to_value p)) = Some text
    /\ JSON.parse text = Ok body
    /\ verifyPayment env p (expected_requirement payTo x402Config req routeConfig) rpc w
       = (Ok b, w1, t1)
    /\ verify_endpoint env rpc body w
       = (Ok (if b then Answered 200 (VObj [(js "valid", VBool true)])
              else Answered 400 verify_refused), w1, t1).
Proof.
  intros Hp Hcfg Hreq.
  set (r := expected_requirement payTo x402Config req routeConfig).
  set (body := VObj [(js "paymentPayload", PaymentPayload.to_value p);
                     (js "paymentRequirement", PaymentRequirement.to_value r)]).
  assert (Hbody : json_data body).
  { apply data_obj; [|reflexivity].
    constructor; [split; [apply literal_wf; reflexivity
                         |apply payload_is_json_data, Hp]|].
    constructor; [split; [apply literal_wf; reflexivity
                         |apply expected_requirement_is_json_data; assumption]|].
    constructor. }
  assert (Hpv : PaymentPayload.of_value (get_opt body (js "paymentPayload")) = Some p)
    by (apply payload_of_to_value).
  assert (Hrv : PaymentRequirement.of_value (get_opt body (js "paymentRequirement")) = Some r)
    by (apply requirement_of_to_value; split; discriminate).
  destruct (verify_endpoint_run env rpc body p r w Hpv Hrv) as (b & w1 & t1 & Hv & He & _).
  exists (JSON.stringify body), body, b, w1, t1.
  split; [reflexivity|]. split; [apply parse_stringify, Hbody|].
  split; [exact Hv|exact He].
Qed.

Lemma delegated_and_local_verification_agree_witness :
  exists (text : jsstring) (body : value) (b : bool) (w1 : unit) (t1 : list Event),
    RequestInit.body (verify_request Sample.payTo None Sample.paid_request Sample.weather
                                     Sample.facilitator
                                     (PaymentPayload.to_value Sample.payload)) = Some text
    /\ JSON.parse text = Ok body
    /\ verifyPayment Sample.env Sample.payload
                     (expected_requirement Sample.payTo None Sample.paid_request
                                           Sample.weather) None tt
       = (Ok b, w1, t1)
    /\ verify_endpoint Sample.env None body tt
       = (Ok (if b then Answered 200 (VObj [(js "valid", VBool true)])
              else Answered 400 verify_refused), w1, t1).
Proof.
  apply (delegated_and_local_verification_agree Sample.env Sample.payTo None
           Sample.paid_request Sample.weather Sample.facilitator Sample.payload None tt).
  - repeat split; apply literal_wf; reflexivity.
  - repeat split; apply literal_wf; reflexivity.
  - repeat split; apply literal_wf; reflexivity.
Defined.


(** ** After the response *)

(** X24.  The receipt does not reach the client.  The [finish] listener
    runs when the response has been sent, so its [res.setHeader] throws
    and the line "Payment settled:" is never written: in no run of the
    listener does it appear.  When the facilitator's [/settle] answers with
    a 2xx status and a JSON body, the listener tries to set the
    [x-payment-response] header to the transport form of that body, and
    what remains of the settlement on the server is one line in the error
    log, "Payment settlement error:". *)
Theorem settlement_is_never_reported {W} (env : Env W)
        (facilitator : option FacilitatorConfig.t) (payload : value) (h : Handled) (w : W) :
  ~ In (Console LogInfo (js "Payment settled:"))
       (events (on_finish env facilitator payload h w))
  /\ (forall f resp w1 receipt,
         facilitator = Some f ->
         viaSend h = true ->
         statusCode h < 400 ->
         fetch env (FacilitatorConfig.url f ++ js "/settle") (settle_request f payload) w
         = (Returns resp, w1) ->
         Response.ok resp = true ->
         JSON.parse (Response.body resp) = Ok receipt ->
         on_finish env facilitator payload h w
         = (Ok tt, w1,
            [HttpFetch (FacilitatorConfig.url f ++ js "/settle") (settle_request f payload);
             SetHeader (js "x-payment-response") (encode_header receipt);
             Console LogError (js "Payment settlement error:")])).
Proof.
  split.
  - unfold on_finish.
    destruct (viaSend h && (statusCode h <? 400)); [|intros []].
    destruct facilitator as [f|]; [|intros []].
    unfold try_catch, bind at 1, call.
    destruct (fetch env _ _ w) as [[resp|e] w1].
    + destruct (Response.ok resp).
      * unfold bind at 1, lift.
        destruct (JSON.parse (Response.body resp)) as [receipt|e|]; cbn;
          intuition discriminate.
      * cbn; intuition discriminate.
    + cbn; intuition discriminate.
  - intros f resp w1 receipt -> Hsend Hcode Hf Hok Hparse.
    unfold on_finish, settle_request in *.
    rewrite Hsend. apply Z.ltb_lt in Hcode. rewrite Hcode. cbn [andb].
    unfold try_catch, bind at 1, call. rewrite Hf, Hok.
    unfold bind at 1, lift. rewrite Hparse. reflexivity.
Qed.


(** ** The challenge, read by the transport *)

Lemma challenge_is_json_data payTo facilitator x402Config req routeConfig :
  configuration_wf payTo x402Config routeConfig ->
  challenge_wf req routeConfig ->
  json_data (challenge payTo facilitator x402Config req routeConfig).
Proof.
  intros (Hpay & Hnet & Hcoin & Hprice) ((Hproto & Hhost & Hurl) & Hmethod & Hdesc).
  assert (Hres : wf_string (resource_of req)).
  { unfold resource_of.
    apply wf_string_app; [exact Hproto|].
    apply wf_string_app; [apply literal_wf; reflexivity|].
    apply wf_string_app; [|exact Hurl].
    destruct (Request.host req); [exact Hhost|apply literal_wf; reflexivity]. }
  assert (Hd : wf_string (or_else (RouteConfig.description routeConfig) [])).
  { destruct (RouteConfig.description routeConfig) as [[|c d]|]; cbn;
      first [exact Hdesc | constructor]. }
  assert (Hschema : json_data (VObj [(js "input",
                                      VObj [(js "type", VStr (js "http"));
                                            (js "method", VStr (Request.method req));
                                            (js "discoverable", VBool true)])])).
  { apply data_obj; [|reflexivity].
    constructor; [split; [apply literal_wf; reflexivity|]|constructor].
    apply data_obj; [|reflexivity].
    repeat (constructor;
            [split; [apply literal_wf; reflexivity
                    |first [apply data_str; first [assumption | apply literal_wf; reflexivity]
                           |apply data_bool]]|]).
    constructor. }
  assert (Hextra : json_data (VObj [(js "feePayer", VStr (js "facilitator"))])).
  { apply data_obj; [|reflexivity].
    constructor; [split; [|apply data_str]; apply literal_wf; reflexivity|constructor]. }
  unfold challenge.
  apply data_obj; [|reflexivity].
  constructor; [split; [apply literal_wf; reflexivity
                       |apply data_num; unfold safe_integer, max_safe_integer; lia]|].
  constructor; [split; [apply literal_wf; reflexivity
                       |apply data_str, literal_wf; reflexivity]|].
  constructor; [split; [apply literal_wf; reflexivity|]|constructor].
  apply data_arr. constructor; [|constructor].
  unfold PaymentRequirement.to_value, challenge_requirement.
  destruct facilitator as [f|]; cbn [object option_map PaymentRequirement.scheme
    PaymentRequirement.network PaymentRequirement.maxAmountRequired
    PaymentRequirement.resource PaymentRequirement.description PaymentRequirement.mimeType
    PaymentRequirement.payTo PaymentRequirement.maxTimeoutSeconds PaymentRequirement.asset
    PaymentRequirement.outputSchema PaymentRequirement.extra];
    (apply data_obj; [|reflexivity]);
    repeat (constructor;
            [split; [apply literal_wf; reflexivity
                    |first [assumption
                           |apply data_str; first [assumption | apply literal_wf; reflexivity]
                           |apply data_num; unfold safe_integer, max_safe_integer; lia]]|]);
    constructor.
Qed.

(** X25.  The challenge in transport form.  Were the 402 answer of the
    middleware to carry its body in the [x-payment-required] header, in
    transport form, the transport would decode it and select, by default,
    exactly the requirement the middleware built for the route, with every
    member as it was written; nothing is lost in the encoding. *)
Theorem challenge_in_transport_form_is_read_back {W}
        (payTo : jsstring) (facilitator : option FacilitatorConfig.t)
        (x402Config : option X402Config.t) (req : Request.t) (routeConfig : RouteConfig.t)
        (response : Response.t) (w : W) :
  configuration_wf payTo x402Config routeConfig ->
  challenge_wf req routeConfig ->
  lookup (js "x-payment-required") (Response.headers response)
  = Some (encode_header (challenge payTo facilitator x402Config req routeConfig)) ->
  @decodeXPaymentRequired W
     (encode_header (challenge payTo facilitator x402Config req routeConfig)) w
  = (Ok (VArr [PaymentRequirement.to_value
                 (challenge_requirement payTo facilitator x402Config req routeConfig)]),
     w, [])
  /\ select_requirement None response w
     = (Ok (challenge_requirement payTo facilitator x402Config req routeConfig), w, []).
Proof.
  intros Hcfg Hch Hhdr.
  pose proof (decode_encode_header _
                (challenge_is_json_data payTo facilitator x402Config req routeConfig
                   Hcfg Hch)) as Hd.
  assert (Hdec : @decodeXPaymentRequired W
                   (encode_header (challenge payTo facilitator x402Config req routeConfig)) w
                 = (Ok (VArr [PaymentRequirement.to_value
                                (challenge_requirement payTo facilitator x402Config req
                                                       routeConfig)]), w, [])).
  { unfold decodeXPaymentRequired, try_catch, bind, lift, ret. rewrite Hd. reflexivity. }
  split; [exact Hdec|].
  pose proof (decode_header_nonempty _ _ Hd) as Hne.
  destruct (encode_header (challenge payTo facilitator x402Config req routeConfig))
    as [|c hdr] eqn:Ehdr; [contradiction|].
  unfold select_requirement. unfold bind at 1. unfold select_value. rewrite Hhdr.
  unfold bind at 1. rewrite Hdec.
  unfold bind at 1, lift at 1.
  replace (get (VArr [PaymentRequirement.to_value
                        (challenge_requirement payTo facilitator x402Config req
                                               routeConfig)]) (js "length"))
    with (Ok (VNum (Int 1))) by reflexivity.
  cbv beta iota. unfold bind, lift, ret, as_requirement.
  replace (get (VArr [PaymentRequirement.to_value
                        (challenge_requirement payTo facilitator x402Config req
                                               routeConfig)]) (js "0"))
    with (Ok (PaymentRequirement.to_value
                (challenge_requirement payTo facilitator x402Config req routeConfig)))
    by reflexivity.
  replace (truthy (PaymentRequirement.to_value
                     (challenge_requirement payTo facilitator x402Config req routeConfig)))
    with true by reflexivity.
  cbn [negb].
  rewrite requirement_of_to_value; [reflexivity|].
  split; [discriminate|]. destruct facilitator; discriminate.
Qed.

Lemma challenge_in_transport_form_is_read_back_witness :
  @decodeXPaymentRequired unit
     (encode_header (challenge Sample.payTo (Some Sample.facilitator) None
                               (Sample.request []) Sample.weather)) tt
  = (Ok (VArr [PaymentRequirement.to_value
                 (challenge_requirement Sample.payTo (Some Sample.facilitator) None
                                        (Sample.request []) Sample.weather)]),
     tt, [])
  /\ select_requirement None
       (Response.mk 402
          [(js "x-payment-required",
            encode_header (challenge Sample.payTo (Some Sample.facilitator) None
                                     (Sample.request []) Sample.weather))]
          (js "{}")) tt
     = (Ok (challenge_requirement Sample.payTo (Some Sample.facilitator) None
                                  (Sample.request []) Sample.weather), tt, []).
Proof.
  apply (challenge_in_transport_form_is_read_back Sample.payTo (Some Sample.facilitator)
           None (Sample.request []) Sample.weather
           (Response.mk 402
              [(js "x-payment-required",
                encode_header (challenge Sample.payTo (Some Sample.facilitator) None
                                         (Sample.request []) Sample.weather))]
              (js "{}")) tt).
  - repeat split; apply literal_wf; reflexivity.
  - repeat split; apply literal_wf; reflexivity.
  - reflexivity.
Defined.

(** ** What selection throws *)

Lemma truthy_is_readable v k e : truthy v = true -> get v k <> Throw e.
Proof.
  destruct v as [| |b|n|s|l|ps]; cbn [truthy get]; try discriminate.
  - intros _. destruct (str_eqb _ _); [discriminate|].
    destruct (JSON.array_index _) as [i|]; [|discriminate].
    destruct (nth_error s (Z.to_nat i)); discriminate.
  - intros _. destruct (str_eqb _ _); [discriminate|].
    destruct (JSON.array_index _); discriminate.
  - intros _. destruct (lookup _ ps); discriminate.
Qed.

Lemma decodeXPaymentRequired_cases {W} (header : jsstring) (w : W) :
  (exists v, @decodeXPaymentRequired W header w = (Ok v, w, []) /\ truthy v = true)
  \/ @decodeXPaymentRequired W header w
     = (Throw (Err (js "Invalid payment required header format")), w,
        [Console LogError (js "Failed to decode x-payment-required header:")])
  \/ @decodeXPaymentRequired W header w = (Stuck, w, []).
Proof.
  unfold decodeXPaymentRequired, try_catch, bind, lift, ret, throw, console_error, emit.
  destruct (decode_header header) as [parsed|e|]; [|right; left; reflexivity|auto].
  destruct (get parsed (js "accepts")) as [accepts|e|]; [|right; left; reflexivity|auto].
  left. eexists; split; [reflexivity|].
  destruct (truthy accepts) eqn:E; [exact E|reflexivity].
Qed.

Lemma bind_pure_Ok {W A B} (m : M W A) (k : A -> M W B) (w : W) (a : A) :
  m w = (Ok a, w, []) -> bind m k w = k a w.
Proof. intros E; unfold bind; rewrite E. destruct (k a w) as [[r w2] t2]; reflexivity. Qed.

Lemma bind_failed {W A B} (m : M W A) (k : A -> M W B) (w : W) (e : Error) w1 t1 :
  m w = (Throw e, w1, t1) -> bind m k w = (Throw e, w1, t1).
Proof. intros E; unfold bind; rewrite E; reflexivity. Qed.

Lemma bind_is_stuck {W A B} (m : M W A) (k : A -> M W B) (w : W) w1 t1 :
  m w = (Stuck, w1, t1) -> bind m k w = (Stuck, w1, t1).
Proof. intros E; unfold bind; rewrite E; reflexivity. Qed.

(** How selection runs: it stops before anything is selected, or it
    comes to the selector, or to the first requirement, and to the test of
    what was selected. *)
Lemma select_value_cases {W} (selector : option (value -> M W value))
      (response : Response.t) (w : W) :
  (no_requirements_header response
   /\ select_value selector response w
      = (Throw (Err (js "402 status but no x-payment-required header found")), w, []))
  \/ select_value selector response w
     = (Throw (Err (js "Invalid payment required header format")), w,
        [Console LogError (js "Failed to decode x-payment-required header:")])
  \/ select_value selector response w = (Stuck, w, [])
  \/ select_value selector response w
     = (Throw (Err (js "No payment requirements provided")), w, [])
  \/ exists header requirements,
       lookup (js "x-payment-required") (Response.headers response) = Some header
       /\ @decodeXPaymentRequired W header w = (Ok requirements, w, [])
       /\ truthy requirements = true
       /\ select_value selector response w
          = bind match selector with
                 | Some select => select requirements
                 | None => lift (get requirements (js "0"))
                 end
              (fun selectedRequirement =>
                 if negb (truthy selectedRequirement)
                 then throw (Err (js "No suitable payment requirement found"))
                 else ret selectedRequirement) w.
Proof.
  unfold select_value.
  destruct (lookup (js "x-payment-required") (Response.headers response))
    as [[|c hdr]|] eqn:El.
  - left. split; [right; exact El|reflexivity].
  - destruct (decodeXPaymentRequired_cases (c :: hdr) w) as [(v & E & Hv)|[E|E]].
    + rewrite !(bind_pure_Ok _ _ w v E).
      pose proof (get_not_stuck v (js "length")) as Hns.
      pose proof (fun x => truthy_is_readable v (js "length") x Hv) as Hnt.
      destruct (get v (js "length")) as [len|x|];
        [|exfalso; exact (Hnt x eq_refl)|contradiction].
      rewrite !bind_lift_Ok.
      destruct len as [| |b|[z| | |]|s|l|ps];
        try (do 4 right; exists (c :: hdr), v;
             split; [reflexivity|split; [exact E|split; [exact Hv|reflexivity]]]).
      destruct z;
        try (do 4 right; exists (c :: hdr), v;
             split; [reflexivity|split; [exact E|split; [exact Hv|reflexivity]]]).
      right; right; right; left. reflexivity.
    + right; left. apply bind_failed, E.
    + right; right; left. apply bind_is_stuck, E.
  - left. split; [left; exact El|reflexivity].
Qed.

(** X26.  What selection throws.  An error thrown while the transport
    reads the 402 answer and selects a requirement is one of these.  Before
    anything is selected: "402 status but no x-payment-required header
    found", when the header is absent or empty; "Invalid payment required
    header format"; "No payment requirements provided"; by then the world
    is unchanged and the trace holds at most a console line.  Once the
    header is decoded: without a selector, "No suitable payment requirement
    found" when the first requirement is falsy, and nothing has happened;
    with a selector, whatever the selector itself throws, passed on as it
    is, or "No suitable payment requirement found" when the selector
    returned a falsy value, and what has happened is what the selector
    did. *)
Theorem select_value_errors {W} (selector : option (value -> M W value))
        (response : Response.t) (w : W) (e : Error) :
  outcome (select_value selector response w) = Throw e ->
  (((e = Err (js "402 status but no x-payment-required header found")
     /\ no_requirements_header response)
    \/ e = Err (js "Invalid payment required header format")
    \/ e = Err (js "No payment requirements provided"))
   /\ world_after (select_value selector response w) = w
   /\ forallb is_console (events (select_value selector response w)) = true)
  \/ exists header requirements,
       lookup (js "x-payment-required") (Response.headers response) = Some header
       /\ @decodeXPaymentRequired W header w = (Ok requirements, w, [])
       /\ match selector with
          | None =>
              e = Err (js "No suitable payment requirement found")
              /\ truthy (get_opt requirements (js "0")) = false
              /\ select_value None response w = (Throw e, w, [])
          | Some select =>
              world_after (select_value (Some select) response w)
              = world_after (select requirements w)
              /\ events (select_value (Some select) response w)
                 = events (select requirements w)
              /\ (outcome (select requirements w) = Throw e
                  \/ exists v,
                       outcome (select requirements w) = Ok v
                       /\ truthy v = false
                       /\ e = Err (js "No suitable payment requirement found"))
          end.
Proof.
  intros H.
  destruct (select_value_cases selector response w)
    as [(Hh & E)|[E|[E|[E|(header & requirements & El & Ed & Hv & E)]]]].
  - rewrite E in H |- *. injection H as <-. left.
    split; [left; split; [reflexivity|exact Hh]|]. split; reflexivity.
  - rewrite E in H |- *. injection H as <-. left.
    split; [right; left; reflexivity|]. split; reflexivity.
  - rewrite E in H. discriminate.
  - rewrite E in H |- *. injection H as <-. left.
    split; [right; right; reflexivity|]. split; reflexivity.
  - right. exists header, requirements. split; [exact El|]. split; [exact Ed|].
    destruct selector as [select|]; rewrite E in H |- *; clear E.
    + unfold bind, throw, ret, outcome, world_after, events in *.
      destruct (select requirements w) as [[[x|ex|] ws] ts]; cbn [fst snd] in *.
      * destruct (truthy x) eqn:Tx; cbn [negb fst snd] in *; [discriminate|].
        injection H as <-. rewrite app_nil_r.
        split; [reflexivity|]. split; [reflexivity|].
        right. exists x. repeat split. exact Tx.
      * injection H as <-. split; [reflexivity|]. split; [reflexivity|]. now left.
      * discriminate.
    + pose proof (get_not_stuck requirements (js "0")) as Hns.
      pose proof (fun x => truthy_is_readable requirements (js "0") x Hv) as Hnt.
      unfold get_opt.
      unfold bind, lift, throw, ret, outcome in *.
      destruct (get requirements (js "0")) as [x|ex|];
        [|exfalso; exact (Hnt ex eq_refl)|contradiction].
      destruct (truthy x) eqn:Tx; cbn [negb fst snd List.app] in *; [discriminate|].
      injection H as <-. repeat split.
Qed.

Lemma select_value_errors_witness :
  (((Err (js "nothing I can pay")
     = Err (js "402 status but no x-payment-required header found")
     /\ no_requirements_header
          (Response.mk 402 [(js "x-payment-required", Sample.challenge_header)] (js "{}")))
    \/ Err (js "nothing I can pay") = Err (js "Invalid payment required header format")
    \/ Err (js "nothing I can pay") = Err (js "No payment requirements provided"))
   /\ world_after
        (select_value (Some failing_selector)
           (Response.mk 402 [(js "x-payment-required", Sample.challenge_header)] (js "{}"))
           tt) = tt
   /\ forallb is_console
        (events
           (select_value (Some failing_selector)
              (Response.mk 402 [(js "x-payment-required", Sample.challenge_header)]
                           (js "{}")) tt)) = true)
  \/ exists header requirements,
       lookup (js "x-payment-required")
              (Response.headers
                 (Response.mk 402 [(js "x-payment-required", Sample.challenge_header)]
                              (js "{}")))
       = Some header
       /\ @decodeXPaymentRequired unit header tt = (Ok requirements, tt, [])
       /\ world_after
            (select_value (Some failing_selector)
               (Response.mk 402 [(js "x-payment-required", Sample.challenge_header)]
                            (js "{}")) tt)
          = world_after (failing_selector requirements tt)
       /\ events
            (select_value (Some failing_selector)
               (Response.mk 402 [(js "x-payment-required", Sample.challenge_header)]
                            (js "{}")) tt)
          = events (failing_selector requirements tt)
       /\ (outcome (failing_selector requirements tt) = Throw (Err (js "nothing I can pay"))
           \/ exists v,
                outcome (failing_selector requirements tt) = Ok v
                /\ truthy v = false
                /\ Err (js "nothing I can pay")
                   = Err (js "No suitable payment requirement found")).
Proof.
  apply (select_value_errors (Some failing_selector)
           (Response.mk 402 [(js "x-payment-required", Sample.challenge_header)] (js "{}"))
           tt (Err (js "nothing I can pay"))).
  vm_compute; reflexivity.
Defined.

